(** * The call monitor of FastChat (fastchat/serve/call_monitor.py)

    A shallow embedding of the [Monitor] class and of the query endpoints
    built on it: the refresh cycle that rebuilds the per-model and per-user
    call indices from the log files, the windowed statistics with their
    top-k ranking, and the two quota checks.

    Conventions of the embedding.
    - A Python [dict] is an insertion-ordered association list with distinct
      keys ([Dict.t]); the order matters because [sorted] is stable.
    - A Python exception is a value of [exn]; a computation that can raise
      and that reads or writes state is a function [S -> result A * S], the
      state surviving the exception as it does in Python.
    - [time.time()] is an effect: the k-th reading of the clock since the
      process started is [clock k], and computations thread the number of
      readings made so far.
    - A Python [float] is a binary64 number, given by its [spec_float] of the
      Standard Library (zero, infinity, NaN, or sign, mantissa and exponent
      in canonical form); its arithmetic is the library's, which rounds to
      nearest, ties to even.  A Python [int] is an integer of [Z].
    - An instance attribute that has not been assigned yet is [None]; reading
      it raises [AttributeError].
    - A line of a log file is given by what [json.loads] makes of it, and of a
      JSON object only the four fields that the code reads are kept: the
      identifiers as strings, the time stamp as the JSON scalar it is (an
      [int], a [float], NaN and the infinities included, a [bool], [None] or
      a string), since the code compares it with a number.
    - The choice of the files of a cycle ([glob], the sort by creation time
      and the slice [[:num_file]]) is input/output: a cycle takes the chosen
      files, each a list of lines. *)

From Stdlib Require Import Ascii String List ZArith QArith Bool Arith Lia Lqa.
From Stdlib Require Import Permutation Sorted DecimalString SpecFloat.
Import ListNotations.
Local Close Scope Q_scope.
Local Open Scope string_scope.
Local Open Scope nat_scope.
Local Open Scope list_scope.

Set Implicit Arguments.

(** ** Exceptions and the state-and-exception monad *)

Inductive exn : Type :=
| JSONDecodeError
| KeyError (key : string)
| TypeError
| OverflowError
| AttributeError (attr : string).

Inductive result (A : Type) : Type :=
| Ok (a : A)
| Raise (e : exn).
Arguments Ok {A} a.
Arguments Raise {A} e.

Definition M (S A : Type) : Type := S -> result A * S.

Definition ret {S A : Type} (a : A) : M S A := fun s => (Ok a, s).

Definition raise {S A : Type} (e : exn) : M S A := fun s => (Raise e, s).

(** A value or an exception that involves no state. *)
Definition lift {S A : Type} (r : result A) : M S A := fun s => (r, s).

Definition bind {S A B : Type} (m : M S A) (k : A -> M S B) : M S B :=
  fun s =>
    match m s with
    | (Ok a, s') => k a s'
    | (Raise e, s') => (Raise e, s')
    end.

Declare Scope monad_scope.
Delimit Scope monad_scope with monad.
Notation "x <- m ;; k" := (bind m (fun x => k))
  (at level 61, m at next level, right associativity) : monad_scope.
Notation "m ;; k" := (bind m (fun _ => k))
  (at level 61, right associativity) : monad_scope.
Local Open Scope monad_scope.

(** A Python [for x in l: body], the loop's local variables being the
    accumulator [acc]. *)
Fixpoint for_each {S A Acc : Type} (l : list A) (body : Acc -> A -> M S Acc)
  (acc : Acc) : M S Acc :=
  match l with
  | [] => ret acc
  | x :: l' => acc' <- body acc x ;; for_each l' body acc'
  end.

(** ** Python dictionaries *)

Module Dict.
Section Dict.
Variable V : Type.

Definition t : Type := list (string * V).

Definition empty : t := [].

(** [d.get(k)] *)
Fixpoint get (d : t) (k : string) : option V :=
  match d with
  | [] => None
  | (k', v) :: d' => if String.eqb k' k then Some v else get d' k
  end.

(** [k in d] *)
Definition mem (d : t) (k : string) : bool :=
  match get d k with Some _ => true | None => false end.

(** [d[k] = v]: an existing key keeps its place, a new key goes last. *)
Fixpoint set (d : t) (k : string) (v : V) : t :=
  match d with
  | [] => [(k, v)]
  | (k', v') :: d' =>
      if String.eqb k' k then (k', v) :: d' else (k', v') :: set d' k v
  end.

Definition keys (d : t) : list string := map fst d.
Definition values (d : t) : list V := map snd d.
Definition items (d : t) : list (string * V) := d.

(** [{k: v for (k, v) in l}] *)
Definition of_list (l : list (string * V)) : t :=
  fold_left (fun d kv => set d (fst kv) (snd kv)) l empty.

(** The keys of a dictionary are distinct. *)
Definition wf (d : t) : Prop := NoDup (keys d).
End Dict.
Arguments empty {V}.
End Dict.

(** ** Data held by the monitor *)

(** A Python [float]: binary64. *)
Definition prec : Z := 53.
Definition emax : Z := 1024.
Definition float : Type := spec_float.

(** The value of a record's ["tstamp"] field as [json.loads] returns it: a
    number without fraction or exponent is an [int], any other number a
    [float]. *)
Inductive json : Type :=
| JNull
| JBool (b : bool)
| JInt (z : Z)
| JFloat (f : float)
| JStr (s : string).

(** An entry of [model_call[model]]: [{"tstamp": ..., "user_id": ...}]. *)
Record model_req : Type := { mr_tstamp : json; mr_user_id : string }.

(** An entry of [user_call[ip]]: [{"tstamp": ..., "model": ...}]. *)
Record user_req : Type := { ur_tstamp : json; ur_model : string }.

Definition ModelIndex : Type := Dict.t (list model_req).
Definition UserIndex : Type := Dict.t (list user_req).

(** A value of [user_call_stats]: [{"call_dict": {...}, "total_calls": n}]. *)
Record user_stat : Type := { call_dict : Dict.t nat; total_calls : nat }.

Record Monitor : Type := {
  log_dir_list : list string;
  model_call : ModelIndex;
  user_call : UserIndex;
  model_call_limit_global : Dict.t Z;
  model_call_day_limit_per_user : Dict.t Z;
  model_call_stats_hour : option (Dict.t nat);
  model_call_stats_day : option (Dict.t nat);
  user_call_stats_hour : option (Dict.t user_stat);
  user_call_stats_day : option (Dict.t user_stat)
}.

Definition REFRESH_INTERVAL_SEC : Z := 300.

Definition LOG_DIR_LIST : list string :=
  [ "/home/gcpuser/fastchat_logs/server0";
    "/home/gcpuser/fastchat_logs/server1";
    "/home/gcpuser/fastchat_logs/server2";
    "/home/gcpuser/fastchat_logs/server3";
    "/home/gcpuser/fastchat_logs/server4";
    "/home/gcpuser/fastchat_logs/server5";
    "/home/gcpuser/fastchat_logs/server6";
    "/home/gcpuser/fastchat_logs/server7";
    "/home/gcpuser/fastchat_logs/server8";
    "/home/gcpuser/fastchat_logs/server9";
    "/home/gcpuser/fastchat_logs/server10";
    "/home/gcpuser/fastchat_logs/server11";
    "/home/gcpuser/fastchat_logs/server12";
    "/home/gcpuser/fastchat_logs/server13";
    "/home/gcpuser/fastchat_logs/server14";
    "/home/gcpuser/fastchat_logs/server15";
    "/home/gcpuser/fastchat_logs/server16";
    "/home/gcpuser/fastchat_logs/server17" ].

Definition static_model_call_limit_global : Dict.t Z :=
  [ ("gpt-4-1106-preview", 100%Z);
    ("gpt-4-0125-preview", 100%Z);
    ("gpt-4-turbo-browsing", 200%Z);
    ("gpt-4-turbo-2024-04-09", 100%Z);
    ("mistral-large-2402", 200%Z);
    ("llama-3-70b-instruct", 2000%Z);
    ("claude-3-opus-20240229", 1000%Z);
    ("claude-3-sonnet-20240229", 1000%Z);
    ("dbrx-instruct", 1000%Z);
    ("command-r-plus", 1000%Z);
    ("gemini-1.5-pro-api-0409-preview", 1000%Z);
    ("gemini-1.5-pro-api-preview", 1000%Z);
    ("gpt2-chatbot", 1000%Z);
    ("im-a-good-gpt2-chatbot", 3000%Z);
    ("im-also-a-good-gpt2-chatbot", 3000%Z);
    ("gpt-4o-2024-05-13", 1000%Z);
    ("gpt-4o-2024-08-06", 1000%Z);
    ("yi-large", 300%Z);
    ("deepseek-coder-v2", 500%Z);
    ("deepseek-v2-api-0628", 300%Z);
    ("claude-3-5-sonnet-20240620", 2000%Z);
    ("experimental-mf-router", 100%Z);
    ("experimental-causal-router", 100%Z);
    ("llama-3.1-405b-instruct", 2000%Z);
    ("gemini-1.5-pro-exp-0801", 800%Z);
    ("sus-column-r", 3000%Z);
    ("chatgpt-4o-latest", 3000%Z) ].

Definition static_model_call_day_limit_per_user : Dict.t Z :=
  [ ("gpt-4-1106-preview", 5%Z);
    ("gpt-4-0125-preview", 5%Z);
    ("gpt-4-turbo-2024-04-09", 5%Z);
    ("gpt-4-turbo-browsing", 8%Z);
    ("mistral-large-2402", 8%Z);
    ("claude-3-opus-20240229", 15%Z);
    ("claude-3-sonnet-20240229", 32%Z);
    ("command-r-plus", 32%Z);
    ("gemini-1.5-pro-api-0409-preview", 16%Z);
    ("gemini-1.5-pro-api-preview", 16%Z);
    ("gpt2-chatbot", 8%Z);
    ("im-a-good-gpt2-chatbot", 16%Z);
    ("im-also-a-good-gpt2-chatbot", 16%Z);
    ("gpt-4o-2024-05-13", 8%Z);
    ("gpt-4o-2024-08-06", 8%Z);
    ("deepseek-coder-v2", 16%Z);
    ("claude-3-5-sonnet-20240620", 16%Z);
    ("llama-3.1-405b-instruct", 16%Z);
    ("gemini-1.5-pro-exp-0801", 8%Z);
    ("sus-column-r", 16%Z);
    ("chatgpt-4o-latest", 16%Z) ].

(** [Monitor.__init__]: the two indices start empty and the two limit tables
    are the static ones; the four cached views are not assigned. *)
Definition init (dirs : list string) : Monitor :=
  {| log_dir_list := dirs;
     model_call := Dict.empty;
     user_call := Dict.empty;
     model_call_limit_global := static_model_call_limit_global;
     model_call_day_limit_per_user := static_model_call_day_limit_per_user;
     model_call_stats_hour := None;
     model_call_stats_day := None;
     user_call_stats_hour := None;
     user_call_stats_day := None |}.

(** [monitor = Monitor(log_dir_list=LOG_DIR_LIST)] *)
Definition monitor : Monitor := init LOG_DIR_LIST.

(** ** Sorting and slicing as Python does them *)

Section Sorting.
Variable A : Type.
Variable key : A -> nat.

(** [x] is put before the first element whose key is not larger: [x] comes
    from further left than everything already in [l], so equal keys keep
    their order. *)
Fixpoint insert_desc (x : A) (l : list A) : list A :=
  match l with
  | [] => [x]
  | y :: l' => if key y <=? key x then x :: y :: l' else y :: insert_desc x l'
  end.

(** [sorted(l, key=key, reverse=True)]: the stable sort, largest key first. *)
Fixpoint sorted_desc (l : list A) : list A :=
  match l with
  | [] => []
  | x :: l' => insert_desc x (sorted_desc l')
  end.

(** [l[:k]]; a negative [k] counts from the end. *)
Definition slice_to (l : list A) (k : Z) : list A :=
  if (k <? 0)%Z then firstn (length l - Z.to_nat (- k)) l
  else firstn (Z.to_nat k) l.
End Sorting.

(** [sum(l)] *)
Definition sum (l : list nat) : nat := fold_left Nat.add l 0.

(** ** Windowed statistics *)

(** The float nearest to an integer, ties to even; an infinity past the
    range of the floats. *)
Definition float_of_Z (z : Z) : float := binary_normalize prec emax z 0 false.

(** [float(z)] for an [int] [z], as the arithmetic of a [float] with an [int]
    converts it: [OverflowError] when [z] is too large for a float. *)
Definition float_of_int (z : Z) : result float :=
  match float_of_Z z with
  | S754_zero s => Ok (S754_zero s)
  | S754_finite s m e => Ok (S754_finite s m e)
  | S754_infinity _ | S754_nan => Raise OverflowError
  end.

(** [x - z] for a [float] [x] and an [int] [z]. *)
Definition float_sub_int (x : float) (z : Z) : result float :=
  match float_of_int z with
  | Ok y => Ok (SFsub prec emax x y)
  | Raise e => Raise e
  end.

(** [z < x] for an [int] [z] and a [float] [x]: Python compares the two
    numbers as they are, without rounding [z] to a float; no number is below
    NaN. *)
Definition int_lt_float (z : Z) (x : float) : bool :=
  match x with
  | S754_nan => false
  | S754_infinity s => negb s
  | S754_zero _ => (z <? 0)%Z
  | S754_finite s m e =>
      let v := if s then Zneg m else Zpos m in
      if (0 <=? e)%Z then (z <? v * 2 ^ e)%Z else (z * 2 ^ (- e) <? v)%Z
  end.

(** [v < x] for a JSON scalar [v] and a [float] [x]; [TypeError] for [None]
    and for a string ([bool] is a subclass of [int]). *)
Definition py_lt (v : json) (x : float) : result bool :=
  match v with
  | JInt z => Ok (int_lt_float z x)
  | JBool b => Ok (int_lt_float (if b then 1 else 0)%Z x)
  | JFloat f => Ok (SFltb f x)
  | JNull | JStr _ => Raise TypeError
  end.

(** [d[k]] for a key [k] taken from [d] itself. *)
Definition count_of (d : Dict.t nat) (k : string) : nat :=
  match Dict.get d k with Some n => n | None => 0 end.

Definition total_of (d : Dict.t user_stat) (k : string) : nat :=
  match Dict.get d k with Some st => total_calls st | None => 0 end.

(** [target_model is not None and model != target_model] *)
Definition other_model (target_model : option string) (model : string) : bool :=
  match target_model with
  | Some target => negb (String.eqb model target)
  | None => false
  end.

Section Clock.
Variable clock : nat -> float.

(** [time.time()]: the state is the number of readings made so far. *)
Definition time_time : M nat float := fun n => (Ok (clock n), S n).

(** [tstamp < time.time() - most_recent_min * 60]: the clock is read, the
    difference is taken, then the two are compared. *)
Definition too_old (tstamp : json) (most_recent_min : Z) : M nat bool :=
  now <- time_time ;;
  edge <- lift (float_sub_int now (most_recent_min * 60)) ;;
  lift (py_lt tstamp edge).

(** The inner loop of [get_model_call_stats]. *)
Definition recent_tstamps (reqs : list model_req) (most_recent_min : Z)
  : M nat (list json) :=
  for_each reqs
    (fun model_call req =>
       old <- too_old (mr_tstamp req) most_recent_min ;;
       if old then ret model_call
       else ret (model_call ++ [mr_tstamp req]))
    [].

(** The first loop of [get_model_call_stats]. *)
Definition count_model_calls (index : ModelIndex)
  (target_model : option string) (most_recent_min : Z) : M nat (Dict.t nat) :=
  for_each (Dict.items index)
    (fun model_call_stats item =>
       let '(model, reqs) := item in
       if other_model target_model model then ret model_call_stats
       else
         model_call <- recent_tstamps reqs most_recent_min ;;
         ret (Dict.set model_call_stats model (length model_call)))
    Dict.empty.

(** [sorted(stats, key=lambda x: stats[x], reverse=True)[:top_k]] and the
    dictionary comprehension over it. *)
Definition top_k_models (model_call_stats : Dict.t nat) (top_k : Z)
  : Dict.t nat :=
  let top_k_model :=
    slice_to (sorted_desc (count_of model_call_stats)
                (Dict.keys model_call_stats)) top_k in
  Dict.of_list
    (map (fun model => (model, count_of model_call_stats model)) top_k_model).

Definition get_model_call_stats (self : Monitor)
  (target_model : option string) (most_recent_min : Z) (top_k : option Z)
  : M nat (Dict.t nat) :=
  model_call_stats <-
    count_model_calls (model_call self) target_model most_recent_min ;;
  match top_k with
  | Some k => ret (top_k_models model_call_stats k)
  | None => ret model_call_stats
  end.

(** The inner loop of [get_user_call_stats]. *)
Definition count_user_calls (reqs : list user_req)
  (target_model : option string) (most_recent_min : Z) : M nat (Dict.t nat) :=
  for_each reqs
    (fun call_dict req =>
       old <- too_old (ur_tstamp req) most_recent_min ;;
       if old then ret call_dict
       else if other_model target_model (ur_model req) then ret call_dict
       else
         let call_dict :=
           if Dict.mem call_dict (ur_model req) then call_dict
           else Dict.set call_dict (ur_model req) 0 in
         ret (Dict.set call_dict (ur_model req)
                (count_of call_dict (ur_model req) + 1)))
    Dict.empty.

(** The first loop of [get_user_call_stats]. *)
Definition collect_user_stats (index : UserIndex)
  (target_model : option string) (most_recent_min : Z)
  : M nat (Dict.t user_stat) :=
  for_each (Dict.items index)
    (fun user_call_stats item =>
       let '(user_id, reqs) := item in
       calls <- count_user_calls reqs target_model most_recent_min ;;
       let user_model_call :=
         {| call_dict := calls; total_calls := sum (Dict.values calls) |} in
       if 0 <? total_calls user_model_call
       then ret (Dict.set user_call_stats user_id user_model_call)
       else ret user_call_stats)
    Dict.empty.

Definition top_k_users (user_call_stats : Dict.t user_stat) (top_k : Z)
  : Dict.t user_stat :=
  let top_k_user :=
    slice_to (sorted_desc (total_of user_call_stats)
                (Dict.keys user_call_stats)) top_k in
  Dict.of_list
    (flat_map
       (fun user_id =>
          match Dict.get user_call_stats user_id with
          | Some st => [(user_id, st)]
          | None => []
          end) top_k_user).

Definition get_user_call_stats (self : Monitor)
  (target_model : option string) (most_recent_min : Z) (top_k : option Z)
  : M nat (Dict.t user_stat) :=
  user_call_stats <-
    collect_user_stats (user_call self) target_model most_recent_min ;;
  match top_k with
  | Some k => ret (top_k_users user_call_stats k)
  | None => ret user_call_stats
  end.

Definition get_num_users (self : Monitor) (most_recent_min : Z) : M nat nat :=
  user_call_stats <- get_user_call_stats self None most_recent_min None ;;
  ret (length user_call_stats).
End Clock.

(** ** The limit tables and the two quota checks *)

Definition set_model_call_limit_global (d : Dict.t Z) (self : Monitor) : Monitor :=
  {| log_dir_list := log_dir_list self;
     model_call := model_call self;
     user_call := user_call self;
     model_call_limit_global := d;
     model_call_day_limit_per_user := model_call_day_limit_per_user self;
     model_call_stats_hour := model_call_stats_hour self;
     model_call_stats_day := model_call_stats_day self;
     user_call_stats_hour := user_call_stats_hour self;
     user_call_stats_day := user_call_stats_day self |}.

Definition set_model_call (d : ModelIndex) (self : Monitor) : Monitor :=
  {| log_dir_list := log_dir_list self;
     model_call := d;
     user_call := user_call self;
     model_call_limit_global := model_call_limit_global self;
     model_call_day_limit_per_user := model_call_day_limit_per_user self;
     model_call_stats_hour := model_call_stats_hour self;
     model_call_stats_day := model_call_stats_day self;
     user_call_stats_hour := user_call_stats_hour self;
     user_call_stats_day := user_call_stats_day self |}.

Definition set_user_call (d : UserIndex) (self : Monitor) : Monitor :=
  {| log_dir_list := log_dir_list self;
     model_call := model_call self;
     user_call := d;
     model_call_limit_global := model_call_limit_global self;
     model_call_day_limit_per_user := model_call_day_limit_per_user self;
     model_call_stats_hour := model_call_stats_hour self;
     model_call_stats_day := model_call_stats_day self;
     user_call_stats_hour := user_call_stats_hour self;
     user_call_stats_day := user_call_stats_day self |}.

Definition set_model_call_stats_hour (d : Dict.t nat) (self : Monitor) : Monitor :=
  {| log_dir_list := log_dir_list self;
     model_call := model_call self;
     user_call := user_call self;
     model_call_limit_global := model_call_limit_global self;
     model_call_day_limit_per_user := model_call_day_limit_per_user self;
     model_call_stats_hour := Some d;
     model_call_stats_day := model_call_stats_day self;
     user_call_stats_hour := user_call_stats_hour self;
     user_call_stats_day := user_call_stats_day self |}.

Definition set_model_call_stats_day (d : Dict.t nat) (self : Monitor) : Monitor :=
  {| log_dir_list := log_dir_list self;
     model_call := model_call self;
     user_call := user_call self;
     model_call_limit_global := model_call_limit_global self;
     model_call_day_limit_per_user := model_call_day_limit_per_user self;
     model_call_stats_hour := model_call_stats_hour self;
     model_call_stats_day := Some d;
     user_call_stats_hour := user_call_stats_hour self;
     user_call_stats_day := user_call_stats_day self |}.

Definition set_user_call_stats_hour (d : Dict.t user_stat) (self : Monitor) : Monitor :=
  {| log_dir_list := log_dir_list self;
     model_call := model_call self;
     user_call := user_call self;
     model_call_limit_global := model_call_limit_global self;
     model_call_day_limit_per_user := model_call_day_limit_per_user self;
     model_call_stats_hour := model_call_stats_hour self;
     model_call_stats_day := model_call_stats_day self;
     user_call_stats_hour := Some d;
     user_call_stats_day := user_call_stats_day self |}.

Definition set_user_call_stats_day (d : Dict.t user_stat) (self : Monitor) : Monitor :=
  {| log_dir_list := log_dir_list self;
     model_call := model_call self;
     user_call := user_call self;
     model_call_limit_global := model_call_limit_global self;
     model_call_day_limit_per_user := model_call_day_limit_per_user self;
     model_call_stats_hour := model_call_stats_hour self;
     model_call_stats_day := model_call_stats_day self;
     user_call_stats_hour := user_call_stats_hour self;
     user_call_stats_day := Some d |}.

(** Reading the attribute [name] of an instance. *)
Definition getattr {A : Type} (attr : option A) (name : string) : result A :=
  match attr with
  | Some v => Ok v
  | None => Raise (AttributeError name)
  end.

Definition get_model_call_limit (self : Monitor) (model : string) : Z :=
  match Dict.get (model_call_limit_global self) model with
  | None => (-1)%Z
  | Some limit => limit
  end.

Definition update_model_call_limit (self : Monitor) (model : string) (limit : Z)
  : bool * Monitor :=
  if negb (Dict.mem (model_call_limit_global self) model) then (false, self)
  else
    (true,
     set_model_call_limit_global
       (Dict.set (model_call_limit_global self) model limit) self).

Definition is_model_limit_reached (self : Monitor) (model : string) : result bool :=
  match Dict.get (model_call_limit_global self) model with
  | None => Ok false
  | Some limit =>
      match getattr (model_call_stats_hour self) "model_call_stats_hour" with
      | Raise e => Raise e
      | Ok stats_hour =>
          match Dict.get stats_hour model with
          | None => Ok false
          | Some calls => if (Z.of_nat calls >=? limit)%Z then Ok true else Ok false
          end
      end
  end.

Definition is_user_limit_reached (self : Monitor) (model user_id : string)
  : result bool :=
  match Dict.get (model_call_day_limit_per_user self) model with
  | None => Ok false
  | Some limit =>
      match getattr (user_call_stats_day self) "user_call_stats_day" with
      | Raise e => Raise e
      | Ok stats_day =>
          match Dict.get stats_day user_id with
          | None => Ok false
          | Some user_model_call =>
              match Dict.get (call_dict user_model_call) model with
              | None => Ok false
              | Some calls =>
                  if (Z.of_nat calls >=? limit)%Z then Ok true else Ok false
              end
          end
      end
  end.

(** ** The refresh cycle *)

(** The fields [update_stats] reads of a JSON object; a field that the
    object lacks is [None].  The identifiers are strings, as the servers
    write them; the time stamp is kept as the JSON scalar it is. *)
Record log_record : Type := {
  rec_type : option string;
  rec_model : option string;
  rec_tstamp : option json;
  rec_ip : option string
}.

(** What [json.loads] makes of a line of a log file. *)
Inductive line : Type :=
| NotJson                     (* the text is not JSON *)
| NotObject                   (* JSON, but a list, a number, a string or null *)
| Object (obj : log_record).

Definition json_loads {S : Type} (l : line) : M S (option log_record) :=
  match l with
  | NotJson => raise JSONDecodeError
  | NotObject => ret None
  | Object obj => ret (Some obj)
  end.

(** [obj[key]] *)
Definition getitem {S A : Type} (obj : option log_record)
  (field : log_record -> option A) (key : string) : M S A :=
  match obj with
  | None => raise TypeError
  | Some o =>
      match field o with
      | Some v => ret v
      | None => raise (KeyError key)
      end
  end.

(** [d[k]] for a list-valued dictionary in which [k] has just been put. *)
Definition reqs_of {A : Type} (d : Dict.t (list A)) (k : string) : list A :=
  match Dict.get d k with Some l => l | None => [] end.

(** The body of the loop over the lines of a file. *)
Definition ingest_line {S : Type} (indices : ModelIndex * UserIndex) (l : line)
  : M S (ModelIndex * UserIndex) :=
  let '(model_call, user_call) := indices in
  obj <- json_loads l ;;
  type <- getitem obj rec_type "type" ;;
  if negb (String.eqb type "chat") then ret (model_call, user_call)
  else
    model <- getitem obj rec_model "model" ;;
    let model_call :=
      if Dict.mem model_call model then model_call
      else Dict.set model_call model [] in
    tstamp <- getitem obj rec_tstamp "tstamp" ;;
    ip <- getitem obj rec_ip "ip" ;;
    let model_call :=
      Dict.set model_call model
        (reqs_of model_call model ++ [{| mr_tstamp := tstamp; mr_user_id := ip |}]) in
    let user_call :=
      if Dict.mem user_call ip then user_call
      else Dict.set user_call ip [] in
    let user_call :=
      Dict.set user_call ip
        (reqs_of user_call ip ++ [{| ur_tstamp := tstamp; ur_model := model |}]) in
    ret (model_call, user_call).

(** The two loops over the selected files and their lines. *)
Definition ingest_files {S : Type} (json_files : list (list line))
  : M S (ModelIndex * UserIndex) :=
  for_each json_files
    (fun indices json_file => for_each json_file ingest_line indices)
    (Dict.empty, Dict.empty).

(** The monitor together with the number of clock readings made so far. *)
Definition World : Type := (Monitor * nat)%type.

(** [self.attr = value] *)
Definition setattr (assign : Monitor -> Monitor) : M World unit :=
  fun w => (Ok tt, (assign (fst w), snd w)).

(** A call of a method that reads [self] and the clock. *)
Definition call {A : Type} (method : Monitor -> M nat A) : M World A :=
  fun w =>
    let (r, n) := method (fst w) (snd w) in
    (r, (fst w, n)).

Section Refresh.
Variable clock : nat -> float.

(** One turn of the [while True] loop of [update_stats], from the selected
    files ([json_files], the latest [num_file] of each log directory) to
    the [await]. *)
Definition update_stats_cycle (json_files : list (list line)) : M World unit :=
  indices <- ingest_files json_files ;;
  setattr (set_model_call (fst indices)) ;;
  stats <- call (fun self => get_model_call_stats clock self None 60 None) ;;
  setattr (set_model_call_stats_hour stats) ;;
  stats <- call (fun self => get_model_call_stats clock self None (24 * 60) None) ;;
  setattr (set_model_call_stats_day stats) ;;
  setattr (set_user_call (snd indices)) ;;
  stats <- call (fun self => get_user_call_stats clock self None 60 None) ;;
  setattr (set_user_call_stats_hour stats) ;;
  stats <- call (fun self => get_user_call_stats clock self None (24 * 60) None) ;;
  setattr (set_user_call_stats_day stats).

(** [update_stats]: the loop, run for as many turns as [cycles] gives
    directory contents; an exception leaves the loop and ends the task. *)
Fixpoint update_stats (cycles : list (list (list line))) : M World unit :=
  match cycles with
  | [] => ret tt
  | json_files :: later =>
      update_stats_cycle json_files ;; update_stats later
  end.
End Refresh.

(** ** The query endpoints *)

(** [str(n)] for an [int]. *)
Definition str (n : Z) : string := NilZero.string_of_int (Z.to_int n).

Module App.

(** The reply of [/is_limit_reached]: [{"is_limit_reached": ..., "reason": ...}],
    the reason being present when the flag is [True]. *)
Record limit_reply : Type := { reached : bool; reason : option string }.

Definition get_model_call_limit (self : Monitor) (model : string) : Z :=
  get_model_call_limit self model.

Definition update_model_call_limit (self : Monitor) (model : string) (limit : Z)
  : bool * Monitor :=
  let (updated, self') := update_model_call_limit self model limit in
  if negb updated then (false, self') else (true, self').

Definition is_limit_reached (self : Monitor) (model user_id : string)
  : result limit_reply :=
  match is_model_limit_reached self model with
  | Raise e => Raise e
  | Ok true =>
      Ok {| reached := true;
            reason := Some ("MODEL_HOURLY_LIMIT (" ++ model ++ "): "
                            ++ str (get_model_call_limit self model))%string |}
  | Ok false =>
      match is_user_limit_reached self model user_id with
      | Raise e => Raise e
      | Ok true =>
          match Dict.get (model_call_day_limit_per_user self) model with
          | None => Raise (KeyError model)
          | Some limit =>
              Ok {| reached := true;
                    reason := Some ("USER_DAILY_LIMIT (" ++ model ++ "): "
                                    ++ str limit)%string |}
          end
      | Ok false => Ok {| reached := false; reason := None |}
      end
  end.

(** [/get_num_users_hr] *)
Definition get_num_users (self : Monitor) : result nat :=
  match getattr (user_call_stats_hour self) "user_call_stats_hour" with
  | Raise e => Raise e
  | Ok stats => Ok (length stats)
  end.

Definition get_num_users_day (self : Monitor) : result nat :=
  match getattr (user_call_stats_day self) "user_call_stats_day" with
  | Raise e => Raise e
  | Ok stats => Ok (length stats)
  end.

Definition get_user_call_stats (clock : nat -> float) (self : Monitor)
  (model : option string) (most_recent_min : Z) (top_k : option Z)
  : M nat (Dict.t user_stat) :=
  get_user_call_stats clock self model most_recent_min top_k.

Definition get_model_call_stats (clock : nat -> float) (self : Monitor)
  (model : option string) (most_recent_min : Z) (top_k : option Z)
  : M nat (Dict.t nat) :=
  get_model_call_stats clock self model most_recent_min top_k.

End App.

(** ** The server: one event loop running the refresh task and the handlers *)

Inductive request : Type :=
| GetModelCallLimit (model : string)
| UpdateModelCallLimit (model : string) (limit : Z)
| IsLimitReached (model user_id : string)
| GetNumUsersHr
| GetNumUsersDay
| GetUserCallStats (model : option string) (most_recent_min : Z) (top_k : option Z)
| GetModelCallStats (model : option string) (most_recent_min : Z) (top_k : option Z).

Inductive reply : Type :=
| ModelCallLimit (limit : Z)
| Success (updated : bool)
| LimitReached (r : App.limit_reply)
| NumUsers (n : nat)
| UserCallStats (stats : Dict.t user_stat)
| ModelCallStats (stats : Dict.t nat)
| ServerError (e : exn).

(** What the event loop runs next: the refresh task waking up from its sleep
    (with the files it then finds), or a request.  Neither a handler nor a
    turn of [update_stats] awaits before it is done, so each runs whole. *)
Inductive event : Type :=
| Wake (json_files : list (list line))
| Request (r : request).

Record Server : Type := {
  self_of : Monitor;
  readings : nat;
  task_error : option exn      (* the exception that ended [update_stats] *)
}.

Definition startup : Server :=
  {| self_of := monitor; readings := 0; task_error := None |}.

Definition reply_of {A : Type} (wrap : A -> reply) (r : result A) : reply :=
  match r with
  | Ok a => wrap a
  | Raise e => ServerError e
  end.

Section Server.
Variable clock : nat -> float.

Definition serve (r : request) (s : Server) : reply * Server :=
  match r with
  | GetModelCallLimit model =>
      (ModelCallLimit (App.get_model_call_limit (self_of s) model), s)
  | UpdateModelCallLimit model limit =>
      let (ok, self') := App.update_model_call_limit (self_of s) model limit in
      (Success ok,
       {| self_of := self'; readings := readings s; task_error := task_error s |})
  | IsLimitReached model user_id =>
      (reply_of LimitReached (App.is_limit_reached (self_of s) model user_id), s)
  | GetNumUsersHr => (reply_of NumUsers (App.get_num_users (self_of s)), s)
  | GetNumUsersDay => (reply_of NumUsers (App.get_num_users_day (self_of s)), s)
  | GetUserCallStats model most_recent_min top_k =>
      let (res, n) :=
        App.get_user_call_stats clock (self_of s) model most_recent_min top_k
          (readings s) in
      (reply_of UserCallStats res,
       {| self_of := self_of s; readings := n; task_error := task_error s |})
  | GetModelCallStats model most_recent_min top_k =>
      let (res, n) :=
        App.get_model_call_stats clock (self_of s) model most_recent_min top_k
          (readings s) in
      (reply_of ModelCallStats res,
       {| self_of := self_of s; readings := n; task_error := task_error s |})
  end.

Definition step (ev : event) (s : Server) : option reply * Server :=
  match ev with
  | Request r => let (rep, s') := serve r s in (Some rep, s')
  | Wake json_files =>
      match task_error s with
      | Some _ => (None, s)
      | None =>
          match update_stats_cycle clock json_files (self_of s, readings s) with
          | (Ok _, (self', n)) =>
              (None, {| self_of := self'; readings := n; task_error := None |})
          | (Raise e, (self', n)) =>
              (None, {| self_of := self'; readings := n; task_error := Some e |})
          end
      end
  end.

(** The server after a sequence of events, with the replies it gave. *)
Fixpoint run (evs : list event) (s : Server) : list reply * Server :=
  match evs with
  | [] => ([], s)
  | ev :: evs' =>
      let (rep, s') := step ev s in
      let (reps, s'') := run evs' s' in
      (match rep with Some r => r :: reps | None => reps end, s'')
  end.
End Server.

(** ** The files of a cycle *)

(** A file that [glob] finds under a log directory. *)
Record log_file : Type := {
  file_path : string;
  ctime : Q;                    (* [os.path.getctime(path)] *)
  file_lines : list line        (* [open(path)], line by line *)
}.

Section SortReverse.
Variable A : Type.
Variable key : A -> Q.

(** As [insert_desc], for a key that is a float. *)
Fixpoint insert_newest (x : A) (l : list A) : list A :=
  match l with
  | [] => [x]
  | y :: l' =>
      if Qle_bool (key y) (key x) then x :: y :: l' else y :: insert_newest x l'
  end.

(** [l.sort(key=key, reverse=True)] *)
Fixpoint sort_reverse (l : list A) : list A :=
  match l with
  | [] => []
  | x :: l' => insert_newest x (sort_reverse l')
  end.
End SortReverse.

(** The first loop of a turn of [update_stats]: under each log directory, the
    [num_file] files created last.  [glob_json log_dir] is what
    [glob.glob(os.path.join(log_dir, "*.json"))] returns, nothing for a
    directory that is not there. *)
Definition latest_files (glob_json : string -> list log_file)
  (log_dir_list : list string) (num_file : Z) : list log_file :=
  fold_left
    (fun json_files log_dir =>
       let json_files_per_server := sort_reverse ctime (glob_json log_dir) in
       json_files ++ slice_to json_files_per_server num_file)
    log_dir_list [].

(** A turn of the loop of [update_stats] from the log directories on. *)
Definition update_stats_turn (clock : nat -> float)
  (glob_json : string -> list log_file) (num_file : Z) : M World unit :=
  fun w =>
    update_stats_cycle clock
      (map file_lines (latest_files glob_json (log_dir_list (fst w)) num_file)) w.

(** * Vocabulary of the statements and sample data *)

(** [a] may come before [b] in a list sorted by descending [key]. *)
Definition desc (A : Type) (key : A -> nat) (a b : A) : Prop := key b <= key a.

(** The [k] items of a dictionary that rank first by [score], as the stable
    descending sort orders them. *)
Definition top_items {V : Type} (score : V -> nat) (d : Dict.t V) (k : nat)
  : Dict.t V :=
  firstn k (sorted_desc (fun item => score (snd item)) d).

(** What it means for [kept] to be the top [k] of [all] by [score]: [kept]
    has [k] items (all of them when there are fewer), each an item of [all];
    no item left out scores more than an item kept; [kept] is in descending
    order of score; and among items of one score, those kept are the first
    ones of [all], in the order of [all]. *)
Definition is_top_k {V : Type} (score : V -> nat) (k : nat) (all kept : Dict.t V)
  : Prop :=
  length kept = Nat.min k (length all) /\
  Dict.wf kept /\
  (forall item, In item kept -> In item all) /\
  (forall item item', In item kept -> In item' all -> ~ In item' kept ->
     score (snd item') <= score (snd item)) /\
  StronglySorted (fun a b => score (snd b) <= score (snd a)) kept /\
  (forall c, exists rest,
     filter (fun item => score (snd item) =? c) all =
     filter (fun item => score (snd item) =? c) kept ++ rest).

(** ** The window of a statistic *)


(** [x <= z] for a float [x] and an integer [z], as numbers. *)
Definition float_le_int (x : float) (z : Z) : bool :=
  match x with
  | S754_nan => false
  | S754_infinity s => s
  | S754_zero _ => (0 <=? z)%Z
  | S754_finite s m e =>
      let v := if s then Zneg m else Zpos m in
      if (0 <=? e)%Z then (v * 2 ^ e <=? z)%Z else (v <=? z * 2 ^ (- e))%Z
  end.

(** [tstamp >= edge], for a time stamp that is a number. *)
Definition at_or_after (tstamp : json) (edge : float) : bool :=
  match tstamp with
  | JInt z => float_le_int edge z
  | JBool b => float_le_int edge (if b then 1 else 0)%Z
  | JFloat f => SFleb edge f
  | JNull | JStr _ => false
  end.

(** [now - most_recent_min * 60], the difference of floats: the number of
    seconds is rounded to a float, and so is the difference. *)
Definition edge (now : float) (most_recent_min : Z) : float :=
  SFsub prec emax now (float_of_Z (most_recent_min * 60)).

(** [tstamp >= now - most_recent_min * 60]: the time stamp is in the window
    of [most_recent_min] minutes that ends at [now]. *)
Definition in_window (most_recent_min : Z) (now : float) (tstamp : json) : bool :=
  at_or_after tstamp (edge now most_recent_min).

(** The number of seconds of the window is past the range of the floats. *)
Definition overflows (most_recent_min : Z) : bool :=
  match float_of_int (most_recent_min * 60) with
  | Ok _ => false
  | Raise _ => true
  end.

(** The time stamps of the data model: numbers, and not NaN. *)
Definition numeric (tstamp : json) : Prop :=
  match tstamp with
  | JInt _ | JBool _ => True
  | JFloat f => f <> S754_nan
  | JNull | JStr _ => False
  end.

(** The indices as the data model has them: every time stamp a number. *)
Definition numeric_model_index (index : ModelIndex) : Prop :=
  Forall (fun item => Forall (fun req => numeric (mr_tstamp req)) (snd item)) index.

Definition numeric_user_index (index : UserIndex) : Prop :=
  Forall (fun item => Forall (fun req => numeric (ur_tstamp req)) (snd item)) index.

(** What the comparison of the code makes of a time stamp at the reading
    [now] of the clock: the time stamp is kept when the comparison returns
    and does not find it too old. *)
Definition not_too_old (most_recent_min : Z) (now : float) (tstamp : json) : bool :=
  match float_sub_int now (most_recent_min * 60) with
  | Ok e => match py_lt tstamp e with Ok b => negb b | Raise _ => false end
  | Raise _ => false
  end.

(** The elements of [l], each with the reading of the clock that a loop
    makes for it when it reads the clock once per element, from the reading
    [n] on. *)
Fixpoint read_along {A : Type} (clock : nat -> float) (n : nat) (l : list A)
  : list (float * A) :=
  match l with
  | [] => []
  | x :: l' => (clock n, x) :: read_along clock (S n) l'
  end.

(** The index as a statistic goes through it from the reading [n] on: key
    after key, every event with its own reading of the clock. *)
Fixpoint examine {A : Type} (clock : nat -> float) (n : nat)
  (index : Dict.t (list A)) : Dict.t (list (float * A)) :=
  match index with
  | [] => []
  | (k, reqs) :: index' =>
      (k, read_along clock n reqs) :: examine clock (n + length reqs) index'
  end.

(** The events of an index, in the order of the index. *)
Definition events {A : Type} (index : Dict.t (list A)) : list A :=
  concat (map snd index).


(** The model is the target model, when there is one. *)
Definition aims (target_model : option string) (model : string) : bool :=
  match target_model with
  | Some target => String.eqb model target
  | None => true
  end.

(** The models that a statistic with this target goes through. *)
Definition aimed (target_model : option string) (index : ModelIndex) : ModelIndex :=
  filter (fun item => aims target_model (fst item)) index.

(** How many of the events [reqs] are calls to [model]. *)
Definition calls_to (model : string) (reqs : list user_req) : nat :=
  length (filter (fun req => String.eqb (ur_model req) model) reqs).

(** [calls] is the per-model count dictionary of the events [reqs]: an entry
    for each model called, holding the number of calls. *)
Definition call_dict_of (reqs : list user_req) (calls : Dict.t nat) : Prop :=
  Dict.wf calls /\
  (forall model,
     Dict.get calls model =
     if 0 <? calls_to model reqs then Some (calls_to model reqs) else None) /\
  sum (Dict.values calls) = length reqs.

(** [st] is the statistics of a user whose events in the window are [reqs]. *)
Definition user_stat_of (reqs : list user_req) (st : user_stat) : Prop :=
  call_dict_of reqs (call_dict st) /\ total_calls st = length reqs.

Section Windows.
(** [win now tstamp]: the time stamp is in the window at the reading [now]. *)
Variable win : float -> json -> bool.

(** The events of a model that are in the window, each at its reading. *)
Definition calls_in_window (reqs : list (float * model_req))
  : list (float * model_req) :=
  filter (fun p => win (fst p) (mr_tstamp (snd p))) reqs.

(** The per-model counts over the window, in the order of the index. *)
Definition model_counts (timed : Dict.t (list (float * model_req))) : Dict.t nat :=
  map (fun item => (fst item, length (calls_in_window (snd item)))) timed.

(** The events of a user that are in the window, each at its reading, and
    that go to the target model when there is one. *)
Definition user_calls_in_window (target_model : option string)
  (reqs : list (float * user_req)) : list user_req :=
  map snd
    (filter (fun p => win (fst p) (ur_tstamp (snd p)) &&
                      aims target_model (ur_model (snd p))) reqs).

(** A user with at least one such event. *)
Definition active (target_model : option string)
  (item : string * list (float * user_req)) : bool :=
  0 <? length (user_calls_in_window target_model (snd item)).

(** [stats] holds, in the order of the index, one entry for each active user,
    with the statistics of that user's events in the window. *)
Definition user_stats_of (target_model : option string)
  (timed : Dict.t (list (float * user_req))) (stats : Dict.t user_stat) : Prop :=
  Forall2
    (fun item entry =>
       fst entry = fst item /\
       user_stat_of (user_calls_in_window target_model (snd item)) (snd entry))
    (filter (active target_model) timed) stats.
End Windows.

(** The instant of the runs below, 1700000000 seconds after the epoch. *)
Definition abc_epoch : Z := 1700000000.
Definition abc_now : float := float_of_Z abc_epoch.

(** A time stamp [secs] seconds before that instant. *)
Definition ago (secs : Z) : json := JFloat (float_of_Z (abc_epoch - secs)).


(** The users of the testable property: A with three calls and C with seven
    in the last hour, B with one call two hours old. *)
Definition abc_user_call : UserIndex :=
  [ ("A", map (fun secs => {| ur_tstamp := ago secs; ur_model := "m" |})
            [10; 20; 30]%Z);
    ("B", [ {| ur_tstamp := ago 7200; ur_model := "m" |} ]);
    ("C", map (fun secs => {| ur_tstamp := ago secs; ur_model := "m" |})
            [1; 2; 3; 4; 5; 6; 7]%Z) ].

Definition abc_monitor : Monitor := set_user_call abc_user_call monitor.

(** A model called a minute ago and a model called two hours ago. *)
Definition two_models : ModelIndex :=
  [ ("a", [ {| mr_tstamp := ago 60; mr_user_id := "u" |} ]);
    ("b", [ {| mr_tstamp := ago 7200; mr_user_id := "u" |} ]) ].






(** A clock that starts at the instant of the runs and moves on by the
    smallest step of a float between two readings. *)
Definition ticking_clock (k : nat) : float :=
  S754_finite false (Z.to_pos (abc_epoch * 2 ^ 22 + Z.of_nat k)) (-22).



(** A window whose number of seconds is past every float. *)
Definition endless_window : Z := 10 ^ 400.




(** The lines on which the loop body raises: text that is not JSON, JSON
    that is not an object, an object without ["type"], and a chat record
    without ["model"], ["tstamp"] or ["ip"]. *)
Definition malformed (l : line) : bool :=
  match l with
  | NotJson | NotObject => true
  | Object obj =>
      match rec_type obj with
      | None => true
      | Some type =>
          String.eqb type "chat" &&
          match rec_model obj, rec_tstamp obj, rec_ip obj with
          | Some _, Some _, Some _ => false
          | _, _, _ => true
          end
      end
  end.

(** A chat record whose time stamp is the float of [tstamp] seconds. *)
Definition chat (model user_id : string) (tstamp : Z) : line :=
  Object {| rec_type := Some "chat"; rec_model := Some model;
            rec_tstamp := Some (JFloat (float_of_Z tstamp));
            rec_ip := Some user_id |}.

(** Two files; the second line of the first is cut short. *)
Definition files_with_garbage : list (list line) :=
  [ [ chat "m1" "u1" (abc_epoch - 10); NotJson; chat "m1" "u2" (abc_epoch - 5) ];
    [ chat "m2" "u1" (abc_epoch - 20) ] ].

(** The same files without the bad line. *)
Definition files_without_garbage : list (list line) :=
  [ [ chat "m1" "u1" (abc_epoch - 10); chat "m1" "u2" (abc_epoch - 5) ];
    [ chat "m2" "u1" (abc_epoch - 20) ] ].

(** A line the loop body accepts, its time stamp a number when it is a chat
    record. *)
Definition healthy (l : line) : Prop :=
  malformed l = false /\
  forall obj tstamp,
    l = Object obj -> rec_type obj = Some "chat" ->
    rec_tstamp obj = Some tstamp -> numeric tstamp.

(** Indices as the data model has them: distinct keys, numeric time stamps. *)
Definition good_indices (indices : ModelIndex * UserIndex) : Prop :=
  Dict.wf (fst indices) /\ numeric_model_index (fst indices) /\
  Dict.wf (snd indices) /\ numeric_user_index (snd indices).

(** The six fields of [self] are those of one refresh cycle over
    [json_files]: the two indices are built from these files, and each of the
    four views is what its statistic returns on these indices (at some
    reading of the clock). *)
Definition snapshot_of (clock : nat -> float) (json_files : list (list line))
  (self : Monitor) : Prop :=
  fst (ingest_files json_files tt) = Ok (model_call self, user_call self) /\
  exists n1 n2 n3 n4 : nat,
    option_map Ok (model_call_stats_hour self) =
      Some (fst (get_model_call_stats clock self None 60 None n1)) /\
    option_map Ok (model_call_stats_day self) =
      Some (fst (get_model_call_stats clock self None (24 * 60) None n2)) /\
    option_map Ok (user_call_stats_hour self) =
      Some (fst (get_user_call_stats clock self None 60 None n3)) /\
    option_map Ok (user_call_stats_day self) =
      Some (fst (get_user_call_stats clock self None (24 * 60) None n4)).

(** A chat record whose time stamp was written as text. *)
Definition cycle_with_text_tstamp : list (list line) :=
  [ [ Object {| rec_type := Some "chat"; rec_model := Some "m9";
                rec_tstamp := Some (JStr "1700000000.0");
                rec_ip := Some "u9" |} ] ].

(** A line whose time stamp, when it has one, is a number. *)
Definition typed (l : line) : Prop :=
  forall obj tstamp,
    l = Object obj -> rec_tstamp obj = Some tstamp -> numeric tstamp.

(** The files of a wake-up hold typed lines only. *)
Definition typed_event (ev : event) : Prop :=
  match ev with
  | Wake json_files => Forall (Forall typed) json_files
  | Request _ => True
  end.

(** The monitor as [__init__] leaves its two indices and four views. *)
Definition unpublished (self : Monitor) : Prop :=
  model_call self = Dict.empty /\ user_call self = Dict.empty /\
  model_call_stats_hour self = None /\ model_call_stats_day self = None /\
  user_call_stats_hour self = None /\ user_call_stats_day self = None.

(** What a reader may find: nothing published yet, or the snapshot of one
    cycle. *)
Definition consistent (clock : nat -> float) (self : Monitor) : Prop :=
  unpublished self \/ exists json_files, snapshot_of clock json_files self.

(** The clock of the runs below stands at [abc_now]. *)
Definition abc_clock : nat -> float := fun _ => abc_now.

(** One user calls a model five times within the last seconds. *)
Definition five_calls : list (list line) :=
  [ map (fun secs => chat "gpt-4-1106-preview" "u1" (abc_epoch - secs))
      [1; 2; 3; 4; 5]%Z ].

Definition four_calls : list (list line) :=
  [ map (fun secs => chat "gpt-4-1106-preview" "u1" (abc_epoch - secs))
      [1; 2; 3; 4]%Z ].

(** The hourly limit of the model is lowered to 5, then a refresh cycle finds
    the five calls. *)
Definition throttled : Server :=
  snd (run abc_clock
         [ Request (UpdateModelCallLimit "gpt-4-1106-preview" 5);
           Wake five_calls ] startup).

Definition not_throttled : Server :=
  snd (run abc_clock
         [ Request (UpdateModelCallLimit "gpt-4-1106-preview" 5);
           Wake four_calls ] startup).



(** The fields that a cycle keeps of a chat record. *)
Record chat_record : Type := {
  cr_model : string;
  cr_tstamp : json;
  cr_ip : string
}.

(** The chat record that a line holds, when it is a record of type "chat"
    with its three other fields. *)
Definition chat_record_of (l : line) : option chat_record :=
  match l with
  | Object obj =>
      match rec_type obj, rec_model obj, rec_tstamp obj, rec_ip obj with
      | Some type, Some model, Some tstamp, Some ip =>
          if String.eqb type "chat"
          then Some {| cr_model := model; cr_tstamp := tstamp; cr_ip := ip |}
          else None
      | _, _, _, _ => None
      end
  | _ => None
  end.

(** The chat records of the files of a cycle, in the order in which the
    cycle reads them. *)
Definition chat_records (json_files : list (list line)) : list chat_record :=
  flat_map
    (fun l => match chat_record_of l with Some r => [r] | None => [] end)
    (concat json_files).

(** The strings of [l] without repetition, in the order in which they first
    come. *)
Fixpoint first_seen (l : list string) : list string :=
  match l with
  | [] => []
  | k :: l' => k :: filter (fun k' => negb (String.eqb k' k)) (first_seen l')
  end.

(** The items of the records filed under the key [k], in the order of the
    records. *)
Definition group (R A : Type) (key_of : R -> string) (item_of : R -> A)
  (k : string) (records : list R) : list A :=
  map item_of (filter (fun r => String.eqb (key_of r) k) records).

(** The dictionary that files [records] by key: the keys in the order of their
    first record, each with its group. *)
Definition index_of (R A : Type) (key_of : R -> string) (item_of : R -> A)
  (records : list R) : Dict.t (list A) :=
  map (fun k => (k, group key_of item_of k records))
    (first_seen (map key_of records)).

(** What [update_stats] appends to [model_call[model]] and to
    [user_call[ip]] for a chat record. *)
Definition model_req_of (r : chat_record) : model_req :=
  {| mr_tstamp := cr_tstamp r; mr_user_id := cr_ip r |}.

Definition user_req_of (r : chat_record) : user_req :=
  {| ur_tstamp := cr_tstamp r; ur_model := cr_model r |}.

(** The two indices of [records]: a key for each model (each user) in the
    order of its first record, holding its calls in the order of the
    records. *)
Definition model_index_of (records : list chat_record) : ModelIndex :=
  index_of cr_model model_req_of records.

Definition user_index_of (records : list chat_record) : UserIndex :=
  index_of cr_ip user_req_of records.

(** A record of a type other than "chat". *)
Definition other_type (l : line) : bool :=
  match l with
  | Object obj =>
      match rec_type obj with
      | Some type => negb (String.eqb type "chat")
      | None => false
      end
  | _ => false
  end.

(** The limit of [model] after the updates that [evs] asks for, [limit]
    being the limit before: that of the last update of this model. *)
Definition last_limit (model : string) (evs : list event) (limit : Z) : Z :=
  fold_left
    (fun l ev =>
       match ev with
       | Request (UpdateModelCallLimit model' limit') =>
           if String.eqb model' model then limit' else l
       | _ => l
       end) evs limit.

(** What [update_stats] publishes: the two indices and the four views. *)
Definition published (self : Monitor) :=
  (model_call self, user_call self,
   model_call_stats_hour self, model_call_stats_day self,
   user_call_stats_hour self, user_call_stats_day self).

Definition is_request (ev : event) : Prop :=
  match ev with Request _ => True | Wake _ => False end.

(** A time stamp that Python does not compare with a number. *)
Definition not_a_number (tstamp : json) : bool :=
  match tstamp with
  | JNull | JStr _ => true
  | JBool _ | JInt _ | JFloat _ => false
  end.

(** A model that passes the target filter has an event. *)
Definition reads_model_index (target_model : option string) (index : ModelIndex)
  : bool :=
  existsb
    (fun item =>
       aims target_model (fst item) &&
       match snd item with [] => false | _ :: _ => true end) index.

(** A model that passes the target filter has such a time stamp. *)
Definition bad_model_index (target_model : option string) (index : ModelIndex)
  : bool :=
  existsb
    (fun item =>
       aims target_model (fst item) &&
       existsb (fun req => not_a_number (mr_tstamp req)) (snd item)) index.

(** Some user has an event. *)
Definition reads_user_index (index : UserIndex) : bool :=
  existsb (fun item => match snd item with [] => false | _ :: _ => true end)
    index.

(** Some user has such a time stamp. *)
Definition bad_user_index (index : UserIndex) : bool :=
  existsb
    (fun item => existsb (fun req => not_a_number (ur_tstamp req)) (snd item))
    index.

(** The number of chat records of [model] with a time stamp in the window
    that ends at [now]. *)
Definition model_calls (now : float) (most_recent_min : Z) (model : string)
  (records : list chat_record) : nat :=
  length
    (filter (fun r => String.eqb (cr_model r) model &&
                      in_window most_recent_min now (cr_tstamp r)) records).

(** The number of chat records of [user_id] for [model] with a time stamp
    in the window that ends at [now]. *)
Definition user_model_calls (now : float) (most_recent_min : Z)
  (user_id model : string) (records : list chat_record) : nat :=
  length
    (filter (fun r => String.eqb (cr_ip r) user_id &&
                      String.eqb (cr_model r) model &&
                      in_window most_recent_min now (cr_tstamp r)) records).


(** The number that a view of per-model counts holds for a model, 0 when it
    holds none. *)
Definition hourly_count (stats : Dict.t nat) (model : string) : nat :=
  match Dict.get stats model with
  | Some calls => calls
  | None => 0
  end.

(** Two ceilings set to 0 over [/update_model_call_limit], then a cycle over
    one chat of one of the two models, two hours old. *)
Definition zero_ceilings : list event :=
  [ Request (UpdateModelCallLimit "yi-large" 0);
    Request (UpdateModelCallLimit "gpt2-chatbot" 0);
    Wake [[ chat "gpt2-chatbot" "u" (abc_epoch - 7200) ]] ].

(** * Properties *)

(** ** Dictionaries *)

Section DictFacts.
Variable V : Type.
Implicit Types (d : Dict.t V) (k : string) (v : V).

Lemma get_set_same d k v : Dict.get (Dict.set d k v) k = Some v.
Proof.
  induction d as [|[k' v'] d IH]; simpl.
  - now rewrite String.eqb_refl.
  - destruct (String.eqb k' k) eqn:E; simpl; rewrite E; auto.
Qed.

Lemma get_set_other d k k' v :
  k <> k' -> Dict.get (Dict.set d k v) k' = Dict.get d k'.
Proof.
  intros Hne. induction d as [|[k0 v0] d IH]; simpl.
  - destruct (String.eqb_spec k k'); congruence.
  - destruct (String.eqb_spec k0 k) as [->|Hk]; simpl.
    + destruct (String.eqb_spec k k'); congruence.
    + now rewrite IH.
Qed.

Lemma get_None_iff d k : Dict.get d k = None <-> ~ In k (Dict.keys d).
Proof.
  induction d as [|[k' v'] d IH]; simpl.
  - tauto.
  - destruct (String.eqb_spec k' k) as [->|Hk].
    + split; [discriminate | tauto].
    + rewrite IH. tauto.
Qed.

Lemma mem_true_iff d k : Dict.mem d k = true <-> In k (Dict.keys d).
Proof.
  unfold Dict.mem. destruct (Dict.get d k) eqn:E.
  - split; auto. intros _.
    destruct (in_dec string_dec k (Dict.keys d)) as [Hin|Hout]; auto.
    apply get_None_iff in Hout. congruence.
  - apply get_None_iff in E. split; [discriminate | tauto].
Qed.

Lemma get_In d k v : Dict.get d k = Some v -> In (k, v) d.
Proof.
  induction d as [|[k' v'] d IH]; simpl; [discriminate|].
  destruct (String.eqb_spec k' k) as [->|Hk].
  - intros [= ->]. now left.
  - auto.
Qed.

Lemma In_get d k v : Dict.wf d -> In (k, v) d -> Dict.get d k = Some v.
Proof.
  unfold Dict.wf. induction d as [|[k' v'] d IH]; simpl; [tauto|].
  intros Hnd [[= -> ->]|Hin].
  - now rewrite String.eqb_refl.
  - inversion Hnd as [|? ? Hout Hnd']; subst.
    destruct (String.eqb_spec k' k) as [->|Hk]; auto.
    exfalso. apply Hout. change (In (fst (k, v)) (map fst d)).
    now apply in_map.
Qed.

(** Assigning to a key that is there changes no key. *)
Lemma keys_set_present d k v :
  Dict.mem d k = true -> Dict.keys (Dict.set d k v) = Dict.keys d.
Proof.
  unfold Dict.mem. induction d as [|[k' v'] d IH]; simpl; [discriminate|].
  destruct (String.eqb k' k) eqn:E; simpl; auto.
  intros H. now rewrite IH.
Qed.

(** Assigning to a new key appends the item. *)
Lemma set_absent d k v :
  Dict.get d k = None -> Dict.set d k v = d ++ [(k, v)].
Proof.
  induction d as [|[k' v'] d IH]; simpl; auto.
  destruct (String.eqb k' k); [discriminate|].
  intros H. now rewrite IH.
Qed.

Lemma of_list_wf (l : list (string * V)) :
  NoDup (map fst l) -> Dict.of_list l = l.
Proof.
  unfold Dict.of_list.
  enough (H : forall l d, NoDup (map fst (d ++ l)) ->
              fold_left (fun d kv => Dict.set d (fst kv) (snd kv)) l d = d ++ l).
  { intros Hnd. apply (H l []). exact Hnd. }
  clear l. induction l as [|[k v] l IH]; intros d Hnd; simpl.
  - now rewrite app_nil_r.
  - rewrite set_absent.
    + rewrite IH; rewrite <- app_assoc; auto.
    + apply get_None_iff. unfold Dict.keys.
      rewrite map_app in Hnd. simpl in Hnd.
      apply NoDup_remove_2 in Hnd. intros Hin. apply Hnd.
      apply in_or_app. now left.
Qed.
End DictFacts.

(** ** The hourly limit of a model (C1) *)

(** A model without a global limit is never reported, cached view or not. *)
Lemma is_model_limit_reached_unconfigured (self : Monitor) (model : string) :
  Dict.get (model_call_limit_global self) model = None ->
  is_model_limit_reached self model = Ok false.
Proof. intros H. unfold is_model_limit_reached. now rewrite H. Qed.

(** C1, as the code has it. Once the hourly view is cached,
    [is_model_limit_reached] answers, and it answers [True] exactly when the
    model has a global limit and an entry in the cached hourly view whose
    count is at least that limit; in particular it answers [False] for a
    model without a limit and for a model without an entry in the view,
    [True] when the count equals the limit and [False] when the count is one
    below it. *)
Theorem is_model_limit_reached_inclusive :
  forall (self : Monitor) (model : string) (stats_hour : Dict.t nat),
    model_call_stats_hour self = Some stats_hour ->
    exists b : bool,
      is_model_limit_reached self model = Ok b /\
      (b = true <->
       exists limit calls,
         Dict.get (model_call_limit_global self) model = Some limit /\
         Dict.get stats_hour model = Some calls /\
         (Z.of_nat calls >= limit)%Z) /\
      (Dict.get (model_call_limit_global self) model = None -> b = false) /\
      (Dict.get stats_hour model = None -> b = false) /\
      (forall limit calls,
         Dict.get (model_call_limit_global self) model = Some limit ->
         Dict.get stats_hour model = Some calls ->
         (Z.of_nat calls = limit -> b = true) /\
         (Z.of_nat calls = limit - 1 -> b = false)%Z).
Proof.
  intros self model stats_hour Hview.
  unfold is_model_limit_reached. rewrite Hview. simpl.
  destruct (Dict.get (model_call_limit_global self) model) as [limit|] eqn:Hl.
  - destruct (Dict.get stats_hour model) as [calls|] eqn:Hc.
    + destruct (Z.geb_spec (Z.of_nat calls) limit) as [Hge|Hlt].
      * exists true. split; [reflexivity|]. split; [|split; [|split]].
        -- split; auto. intros _. exists limit, calls. repeat split; auto. lia.
        -- discriminate.
        -- discriminate.
        -- intros l c [= <-] [= <-]. split; intros; auto. lia.
      * exists false. split; [reflexivity|]. split; [|split; [|split]]; auto.
        -- split; [discriminate|].
           intros (l & c & [= <-] & [= <-] & Hge). lia.
        -- intros l c [= <-] [= <-]. split; intros; auto. lia.
    + exists false. split; [reflexivity|]. split; [|split; [|split]]; auto.
      * split; [discriminate|]. intros (l & c & _ & Habs & _). discriminate.
      * intros l c _ Habs. discriminate.
  - exists false. split; [reflexivity|]. split; [|split; [|split]]; auto.
    + split; [discriminate|]. intros (l & c & Habs & _). discriminate.
    + intros l c Habs. discriminate.
Qed.

(** Against C1 as it is stated.  Two ceilings are set to 0 over
    [/update_model_call_limit], and a cycle finds one chat of "gpt2-chatbot",
    two hours old, and none of "yi-large".  The cached hourly view holds the
    count 0 for "gpt2-chatbot" and no entry for "yi-large"; the hourly count
    of both is 0, which is at least the ceiling.  The check answers [True]
    for the first and [False] for the second: a model with a ceiling is not
    reported exactly when its count is at least the ceiling. *)
Lemma is_model_limit_reached_skips_absent_model :
  let self := self_of (snd (run abc_clock zero_ceilings startup)) in
  get_model_call_limit self "gpt2-chatbot" = 0%Z /\
  get_model_call_limit self "yi-large" = 0%Z /\
  model_call_stats_hour self = Some [("gpt2-chatbot", 0)] /\
  hourly_count [("gpt2-chatbot", 0)] "gpt2-chatbot" = 0 /\
  hourly_count [("gpt2-chatbot", 0)] "yi-large" = 0 /\
  is_model_limit_reached self "gpt2-chatbot" = Ok true /\
  is_model_limit_reached self "yi-large" = Ok false /\
  ~ (forall (self : Monitor) (model : string) (stats_hour : Dict.t nat)
            (limit : Z),
       model_call_stats_hour self = Some stats_hour ->
       Dict.get (model_call_limit_global self) model = Some limit ->
       is_model_limit_reached self model =
       Ok (Z.of_nat (hourly_count stats_hour model) >=? limit)%Z).
Proof.
  intros self.
  assert (Hview : model_call_stats_hour self = Some [("gpt2-chatbot", 0)])
    by (vm_compute; reflexivity).
  assert (Hlimit : Dict.get (model_call_limit_global self) "yi-large" = Some 0%Z)
    by (vm_compute; reflexivity).
  assert (Hanswer : is_model_limit_reached self "yi-large" = Ok false)
    by (vm_compute; reflexivity).
  split; [vm_compute; reflexivity|]. split; [vm_compute; reflexivity|].
  split; [exact Hview|]. split; [reflexivity|]. split; [reflexivity|].
  split; [vm_compute; reflexivity|]. split; [exact Hanswer|].
  intros H. specialize (H self "yi-large" _ 0%Z Hview Hlimit).
  rewrite Hanswer in H. discriminate H.
Qed.

(** ** Precedence of the model-level check (C2) *)

(** The reply of [/is_limit_reached] depends on the user-level state only
    when the model-level check does not fire. *)
Lemma is_limit_reached_model_first (self : Monitor) (model user_id : string) :
  is_model_limit_reached self model = Ok true ->
  App.is_limit_reached self model user_id =
  Ok {| App.reached := true;
        App.reason := Some ("MODEL_HOURLY_LIMIT (" ++ model ++ "): "
                            ++ str (get_model_call_limit self model))%string |}.
Proof. intros H. unfold App.is_limit_reached. now rewrite H. Qed.

Lemma is_model_limit_reached_ext (self self' : Monitor) (model : string) :
  model_call_limit_global self' = model_call_limit_global self ->
  model_call_stats_hour self' = model_call_stats_hour self ->
  is_model_limit_reached self' model = is_model_limit_reached self model.
Proof. intros H1 H2. unfold is_model_limit_reached. now rewrite H1, H2. Qed.

(** C2. When both the hourly limit of the model and the daily limit of the
    user are reached, [/is_limit_reached] reports the model-level reason,
    [MODEL_HOURLY_LIMIT], and not the user-level one; the user-level check
    is not evaluated: the reply is the same for every user and for every
    state of the user-level data, also one in which the daily view is not
    assigned and the user-level check would raise. *)
Theorem is_limit_reached_precedence :
  forall (self : Monitor) (model user_id : string),
    is_model_limit_reached self model = Ok true ->
    is_user_limit_reached self model user_id = Ok true ->
    exists why : string,
      App.is_limit_reached self model user_id =
        Ok {| App.reached := true; App.reason := Some why |} /\
      why = ("MODEL_HOURLY_LIMIT (" ++ model ++ "): "
             ++ str (get_model_call_limit self model))%string /\
      String.prefix "MODEL_HOURLY_LIMIT" why = true /\
      String.prefix "USER_DAILY_LIMIT" why = false /\
      (forall (self' : Monitor) (user_id' : string),
         model_call_limit_global self' = model_call_limit_global self ->
         model_call_stats_hour self' = model_call_stats_hour self ->
         App.is_limit_reached self' model user_id' =
         Ok {| App.reached := true; App.reason := Some why |}).
Proof.
  intros self model user_id Hmodel _.
  eexists. split; [now apply is_limit_reached_model_first|].
  split; [reflexivity|]. split; [reflexivity|]. split; [reflexivity|].
  intros self' user_id' Hl Hs.
  rewrite is_limit_reached_model_first.
  - unfold get_model_call_limit. now rewrite Hl.
  - now rewrite (is_model_limit_reached_ext self self').
Qed.

(** ** The daily limit of a user (C3) *)

(** C3. Once the daily view is cached, [is_user_limit_reached] answers
    [False] when the model has no per-user daily limit, when the user has no
    entry in the daily view, and when the user's [call_dict] has no entry
    for the model; otherwise it answers [True] exactly when the user's count
    for the model is at least the model's daily limit, whoever the user. *)
Theorem is_user_limit_reached_spec :
  forall (self : Monitor) (model user_id : string) (stats_day : Dict.t user_stat),
    user_call_stats_day self = Some stats_day ->
    (Dict.get (model_call_day_limit_per_user self) model = None ->
     is_user_limit_reached self model user_id = Ok false) /\
    (Dict.get stats_day user_id = None ->
     is_user_limit_reached self model user_id = Ok false) /\
    (forall st, Dict.get stats_day user_id = Some st ->
       Dict.get (call_dict st) model = None ->
       is_user_limit_reached self model user_id = Ok false) /\
    (forall limit st calls,
       Dict.get (model_call_day_limit_per_user self) model = Some limit ->
       Dict.get stats_day user_id = Some st ->
       Dict.get (call_dict st) model = Some calls ->
       exists b : bool,
         is_user_limit_reached self model user_id = Ok b /\
         (b = true <-> (Z.of_nat calls >= limit)%Z)).
Proof.
  intros self model user_id stats_day Hview.
  unfold is_user_limit_reached. rewrite Hview. simpl.
  split; [|split; [|split]].
  - intros ->. reflexivity.
  - intros ->. now destruct (Dict.get _ model).
  - intros st -> ->. now destruct (Dict.get _ model).
  - intros limit st calls -> -> ->.
    destruct (Z.geb_spec (Z.of_nat calls) limit) as [Hge|Hlt].
    + exists true. split; auto. split; auto. lia.
    + exists false. split; auto. split; [discriminate | lia].
Qed.

(** ** Updating a limit (C4) *)

Lemma update_model_call_limit_keys (self : Monitor) (model : string) (limit : Z) :
  Dict.keys (model_call_limit_global (snd (update_model_call_limit self model limit)))
  = Dict.keys (model_call_limit_global self).
Proof.
  unfold update_model_call_limit.
  destruct (Dict.mem (model_call_limit_global self) model) eqn:E; simpl; auto.
  now apply keys_set_present.
Qed.

(** ** The refresh cycle, step by step *)

Lemma for_each_state {S A Acc : Type} (body : Acc -> A -> M S Acc) (l : list A) :
  (forall acc x s, snd (body acc x s) = s) ->
  forall acc s, snd (for_each l body acc s) = s.
Proof.
  intros Hbody. induction l as [|x l IH]; intros acc s; simpl; auto.
  unfold bind. specialize (Hbody acc x s).
  destruct (body acc x s) as [[acc'|e] s']; simpl in *; subst; auto.
Qed.

Lemma ingest_line_state {S : Type} (indices : ModelIndex * UserIndex) (l : line) (s : S) :
  snd (ingest_line indices l s) = s.
Proof.
  destruct indices as [mc uc]. unfold ingest_line, bind, json_loads, getitem, ret, raise.
  destruct l as [| |[[ty|] [m|] [ts|] [ip|]]]; simpl; auto;
    destruct (negb (String.eqb ty "chat")); reflexivity.
Qed.

Lemma ingest_files_state {S : Type} (json_files : list (list line)) (s : S) :
  snd (ingest_files json_files s) = s.
Proof.
  unfold ingest_files. apply for_each_state.
  intros acc file s'. apply for_each_state. intros; apply ingest_line_state.
Qed.

Lemma update_stats_cycle_eq (clock : nat -> float) (json_files : list (list line))
  (self : Monitor) (n : nat) :
  update_stats_cycle clock json_files (self, n) =
  match fst (ingest_files (S:=World) json_files (self, n)) with
  | Raise e => (Raise e, (self, n))
  | Ok indices =>
      let self1 := set_model_call (fst indices) self in
      match get_model_call_stats clock self1 None 60 None n with
      | (Raise e, n1) => (Raise e, (self1, n1))
      | (Ok hour, n1) =>
          let self2 := set_model_call_stats_hour hour self1 in
          match get_model_call_stats clock self2 None (24 * 60) None n1 with
          | (Raise e, n2) => (Raise e, (self2, n2))
          | (Ok day, n2) =>
              let self3 :=
                set_user_call (snd indices) (set_model_call_stats_day day self2) in
              match get_user_call_stats clock self3 None 60 None n2 with
              | (Raise e, n3) => (Raise e, (self3, n3))
              | (Ok uhour, n3) =>
                  let self4 := set_user_call_stats_hour uhour self3 in
                  match get_user_call_stats clock self4 None (24 * 60) None n3 with
                  | (Raise e, n4) => (Raise e, (self4, n4))
                  | (Ok uday, n4) =>
                      (Ok tt, (set_user_call_stats_day uday self4, n4))
                  end
              end
          end
      end
  end.
Proof.
  unfold update_stats_cycle, bind at 1.
  pose proof (ingest_files_state (S:=World) json_files (self, n)) as Hs.
  destruct (ingest_files (S:=World) json_files (self, n)) as [[indices|e] w']; simpl in *;
    subst w'; [|reflexivity].
  unfold bind, setattr, call; simpl.
  repeat match goal with
         | |- context [let (_, _) := ?m in _] =>
             destruct m as [[?|?] ?]; simpl; [|reflexivity]
         end.
  reflexivity.
Qed.

Lemma update_stats_cycle_limits (clock : nat -> float) (json_files : list (list line))
  (w : World) :
  let self' := fst (snd (update_stats_cycle clock json_files w)) in
  model_call_limit_global self' = model_call_limit_global (fst w) /\
  model_call_day_limit_per_user self' = model_call_day_limit_per_user (fst w).
Proof.
  destruct w as [self n]. rewrite update_stats_cycle_eq.
  destruct (fst (ingest_files (S:=World) json_files (self, n))) as [indices|e]; simpl; auto.
  repeat match goal with
         | |- context [match ?m with (_, _) => _ end] =>
             destruct m as [[?|?] ?]; simpl
         end; auto.
Qed.

(** ** The keys of the global limit table (C4) *)

Lemma serve_limit_keys (clock : nat -> float) (r : request) (s : Server) :
  Dict.keys (model_call_limit_global (self_of (snd (serve clock r s)))) =
  Dict.keys (model_call_limit_global (self_of s)).
Proof.
  destruct r; simpl; auto.
  - unfold App.update_model_call_limit.
    pose proof (update_model_call_limit_keys (self_of s) model limit) as H.
    destruct (update_model_call_limit (self_of s) model limit) as [[|] self'];
      simpl in *; auto.
  - now destruct (App.get_user_call_stats _ _ _ _ _ _).
  - now destruct (App.get_model_call_stats _ _ _ _ _ _).
Qed.

Lemma step_limit_keys (clock : nat -> float) (ev : event) (s : Server) :
  Dict.keys (model_call_limit_global (self_of (snd (step clock ev s)))) =
  Dict.keys (model_call_limit_global (self_of s)).
Proof.
  destruct ev as [json_files|r]; simpl.
  - destruct (task_error s); simpl; auto.
    pose proof (update_stats_cycle_limits clock json_files (self_of s, readings s))
      as [H _].
    destruct (update_stats_cycle clock json_files (self_of s, readings s))
      as [[[]|e] [self' n]]; simpl in *; now rewrite H.
  - pose proof (serve_limit_keys clock r s) as H.
    now destruct (serve clock r s).
Qed.

Lemma run_limit_keys (clock : nat -> float) (evs : list event) (s : Server) :
  Dict.keys (model_call_limit_global (self_of (snd (run clock evs s)))) =
  Dict.keys (model_call_limit_global (self_of s)).
Proof.
  revert s. induction evs as [|ev evs IH]; intros s; simpl; auto.
  pose proof (step_limit_keys clock ev s) as H.
  destruct (step clock ev s) as [rep s']. specialize (IH s').
  destruct (run clock evs s') as [reps s'']. simpl in *. congruence.
Qed.

(** C4. [update_model_call_limit] returns [True] and overwrites the limit
    when the model is in the global table, leaving every other entry and the
    set of keys as they were; for a model that is not in the table it
    returns [False], leaves the monitor as it was, and
    [get_model_call_limit] still returns [-1].  Whatever the server runs,
    refresh cycles and requests alike, the keys of the table stay those of
    the static configuration. *)
Theorem update_model_call_limit_closed_world :
  forall (self : Monitor) (model : string) (limit : Z),
    (Dict.mem (model_call_limit_global self) model = true ->
     exists self',
       update_model_call_limit self model limit = (true, self') /\
       get_model_call_limit self' model = limit /\
       (forall other, other <> model ->
          get_model_call_limit self' other = get_model_call_limit self other) /\
       Dict.keys (model_call_limit_global self') =
       Dict.keys (model_call_limit_global self)) /\
    (Dict.mem (model_call_limit_global self) model = false ->
     update_model_call_limit self model limit = (false, self) /\
     get_model_call_limit self model = (-1)%Z) /\
    (forall (clock : nat -> float) (evs : list event),
       Dict.keys (model_call_limit_global (self_of (snd (run clock evs startup)))) =
       Dict.keys static_model_call_limit_global).
Proof.
  intros self model limit. split; [|split].
  - intros Hmem. unfold update_model_call_limit. rewrite Hmem. simpl.
    eexists. split; [reflexivity|]. unfold get_model_call_limit. simpl.
    split; [now rewrite get_set_same|]. split.
    + intros other Hne. rewrite get_set_other; auto.
    + now apply keys_set_present.
  - intros Hmem. unfold update_model_call_limit, get_model_call_limit.
    rewrite Hmem. simpl. split; auto.
    unfold Dict.mem in Hmem.
    now destruct (Dict.get (model_call_limit_global self) model).
  - intros clock evs. now rewrite run_limit_keys.
Qed.

(** ** The stable sort and the top-k cut *)

Section SortingFacts.
Variable A : Type.
Variable key : A -> nat.

Lemma insert_desc_perm (x : A) (l : list A) :
  Permutation (insert_desc key x l) (x :: l).
Proof.
  induction l as [|y l IH]; simpl; auto.
  destruct (key y <=? key x); auto.
  rewrite IH. apply perm_swap.
Qed.

Lemma sorted_desc_perm (l : list A) : Permutation (sorted_desc key l) l.
Proof.
  induction l as [|x l IH]; simpl; auto.
  rewrite insert_desc_perm. now constructor.
Qed.

Lemma sorted_desc_length (l : list A) : length (sorted_desc key l) = length l.
Proof. apply Permutation_length, sorted_desc_perm. Qed.

Lemma insert_desc_sorted (x : A) (l : list A) :
  StronglySorted (desc key) l -> StronglySorted (desc key) (insert_desc key x l).
Proof.
  induction 1 as [|y l Hs IH Hall]; simpl.
  - repeat constructor.
  - destruct (Nat.leb_spec (key y) (key x)) as [Hle|Hlt].
    + constructor; [constructor; auto|].
      constructor; auto.
      eapply Forall_impl; [|exact Hall]. unfold desc. intros; lia.
    + constructor; auto.
      eapply Permutation_Forall; [symmetry; apply insert_desc_perm|].
      constructor; auto. unfold desc. lia.
Qed.

Lemma sorted_desc_sorted (l : list A) : StronglySorted (desc key) (sorted_desc key l).
Proof.
  induction l as [|x l IH]; simpl; [constructor|].
  now apply insert_desc_sorted.
Qed.

(** Stability: the elements of any one key come out in the order they
    went in. *)
Lemma insert_desc_stable (c : nat) (x : A) (l : list A) :
  filter (fun y => key y =? c) (insert_desc key x l) =
  filter (fun y => key y =? c) (x :: l).
Proof.
  induction l as [|y l IH]; simpl; auto.
  destruct (Nat.leb_spec (key y) (key x)) as [Hle|Hlt]; simpl; auto.
  rewrite IH. simpl.
  destruct (Nat.eqb_spec (key y) c), (Nat.eqb_spec (key x) c); auto. lia.
Qed.

Lemma sorted_desc_stable (c : nat) (l : list A) :
  filter (fun y => key y =? c) (sorted_desc key l) =
  filter (fun y => key y =? c) l.
Proof.
  induction l as [|x l IH]; simpl; auto.
  rewrite insert_desc_stable. simpl. now rewrite IH.
Qed.

Lemma sorted_split (l1 l2 : list A) :
  StronglySorted (desc key) (l1 ++ l2) ->
  forall a b, In a l1 -> In b l2 -> key b <= key a.
Proof.
  induction l1 as [|x l1 IH]; simpl; [tauto|].
  intros Hs a b [<-|Ha] Hb.
  - inversion Hs as [|? ? _ Hall]; subst.
    rewrite Forall_forall in Hall. apply Hall, in_or_app. now right.
  - inversion Hs; subst. eauto.
Qed.

Lemma sorted_firstn (n : nat) (l : list A) :
  StronglySorted (desc key) l -> StronglySorted (desc key) (firstn n l).
Proof.
  intros Hs. revert n. induction Hs as [|x l Hs IH Hall]; intros [|n]; simpl;
    try constructor; auto.
  rewrite Forall_forall in *. intros y Hy. apply Hall.
  rewrite <- (firstn_skipn n l). apply in_or_app. now left.
Qed.

Lemma filter_firstn_prefix (f : A -> bool) (n : nat) (l : list A) :
  filter f l = filter f (firstn n l) ++ filter f (skipn n l).
Proof. now rewrite <- filter_app, firstn_skipn. Qed.
End SortingFacts.

Lemma insert_desc_ext {A : Type} (key key' : A -> nat) (x : A) (l : list A) :
  (forall y, In y (x :: l) -> key y = key' y) ->
  insert_desc key x l = insert_desc key' x l.
Proof.
  intros Hk. induction l as [|y l IH]; simpl; auto.
  rewrite (Hk x), (Hk y) by (simpl; auto).
  destruct (key' y <=? key' x); auto.
  f_equal. apply IH. intros z [<-|Hz]; apply Hk; simpl; auto.
Qed.

Lemma sorted_desc_ext {A : Type} (key key' : A -> nat) (l : list A) :
  (forall x, In x l -> key x = key' x) ->
  sorted_desc key l = sorted_desc key' l.
Proof.
  induction l as [|x l IH]; intros Hk; simpl; auto.
  rewrite IH by (intros; apply Hk; now right).
  apply insert_desc_ext. intros y [<-|Hy]; apply Hk; [now left|right].
  eapply Permutation_in; [apply sorted_desc_perm|exact Hy].
Qed.

Lemma insert_desc_map {A B : Type} (f : A -> B) (key : B -> nat) (x : A) (l : list A) :
  insert_desc key (f x) (map f l) = map f (insert_desc (fun a => key (f a)) x l).
Proof.
  induction l as [|y l IH]; simpl; auto.
  destruct (key (f y) <=? key (f x)); simpl; auto. now rewrite IH.
Qed.

Lemma sorted_desc_map {A B : Type} (f : A -> B) (key : B -> nat) (l : list A) :
  sorted_desc key (map f l) = map f (sorted_desc (fun a => key (f a)) l).
Proof.
  induction l as [|x l IH]; simpl; auto.
  now rewrite IH, insert_desc_map.
Qed.

Lemma NoDup_firstn {A : Type} (n : nat) (l : list A) : NoDup l -> NoDup (firstn n l).
Proof.
  intros H. rewrite <- (firstn_skipn n l) in H.
  now apply NoDup_app_remove_r in H.
Qed.

Lemma top_items_is_top_k {V : Type} (score : V -> nat) (d : Dict.t V) (k : nat) :
  Dict.wf d -> is_top_k score k d (top_items score d k).
Proof.
  intros Hwf. unfold top_items.
  set (key := fun item : string * V => score (snd item)).
  pose proof (sorted_desc_perm key d) as Hperm.
  pose proof (sorted_desc_sorted key d) as Hsorted.
  repeat split.
  - rewrite length_firstn, sorted_desc_length. reflexivity.
  - unfold Dict.wf, Dict.keys. rewrite <- firstn_map. apply NoDup_firstn.
    eapply Permutation_NoDup; [|exact Hwf].
    symmetry. now apply Permutation_map.
  - intros item Hin. eapply Permutation_in; [exact Hperm|].
    rewrite <- (firstn_skipn k). apply in_or_app. now left.
  - intros item item' Hin Hall Hout.
    rewrite <- (firstn_skipn k (sorted_desc key d)) in Hsorted.
    eapply (@sorted_split _ key); [exact Hsorted | exact Hin |].
    apply Permutation_in with (l' := sorted_desc key d) in Hall;
      [|now symmetry].
    rewrite <- (firstn_skipn k) in Hall. apply in_app_or in Hall. tauto.
  - now apply sorted_firstn.
  - intros c. exists (filter (fun item => key item =? c) (skipn k (sorted_desc key d))).
    pose proof (filter_firstn_prefix (fun item => key item =? c) k
                  (sorted_desc key d)) as Hp.
    rewrite (sorted_desc_stable key c d) in Hp. exact Hp.
Qed.

Lemma count_of_item (stats : Dict.t nat) (item : string * nat) :
  Dict.wf stats -> In item stats -> count_of stats (fst item) = snd item.
Proof.
  intros Hwf Hin. destruct item as [m c]. unfold count_of. simpl.
  now rewrite (In_get _ _ Hwf Hin).
Qed.

Lemma slice_to_nonneg {A : Type} (l : list A) (k : Z) :
  (0 <= k)%Z -> slice_to l k = firstn (Z.to_nat k) l.
Proof. intros H. unfold slice_to. destruct (Z.ltb_spec k 0); auto. lia. Qed.

(** With a [top_k] that is not negative, the two ranking steps of the code
    keep the first [top_k] items of the stable sort by count. *)
Lemma top_k_models_top_items (stats : Dict.t nat) (k : Z) :
  Dict.wf stats -> (0 <= k)%Z ->
  top_k_models stats k = top_items (fun c => c) stats (Z.to_nat k).
Proof.
  intros Hwf Hk. unfold top_k_models, top_items, Dict.keys.
  rewrite slice_to_nonneg by exact Hk.
  rewrite sorted_desc_map.
  rewrite (sorted_desc_ext (fun a => count_of stats (fst a)) (fun a => snd a))
    by (intros; now apply count_of_item).
  pose proof (top_items_is_top_k (fun c => c) (Z.to_nat k) Hwf)
    as (_ & Hwf' & Hsub & _).
  unfold top_items in *.
  set (kept := firstn (Z.to_nat k) (sorted_desc (fun a => snd a) stats)) in *.
  rewrite firstn_map. fold kept. rewrite map_map.
  rewrite (map_ext_in _ (fun item => item)).
  - rewrite map_id. now apply of_list_wf.
  - intros [m c] Hin. simpl. f_equal.
    apply (count_of_item (m, c) Hwf (Hsub _ Hin)).
Qed.

Lemma total_of_item (stats : Dict.t user_stat) (item : string * user_stat) :
  Dict.wf stats -> In item stats -> total_of stats (fst item) = total_calls (snd item).
Proof.
  intros Hwf Hin. destruct item as [u st]. unfold total_of. simpl.
  now rewrite (In_get _ _ Hwf Hin).
Qed.

Lemma top_k_users_top_items (stats : Dict.t user_stat) (k : Z) :
  Dict.wf stats -> (0 <= k)%Z ->
  top_k_users stats k = top_items total_calls stats (Z.to_nat k).
Proof.
  intros Hwf Hk. unfold top_k_users, top_items, Dict.keys.
  rewrite slice_to_nonneg by exact Hk.
  rewrite sorted_desc_map.
  rewrite (sorted_desc_ext (fun a => total_of stats (fst a))
             (fun a => total_calls (snd a)))
    by (intros; now apply total_of_item).
  pose proof (top_items_is_top_k total_calls (Z.to_nat k) Hwf)
    as (_ & Hwf' & Hsub & _).
  unfold top_items in *.
  set (kept := firstn (Z.to_nat k)
                 (sorted_desc (fun a => total_calls (snd a)) stats)) in *.
  rewrite firstn_map. fold kept.
  assert (Hflat : flat_map
            (fun user_id =>
               match Dict.get stats user_id with
               | Some st => [(user_id, st)]
               | None => []
               end) (map fst kept) = kept).
  { clear Hwf'. induction kept as [|[u st] l IH]; simpl; auto.
    rewrite (In_get _ _ Hwf (Hsub (u, st) (or_introl eq_refl))). simpl.
    f_equal. apply IH. intros; apply Hsub; now right. }
  rewrite Hflat. now apply of_list_wf.
Qed.

(** ** Sums and updates of a dictionary *)

Lemma fold_add (l : list nat) (a : nat) : fold_left Nat.add l a = a + sum l.
Proof.
  unfold sum. revert a. induction l as [|x l IH]; intros a; simpl; [lia|].
  rewrite (IH (a + x)), (IH x). lia.
Qed.

Lemma sum_cons (x : nat) (l : list nat) : sum (x :: l) = x + sum l.
Proof. unfold sum. simpl. apply fold_add. Qed.

Lemma sum_values_set (d : Dict.t nat) (k : string) (v : nat) :
  sum (Dict.values (Dict.set d k v)) + count_of d k = sum (Dict.values d) + v.
Proof.
  unfold count_of. induction d as [|[k' v'] d IH]; simpl.
  - rewrite sum_cons. unfold sum; simpl. lia.
  - destruct (String.eqb k' k); simpl; rewrite !sum_cons; lia.
Qed.

Lemma wf_set {V : Type} (d : Dict.t V) (k : string) (v : V) :
  Dict.wf d -> Dict.wf (Dict.set d k v).
Proof.
  intros Hwf. unfold Dict.wf. destruct (Dict.mem d k) eqn:E.
  - now rewrite keys_set_present.
  - assert (Hnone : Dict.get d k = None).
    { unfold Dict.mem in E. now destruct (Dict.get d k). }
    rewrite set_absent by exact Hnone. unfold Dict.keys. rewrite map_app. simpl.
    eapply Permutation_NoDup; [apply Permutation_cons_append|].
    constructor; [now apply get_None_iff | exact Hwf].
Qed.

Lemma for_each_cons_ok {S A Acc : Type} (body : Acc -> A -> M S Acc) (x : A)
  (l : list A) (acc acc' : Acc) (s s' : S) :
  body acc x s = (Ok acc', s') ->
  for_each (x :: l) body acc s = for_each l body acc' s'.
Proof. intros H. simpl. unfold bind. now rewrite H. Qed.

Lemma for_each_cons_raise {S A Acc : Type} (body : Acc -> A -> M S Acc) (x : A)
  (l : list A) (acc : Acc) (e : exn) (s s' : S) :
  body acc x s = (Raise e, s') ->
  for_each (x :: l) body acc s = (Raise e, s').
Proof. intros H. simpl. unfold bind. now rewrite H. Qed.

Lemma calls_to_snoc (model : string) (reqs : list user_req) (req : user_req) :
  calls_to model (reqs ++ [req]) =
  calls_to model reqs + (if String.eqb (ur_model req) model then 1 else 0).
Proof.
  unfold calls_to. rewrite filter_app, length_app. simpl.
  now destruct (String.eqb (ur_model req) model).
Qed.

(** One more call to a model: the three statements of the loop body that
    update [call_dict]. *)
Lemma call_dict_of_snoc (reqs : list user_req) (calls : Dict.t nat) (req : user_req) :
  call_dict_of reqs calls ->
  let calls1 :=
    if Dict.mem calls (ur_model req) then calls
    else Dict.set calls (ur_model req) 0 in
  call_dict_of (reqs ++ [req])
    (Dict.set calls1 (ur_model req) (count_of calls1 (ur_model req) + 1)).
Proof.
  intros (Hwf & Hget & Hsum). set (m := ur_model req). intros calls1.
  assert (Hwf1 : Dict.wf calls1).
  { unfold calls1. destruct (Dict.mem calls m); auto. now apply wf_set. }
  assert (Hget1 : forall model, model <> m -> Dict.get calls1 model = Dict.get calls model).
  { intros model Hne. unfold calls1. destruct (Dict.mem calls m); auto.
    apply get_set_other. congruence. }
  assert (Hm : count_of calls1 m = calls_to m reqs).
  { unfold calls1, count_of, Dict.mem. specialize (Hget m).
    destruct (Dict.get calls m) as [c|] eqn:E.
    - rewrite E. destruct (0 <? calls_to m reqs); congruence.
    - rewrite get_set_same.
      destruct (Nat.ltb_spec 0 (calls_to m reqs)); [discriminate | lia]. }
  assert (Hsum1 : sum (Dict.values calls1) = length reqs).
  { unfold calls1, Dict.mem. destruct (Dict.get calls m) eqn:E; auto.
    pose proof (sum_values_set calls m 0) as H.
    unfold count_of in H. rewrite E in H. lia. }
  split; [|split].
  - now apply wf_set.
  - intros model. rewrite calls_to_snoc. fold m.
    destruct (String.eqb_spec m model) as [<-|Hne].
    + rewrite get_set_same, Hm.
      destruct (Nat.ltb_spec 0 (calls_to m reqs + 1)); [reflexivity | lia].
    + rewrite get_set_other by exact Hne.
      rewrite Hget1 by congruence. rewrite Nat.add_0_r. apply Hget.
  - pose proof (sum_values_set calls1 m (count_of calls1 m + 1)) as H.
    rewrite length_app. simpl. lia.
Qed.

Lemma call_dict_of_nil : call_dict_of [] Dict.empty.
Proof. repeat split. constructor. Qed.


Lemma set_In {V : Type} (d : Dict.t V) (k : string) (v : V) (item : string * V) :
  In item (Dict.set d k v) -> In item d \/ item = (k, v).
Proof.
  induction d as [|[k' v'] d IH]; simpl.
  - intros [<- | Hf]; [now right | destruct Hf].
  - destruct (String.eqb_spec k' k) as [->|Hne]; simpl.
    + intros [<-|Hin]; auto.
    + intros [<-|Hin]; auto. destruct (IH Hin); auto.
Qed.

Lemma of_list_In {V : Type} (l : list (string * V)) (item : string * V) :
  In item (Dict.of_list l) -> In item l.
Proof.
  unfold Dict.of_list.
  enough (H : forall l d,
             In item (fold_left (fun d kv => Dict.set d (fst kv) (snd kv)) l d) ->
             In item d \/ In item l).
  { intros Hin. destruct (H l Dict.empty Hin) as [Hf|]; auto. destruct Hf. }
  clear l. induction l as [|[k v] l IH]; intros d; simpl; auto.
  intros Hin. destruct (IH _ Hin) as [Hd|Hl]; auto.
  destruct (set_In _ _ _ _ Hd) as [Hd' | ->]; auto.
Qed.

(** Whatever [top_k] is, the ranking returns entries of the statistics. *)
Lemma top_k_users_In (stats : Dict.t user_stat) (k : Z) (item : string * user_stat) :
  In item (top_k_users stats k) -> In item stats.
Proof.
  unfold top_k_users. intros Hin. apply of_list_In in Hin.
  apply in_flat_map in Hin as (user_id & _ & Hin).
  destruct (Dict.get stats user_id) as [st|] eqn:E; simpl in Hin; [|tauto].
  destruct Hin as [<- | Hf]; [now apply get_In | destruct Hf].
Qed.

Lemma top_items_all {V : Type} (score : V -> nat) (d : Dict.t V) (k : nat)
  (key : string) :
  Dict.wf d -> length d <= k ->
  Dict.get (top_items score d k) key = Dict.get d key.
Proof.
  intros Hwf Hk. unfold top_items.
  set (sorted := sorted_desc (fun item => score (snd item)) d).
  assert (Hperm : Permutation sorted d) by apply sorted_desc_perm.
  rewrite firstn_all2 by (rewrite (Permutation_length Hperm); exact Hk).
  assert (Hwf' : Dict.wf sorted).
  { unfold Dict.wf, Dict.keys. eapply Permutation_NoDup; [|exact Hwf].
    symmetry. now apply Permutation_map. }
  destruct (Dict.get d key) as [v|] eqn:E.
  - apply In_get; auto. eapply Permutation_in; [symmetry; exact Hperm|].
    now apply get_In.
  - apply get_None_iff. apply get_None_iff in E. intros Hin. apply E.
    unfold Dict.keys in *. eapply Permutation_in; [|exact Hin].
    now apply Permutation_map.
Qed.

Unset Implicit Arguments.

(** ** Floats: rounding yields a number, and the two comparisons agree *)

Lemma iter_pos_keeps {A : Type} (P : A -> Prop) (f : A -> A) :
  (forall x, P x -> P (f x)) ->
  forall (p : positive) (x : A), P x -> P (iter_pos f p x).
Proof.
  intros Hf. induction p as [p IH|p IH|]; intros x Hx; simpl; auto.
Qed.

Lemma shr_1_nonneg (mrs : shr_record) :
  (0 <= shr_m mrs)%Z -> (0 <= shr_m (shr_1 mrs))%Z.
Proof.
  destruct mrs as [m r s]. simpl.
  destruct m as [|[p|p|]|[p|p|]]; simpl; intros H; try lia.
Qed.

Lemma shr_nonneg (mrs : shr_record) (e n : Z) :
  (0 <= shr_m mrs)%Z -> (0 <= shr_m (fst (shr mrs e n)))%Z.
Proof.
  intros H. unfold shr. destruct n as [|p|p]; simpl; auto.
  now apply (iter_pos_keeps (fun x => (0 <= shr_m x)%Z) shr_1 shr_1_nonneg).
Qed.

Lemma shr_record_of_loc_m (m : Z) (l : location) :
  shr_m (shr_record_of_loc m l) = m.
Proof. destruct l as [|[| |]]; reflexivity. Qed.

Lemma shr_fexp_nonneg (m e : Z) (l : location) :
  (0 <= m)%Z -> (0 <= shr_m (fst (shr_fexp prec emax m e l)))%Z.
Proof.
  intros H. unfold shr_fexp. apply shr_nonneg. now rewrite shr_record_of_loc_m.
Qed.

Lemma round_nearest_even_nonneg (m : Z) (l : location) :
  (0 <= m)%Z -> (0 <= round_nearest_even m l)%Z.
Proof.
  intros H. unfold round_nearest_even.
  destruct l as [|[| |]]; try lia. destruct (Z.even m); lia.
Qed.

Lemma binary_round_aux_not_nan (s : bool) (m e : Z) (l : location) :
  (0 <= m)%Z -> binary_round_aux prec emax s m e l <> S754_nan.
Proof.
  intros H. unfold binary_round_aux.
  pose proof (shr_fexp_nonneg m e l H) as H1.
  destruct (shr_fexp prec emax m e l) as [mrs' e']. simpl in H1.
  pose proof (shr_fexp_nonneg
                (round_nearest_even (shr_m mrs') (loc_of_shr_record mrs')) e'
                loc_Exact (round_nearest_even_nonneg _ _ H1)) as H2.
  destruct (shr_fexp prec emax _ e' loc_Exact) as [mrs'' e'']. simpl in H2.
  destruct (shr_m mrs'') as [|p|p]; try discriminate; [|lia].
  now destruct (e'' <=? emax - prec)%Z.
Qed.

Lemma binary_normalize_not_nan (m e : Z) (szero : bool) :
  binary_normalize prec emax m e szero <> S754_nan.
Proof.
  unfold binary_normalize, binary_round. destruct m as [|p|p]; try discriminate.
  - destruct (shl_align p e _) as [mz ez]. now apply binary_round_aux_not_nan.
  - destruct (shl_align p e _) as [mz ez]. now apply binary_round_aux_not_nan.
Qed.

Lemma float_of_Z_not_nan (z : Z) : float_of_Z z <> S754_nan.
Proof. apply binary_normalize_not_nan. Qed.

(** The float of an [int], when there is one, is the nearest float, and it
    is zero or finite. *)
Lemma float_of_int_Ok (z : Z) (y : float) :
  float_of_int z = Ok y ->
  y = float_of_Z z /\
  match y with S754_zero _ | S754_finite _ _ _ => True | _ => False end.
Proof.
  unfold float_of_int. destruct (float_of_Z z); intros [= <-]; auto.
Qed.

Lemma overflows_false (most_recent_min : Z) :
  overflows most_recent_min = false ->
  float_of_int (most_recent_min * 60) = Ok (float_of_Z (most_recent_min * 60)).
Proof.
  unfold overflows. destruct (float_of_int (most_recent_min * 60)) as [y|e] eqn:E;
    [|discriminate].
  intros _. now destruct (float_of_int_Ok _ _ E) as [-> _].
Qed.

Lemma overflows_true (most_recent_min : Z) :
  overflows most_recent_min = true ->
  float_of_int (most_recent_min * 60) = Raise OverflowError.
Proof.
  unfold overflows, float_of_int.
  now destruct (float_of_Z (most_recent_min * 60)).
Qed.

Lemma SFsub_not_nan (x y : float) :
  x <> S754_nan ->
  match y with S754_zero _ | S754_finite _ _ _ => True | _ => False end ->
  SFsub prec emax x y <> S754_nan.
Proof.
  intros Hx Hy. destruct x as [sx|sx| |sx mx ex]; try congruence;
    destruct y as [sy|sy| |sy my ey]; try tauto; simpl; try discriminate.
  - now destruct sx, sy.
  - apply binary_normalize_not_nan.
Qed.

(** The edge of a window is a number when the clock reads one. *)
Lemma edge_not_nan (now : float) (most_recent_min : Z) :
  now <> S754_nan -> overflows most_recent_min = false ->
  edge now most_recent_min <> S754_nan.
Proof.
  intros Hnow Hfits. unfold edge. apply SFsub_not_nan; auto.
  pose proof (overflows_false _ Hfits) as H.
  now destruct (float_of_int_Ok _ _ H) as [_ Hy].
Qed.

Lemma SFcompare_antisym (x y : float) :
  SFcompare y x = option_map CompOpp (SFcompare x y).
Proof.
  destruct x as [sx|sx| |sx mx ex], y as [sy|sy| |sy my ey]; simpl; auto;
    try (now destruct sx); try (now destruct sy); try (now destruct sx, sy).
  destruct sx, sy; simpl; auto.
  - rewrite (Z.compare_antisym ey ex).
    destruct (ey ?= ex)%Z; simpl; auto.
    rewrite CompOpp_involutive. f_equal.
    exact (Pos.compare_cont_antisym my mx Eq).
  - rewrite (Z.compare_antisym ey ex).
    destruct (ey ?= ex)%Z; simpl; auto.
    f_equal. symmetry. exact (Pos.compare_cont_antisym mx my Eq).
Qed.

Lemma SFltb_SFleb (x y : float) :
  x <> S754_nan -> y <> S754_nan -> SFltb x y = negb (SFleb y x).
Proof.
  intros Hx Hy. unfold SFltb, SFleb. rewrite (SFcompare_antisym x y).
  destruct (SFcompare x y) as [[| |]|] eqn:E; simpl; auto.
  exfalso. destruct x, y; simpl in E; try discriminate; congruence.
Qed.

Lemma int_lt_float_le (z : Z) (x : float) :
  x <> S754_nan -> int_lt_float z x = negb (float_le_int x z).
Proof.
  intros Hx. destruct x as [s|s| |s m e]; simpl; try congruence; auto.
  - apply Z.ltb_antisym.
  - destruct (0 <=? e)%Z; apply Z.ltb_antisym.
Qed.

(** For a number of the data model, [tstamp < edge] is not raised and it is
    the negation of [tstamp >= edge]. *)
Lemma py_lt_at_or_after (tstamp : json) (e : float) :
  numeric tstamp -> e <> S754_nan ->
  py_lt tstamp e = Ok (negb (at_or_after tstamp e)).
Proof.
  intros Hnum He. destruct tstamp as [|b|z|f|s]; simpl in *; try tauto.
  - now rewrite int_lt_float_le.
  - now rewrite int_lt_float_le.
  - now rewrite SFltb_SFleb.
Qed.

(** What the code keeps is what is in the window, for the numbers of the data
    model. *)
Lemma not_too_old_in_window (most_recent_min : Z) (now : float) (tstamp : json) :
  numeric tstamp -> now <> S754_nan -> overflows most_recent_min = false ->
  not_too_old most_recent_min now tstamp = in_window most_recent_min now tstamp.
Proof.
  intros Hnum Hnow Hfits. unfold not_too_old, float_sub_int, in_window.
  rewrite (overflows_false _ Hfits). fold (edge now most_recent_min).
  rewrite py_lt_at_or_after; auto.
  - now rewrite negb_involutive.
  - now apply edge_not_nan.
Qed.

(** ** One comparison *)

Section TooOld.
Variable clock : nat -> float.

Lemma too_old_eq (tstamp : json) (most_recent_min : Z) (n : nat) :
  too_old clock tstamp most_recent_min n =
  (match float_sub_int (clock n) (most_recent_min * 60) with
   | Ok e => py_lt tstamp e
   | Raise x => Raise x
   end, S n).
Proof.
  unfold too_old, bind, time_time, lift.
  now destruct (float_sub_int (clock n) (most_recent_min * 60)).
Qed.

(** A comparison that returns has not found too old what the code keeps. *)
Lemma too_old_ok (tstamp : json) (most_recent_min : Z) (n n' : nat) (old : bool) :
  too_old clock tstamp most_recent_min n = (Ok old, n') ->
  n' = S n /\ old = negb (not_too_old most_recent_min (clock n) tstamp).
Proof.
  rewrite too_old_eq. unfold not_too_old.
  destruct (float_sub_int (clock n) (most_recent_min * 60)) as [e|x];
    [|discriminate].
  destruct (py_lt tstamp e) as [b|x]; [|discriminate].
  intros [= -> <-]. now rewrite negb_involutive.
Qed.

(** The three outcomes of a comparison. *)
Lemma too_old_outcome (tstamp : json) (most_recent_min : Z) (n : nat) :
  if overflows most_recent_min
  then too_old clock tstamp most_recent_min n = (Raise OverflowError, S n)
  else if not_a_number tstamp
       then too_old clock tstamp most_recent_min n = (Raise TypeError, S n)
       else exists old, too_old clock tstamp most_recent_min n = (Ok old, S n).
Proof.
  rewrite too_old_eq. unfold float_sub_int.
  destruct (overflows most_recent_min) eqn:E.
  - now rewrite (overflows_true _ E).
  - rewrite (overflows_false _ E).
    destruct tstamp; simpl; eauto.
Qed.
End TooOld.

(** ** Loops *)

(** A loop raises [e] when it meets an element on which its body does, and
    returns when the body returns on every element. *)
Lemma for_each_bad {S A Acc : Type} (bad : A -> bool) (e : exn)
  (body : Acc -> A -> M S Acc) (l : list A) :
  (forall acc x s, bad x = true -> exists s', body acc x s = (Raise e, s')) ->
  (forall acc x s, bad x = false -> exists acc' s', body acc x s = (Ok acc', s')) ->
  forall acc s,
    if existsb bad l
    then exists s', for_each l body acc s = (Raise e, s')
    else exists acc' s', for_each l body acc s = (Ok acc', s').
Proof.
  intros Hbad Hgood. induction l as [|x l IH]; intros acc s; simpl.
  - now exists acc, s.
  - unfold bind. destruct (bad x) eqn:E; simpl.
    + destruct (Hbad acc x s E) as [s' ->]. now exists s'.
    + destruct (Hgood acc x s E) as (acc' & s' & ->). apply IH.
Qed.

(** What a loop keeps whenever its body returns, the loop keeps when it
    returns. *)
Lemma for_each_invariant {S A Acc : Type} (I : Acc -> Prop)
  (body : Acc -> A -> M S Acc) (l : list A) :
  (forall acc x s acc' s', I acc -> body acc x s = (Ok acc', s') -> I acc') ->
  forall acc s acc' s',
    I acc -> for_each l body acc s = (Ok acc', s') -> I acc'.
Proof.
  intros Hbody. induction l as [|x l IH]; intros acc s acc' s' Hacc; simpl.
  - unfold ret. now intros [= <- _].
  - unfold bind. destruct (body acc x s) as [[acc1|e] s1] eqn:E; [|discriminate].
    apply IH. exact (Hbody acc x s acc1 s1 Hacc E).
Qed.

(** A loop that returns has run its body on the first element and then
    itself on the others. *)
Lemma for_each_cons_inv {S A Acc : Type} (body : Acc -> A -> M S Acc) (x : A)
  (l : list A) (acc r : Acc) (s s' : S) :
  for_each (x :: l) body acc s = (Ok r, s') ->
  exists acc1 s1,
    body acc x s = (Ok acc1, s1) /\ for_each l body acc1 s1 = (Ok r, s').
Proof.
  simpl. unfold bind. destruct (body acc x s) as [[acc1|e] s1]; [|discriminate].
  intros H. now exists acc1, s1.
Qed.

(** ** The readings of the clock *)

Section Readings.
Variable clock : nat -> float.
Context {A : Type}.

Lemma read_along_length (n : nat) (l : list A) :
  length (read_along clock n l) = length l.
Proof. revert n. induction l as [|x l IH]; intros n; simpl; auto. Qed.

Lemma read_along_snd (n : nat) (l : list A) : map snd (read_along clock n l) = l.
Proof. revert n. induction l as [|x l IH]; intros n; simpl; f_equal; auto. Qed.

(** The k-th element meets the k-th reading. *)
Lemma read_along_fst (n : nat) (l : list A) :
  map fst (read_along clock n l) = map clock (seq n (length l)).
Proof. revert n. induction l as [|x l IH]; intros n; simpl; f_equal; auto. Qed.

Lemma read_along_steady (now : float) (n : nat) (l : list A) :
  (forall i, clock i = now) -> read_along clock n l = map (pair now) l.
Proof.
  intros steady. revert n. induction l as [|x l IH]; intros n; simpl; auto.
  now rewrite steady, IH.
Qed.

Lemma examine_keys (n : nat) (index : Dict.t (list A)) :
  Dict.keys (examine clock n index) = Dict.keys index.
Proof.
  revert n. induction index as [|[k reqs] index IH]; intros n; simpl; f_equal; auto.
Qed.

Lemma examine_length (n : nat) (index : Dict.t (list A)) :
  length (examine clock n index) = length index.
Proof.
  revert n. induction index as [|[k reqs] index IH]; intros n; simpl; auto.
Qed.

Lemma examine_wf (n : nat) (index : Dict.t (list A)) :
  Dict.wf index -> Dict.wf (examine clock n index).
Proof. unfold Dict.wf. now rewrite examine_keys. Qed.


Lemma examine_events_snd (n : nat) (index : Dict.t (list A)) :
  map snd (events (examine clock n index)) = events index.
Proof.
  unfold events. revert n.
  induction index as [|[k reqs] index IH]; intros n; simpl; auto.
  now rewrite map_app, read_along_snd, IH.
Qed.

(** The k-th event of the index meets the k-th reading. *)
Lemma examine_readings (n : nat) (index : Dict.t (list A)) :
  map fst (events (examine clock n index)) =
  map clock (seq n (length (events index))).
Proof.
  unfold events. revert n.
  induction index as [|[k reqs] index IH]; intros n; simpl; auto.
  now rewrite !map_app, length_app, seq_app, map_app, read_along_fst, IH.
Qed.

Lemma examine_steady (now : float) (n : nat) (index : Dict.t (list A)) :
  (forall i, clock i = now) ->
  examine clock n index =
  map (fun item => (fst item, map (pair now) (snd item))) index.
Proof.
  intros steady. revert n.
  induction index as [|[k reqs] index IH]; intros n; simpl; auto.
  now rewrite (read_along_steady now), IH.
Qed.
End Readings.

(** ** The counts of the models *)

Lemma other_model_aims (target_model : option string) (model : string) :
  other_model target_model model = negb (aims target_model model).
Proof. now destruct target_model. Qed.

Lemma model_counts_keys (win : float -> json -> bool)
  (timed : Dict.t (list (float * model_req))) :
  Dict.keys (model_counts win timed) = Dict.keys timed.
Proof. unfold model_counts, Dict.keys. now rewrite map_map. Qed.

Lemma model_counts_wf (win : float -> json -> bool)
  (timed : Dict.t (list (float * model_req))) :
  Dict.wf timed -> Dict.wf (model_counts win timed).
Proof. unfold Dict.wf. now rewrite model_counts_keys. Qed.

Lemma model_counts_get (win : float -> json -> bool)
  (timed : Dict.t (list (float * model_req))) (model : string)
  (reqs : list (float * model_req)) :
  Dict.wf timed -> In (model, reqs) timed ->
  Dict.get (model_counts win timed) model =
  Some (length (calls_in_window win reqs)).
Proof.
  intros Hwf Hin. apply In_get; [now apply model_counts_wf|].
  unfold model_counts.
  change (model, length (calls_in_window win reqs))
    with ((fun item : string * list (float * model_req) =>
             (fst item, length (calls_in_window win (snd item)))) (model, reqs)).
  now apply in_map.
Qed.

Lemma model_counts_length (win : float -> json -> bool)
  (timed : Dict.t (list (float * model_req))) :
  length (model_counts win timed) = length timed.
Proof. unfold model_counts. apply length_map. Qed.

(** Two windows that agree on the events of an index give the same
    counts. *)
Lemma model_counts_ext (win win' : float -> json -> bool)
  (timed : Dict.t (list (float * model_req))) :
  (forall p, In p (events timed) ->
     win (fst p) (mr_tstamp (snd p)) = win' (fst p) (mr_tstamp (snd p))) ->
  model_counts win timed = model_counts win' timed.
Proof.
  unfold model_counts, events. induction timed as [|[k reqs] timed IH]; simpl; auto.
  intros Hext. f_equal.
  - f_equal. unfold calls_in_window. f_equal. apply filter_ext_in.
    intros p Hp. apply Hext. apply in_or_app. now left.
  - apply IH. intros p Hp. apply Hext. apply in_or_app. now right.
Qed.


Lemma aimed_numeric (target_model : option string) (index : ModelIndex) :
  numeric_model_index index -> numeric_model_index (aimed target_model index).
Proof.
  unfold numeric_model_index, aimed. rewrite !Forall_forall.
  intros H item Hin. apply filter_In in Hin. now apply H.
Qed.

Lemma numeric_model_events (index : ModelIndex) (req : model_req) :
  numeric_model_index index -> In req (events index) -> numeric (mr_tstamp req).
Proof.
  unfold numeric_model_index, events. rewrite Forall_forall. intros Hnum Hin.
  apply in_concat in Hin as (reqs & Hreqs & Hin).
  apply in_map_iff in Hreqs as (item & <- & Hitem).
  specialize (Hnum item Hitem). rewrite Forall_forall in Hnum. now apply Hnum.
Qed.

Section ModelStats.
Variable clock : nat -> float.

(** The inner loop, when it returns: the time stamps that the code keeps,
    each compared at its own reading. *)
Lemma recent_tstamps_ok (reqs : list model_req) (most_recent_min : Z)
  (n n' : nat) (kept : list json) :
  recent_tstamps clock reqs most_recent_min n = (Ok kept, n') ->
  kept = map (fun p => mr_tstamp (snd p))
           (calls_in_window (not_too_old most_recent_min)
              (read_along clock n reqs)) /\
  n' = n + length reqs.
Proof.
  unfold recent_tstamps.
  match goal with |- context [for_each reqs ?b] => set (body := b) end.
  enough (H : forall acc n kept n',
             for_each reqs body acc n = (Ok kept, n') ->
             kept = acc ++ map (fun p => mr_tstamp (snd p))
                             (calls_in_window (not_too_old most_recent_min)
                                (read_along clock n reqs)) /\
             n' = n + length reqs) by apply (H [] n).
  clear n n' kept. induction reqs as [|req reqs IH]; intros acc n kept n' Hrun.
  - simpl in Hrun. unfold ret in Hrun. injection Hrun as <- <-.
    simpl. now rewrite app_nil_r, Nat.add_0_r.
  - apply for_each_cons_inv in Hrun as (acc1 & n1 & Hbody & Hrest).
    unfold body, bind in Hbody.
    destruct (too_old clock (mr_tstamp req) most_recent_min n)
      as [[old|e] m] eqn:Eold; [|discriminate].
    apply too_old_ok in Eold as [Hm Hold]. subst m old.
    destruct (IH _ _ _ _ Hrest) as [Hkept Hn']. subst kept n'.
    unfold calls_in_window. simpl.
    destruct (not_too_old most_recent_min (clock n) (mr_tstamp req));
      simpl in Hbody; unfold ret in Hbody; injection Hbody as <- <-; simpl.
    + rewrite <- app_assoc. simpl. split; [reflexivity | lia].
    + split; [reflexivity | lia].
Qed.

(** The outer loop, when it returns. *)
Lemma count_model_calls_ok (index : ModelIndex) (target_model : option string)
  (most_recent_min : Z) (n n' : nat) (stats : Dict.t nat) :
  Dict.wf index ->
  count_model_calls clock index target_model most_recent_min n = (Ok stats, n') ->
  stats = model_counts (not_too_old most_recent_min)
            (examine clock n (aimed target_model index)) /\
  n' = n + length (events (aimed target_model index)).
Proof.
  intros Hwf. unfold count_model_calls, Dict.items.
  match goal with |- context [for_each index ?b] => set (body := b) end.
  enough (H : forall acc n stats n',
             NoDup (Dict.keys acc ++ Dict.keys index) ->
             for_each index body acc n = (Ok stats, n') ->
             stats = acc ++ model_counts (not_too_old most_recent_min)
                              (examine clock n (aimed target_model index)) /\
             n' = n + length (events (aimed target_model index)))
    by apply (H [] n stats n' Hwf).
  clear n n' stats Hwf.
  induction index as [|[model reqs] index IH]; intros acc n stats n' Hnd Hrun.
  - simpl in Hrun. unfold ret in Hrun. injection Hrun as <- <-.
    simpl. now rewrite app_nil_r, Nat.add_0_r.
  - apply for_each_cons_inv in Hrun as (acc1 & n1 & Hbody & Hrest).
    unfold body in Hbody. rewrite other_model_aims in Hbody.
    unfold aimed. simpl filter. simpl in Hnd.
    destruct (aims target_model model); simpl in Hbody.
    + unfold bind in Hbody.
      destruct (recent_tstamps clock reqs most_recent_min n)
        as [[kept|e] m] eqn:Ekept; [|discriminate].
      apply recent_tstamps_ok in Ekept as [-> ->].
      unfold ret in Hbody. injection Hbody as <- <-.
      rewrite length_map in Hrest.
      rewrite set_absent in Hrest
        by (apply get_None_iff; intros Hin;
            apply (NoDup_remove_2 _ _ _ Hnd), in_or_app; now left).
      assert (Hnd' : NoDup (Dict.keys (acc ++ [(model,
                 length (calls_in_window (not_too_old most_recent_min)
                           (read_along clock n reqs)))]) ++ Dict.keys index)).
      { unfold Dict.keys. rewrite map_app. simpl.
        rewrite <- app_assoc. exact Hnd. }
      destruct (IH _ _ _ _ Hnd' Hrest) as [Hstats Hn']. subst stats n'.
      fold (aimed target_model index). unfold events. simpl.
      rewrite <- app_assoc, length_app. simpl. split; [reflexivity | lia].
    + unfold ret in Hbody. injection Hbody as <- <-.
      apply IH; auto. now apply NoDup_remove_1 in Hnd.
Qed.

(** The three outcomes of the inner loop. *)
Lemma recent_tstamps_outcome (reqs : list model_req) (most_recent_min : Z)
  (n : nat) :
  if match reqs with [] => false | _ :: _ => true end && overflows most_recent_min
  then exists n',
      recent_tstamps clock reqs most_recent_min n = (Raise OverflowError, n')
  else if existsb (fun req => not_a_number (mr_tstamp req)) reqs
       then exists n',
           recent_tstamps clock reqs most_recent_min n = (Raise TypeError, n')
       else exists kept n',
           recent_tstamps clock reqs most_recent_min n = (Ok kept, n').
Proof.
  unfold recent_tstamps.
  match goal with |- context [for_each reqs ?b] => set (body := b) end.
  destruct (overflows most_recent_min) eqn:Eover.
  - rewrite andb_true_r. destruct reqs as [|req reqs].
    + simpl. now exists [], n.
    + exists (S n). apply for_each_cons_raise. unfold body, bind.
      pose proof (too_old_outcome clock (mr_tstamp req) most_recent_min n) as H.
      rewrite Eover in H. now rewrite H.
  - rewrite andb_false_r.
    apply (for_each_bad (fun req => not_a_number (mr_tstamp req)) TypeError body).
    + intros acc req s Hreq. unfold body, bind.
      pose proof (too_old_outcome clock (mr_tstamp req) most_recent_min s) as H.
      rewrite Eover, Hreq in H. rewrite H. now eexists.
    + intros acc req s Hreq. unfold body, bind.
      pose proof (too_old_outcome clock (mr_tstamp req) most_recent_min s) as H.
      rewrite Eover, Hreq in H. destruct H as [old ->].
      destruct old; eexists; eexists; reflexivity.
Qed.

Lemma reads_model_index_false (target_model : option string) (index : ModelIndex) :
  reads_model_index target_model index = false ->
  bad_model_index target_model index = false.
Proof.
  unfold reads_model_index, bad_model_index.
  induction index as [|[model reqs] index IH]; simpl; auto.
  intros H. apply orb_false_iff in H as [Hitem Hrest].
  rewrite (IH Hrest), orb_false_r.
  destruct (aims target_model model); simpl in *; auto.
  now destruct reqs.
Qed.

(** The three outcomes of the statistic of the models. *)
Lemma get_model_call_stats_outcome (self : Monitor)
  (target_model : option string) (most_recent_min : Z) (top_k : option Z)
  (n : nat) :
  if reads_model_index target_model (model_call self) && overflows most_recent_min
  then exists n',
      get_model_call_stats clock self target_model most_recent_min top_k n =
      (Raise OverflowError, n')
  else if bad_model_index target_model (model_call self)
       then exists n',
           get_model_call_stats clock self target_model most_recent_min top_k n =
           (Raise TypeError, n')
       else exists stats n',
           get_model_call_stats clock self target_model most_recent_min top_k n =
           (Ok stats, n').
Proof.
  unfold get_model_call_stats, count_model_calls, Dict.items.
  match goal with |- context [for_each (model_call self) ?b] => set (body := b) end.
  assert (Hfinish : forall r : result (Dict.t nat) * nat,
             (forall e n', r = (Raise e, n') ->
                bind (fun _ => r)
                  (fun model_call_stats =>
                     match top_k with
                     | Some k => ret (top_k_models model_call_stats k)
                     | None => ret model_call_stats
                     end) n = (Raise e, n')) /\
             (forall stats n', r = (Ok stats, n') ->
                exists stats' n'',
                  bind (fun _ => r)
                    (fun model_call_stats =>
                       match top_k with
                       | Some k => ret (top_k_models model_call_stats k)
                       | None => ret model_call_stats
                       end) n = (Ok stats', n''))).
  { intros r. split.
    - intros e n' ->. reflexivity.
    - intros stats n' ->. unfold bind.
      destruct top_k; eexists; eexists; reflexivity. }
  assert (Hbind : forall k : Dict.t nat -> M nat (Dict.t nat),
             bind (for_each (model_call self) body Dict.empty) k n =
             bind (fun _ => for_each (model_call self) body Dict.empty n) k n)
    by reflexivity.
  rewrite Hbind. clear Hbind.
  destruct (Hfinish (for_each (model_call self) body Dict.empty n))
    as [Hraise Hok].
  destruct (overflows most_recent_min) eqn:Eover.
  - rewrite andb_true_r.
    pose proof
      (for_each_bad
         (fun item : string * list model_req =>
            aims target_model (fst item) &&
            match snd item with [] => false | _ :: _ => true end)
         OverflowError body (model_call self)) as Hloop.
    fold (reads_model_index target_model (model_call self)) in Hloop.
    pose proof (reads_model_index_false target_model (model_call self)) as Hbad.
    destruct (reads_model_index target_model (model_call self)).
    + destruct (Hloop) with (acc := @Dict.empty nat) (s := n) as [n' Hrun].
      * intros acc [model reqs] s Hitem. simpl in Hitem. unfold body.
        rewrite other_model_aims.
        apply andb_true_iff in Hitem as [-> Hreqs]. simpl. unfold bind.
        pose proof (recent_tstamps_outcome reqs most_recent_min s) as H.
        rewrite Eover, Hreqs in H. destruct H as [s' ->]. now exists s'.
      * intros acc [model reqs] s Hitem. simpl in Hitem. unfold body.
        rewrite other_model_aims.
        destruct (aims target_model model); simpl in *.
        -- destruct reqs; [|discriminate]. unfold bind. simpl.
           eexists. eexists. reflexivity.
        -- now exists acc, s.
      * exists n'. now apply Hraise.
    + rewrite (Hbad eq_refl).
      destruct (Hloop) with (acc := @Dict.empty nat) (s := n)
        as (stats & n' & Hrun).
      * intros acc [model reqs] s Hitem. simpl in Hitem. unfold body.
        rewrite other_model_aims.
        apply andb_true_iff in Hitem as [-> Hreqs]. simpl. unfold bind.
        pose proof (recent_tstamps_outcome reqs most_recent_min s) as H.
        rewrite Eover, Hreqs in H. destruct H as [s' ->]. now exists s'.
      * intros acc [model reqs] s Hitem. simpl in Hitem. unfold body.
        rewrite other_model_aims.
        destruct (aims target_model model); simpl in *.
        -- destruct reqs; [|discriminate]. unfold bind. simpl.
           eexists. eexists. reflexivity.
        -- now exists acc, s.
      * now apply (Hok stats n').
  - rewrite andb_false_r.
    pose proof
      (for_each_bad
         (fun item : string * list model_req =>
            aims target_model (fst item) &&
            existsb (fun req => not_a_number (mr_tstamp req)) (snd item))
         TypeError body (model_call self)) as Hloop.
    fold (bad_model_index target_model (model_call self)) in Hloop.
    assert (Hb : forall acc (item : string * list model_req) s,
               aims target_model (fst item) &&
               existsb (fun req => not_a_number (mr_tstamp req)) (snd item) = true ->
               exists s', body acc item s = (Raise TypeError, s')).
    { intros acc [model reqs] s Hitem. simpl in Hitem. unfold body.
      rewrite other_model_aims.
      apply andb_true_iff in Hitem as [-> Hreqs]. simpl. unfold bind.
      pose proof (recent_tstamps_outcome reqs most_recent_min s) as H.
      rewrite Eover, andb_false_r, Hreqs in H. destruct H as [s' ->].
      now exists s'. }
    assert (Hg : forall acc (item : string * list model_req) s,
               aims target_model (fst item) &&
               existsb (fun req => not_a_number (mr_tstamp req)) (snd item) = false ->
               exists acc' s', body acc item s = (Ok acc', s')).
    { intros acc [model reqs] s Hitem. simpl in Hitem. unfold body.
      rewrite other_model_aims.
      destruct (aims target_model model); simpl in *.
      - unfold bind.
        pose proof (recent_tstamps_outcome reqs most_recent_min s) as H.
        rewrite Eover, andb_false_r, Hitem in H. destruct H as (kept & s' & ->).
        eexists. eexists. reflexivity.
      - now exists acc, s. }
    specialize (Hloop Hb Hg Dict.empty n).
    destruct (bad_model_index target_model (model_call self)).
    + destruct Hloop as [n' Hrun]. exists n'. now apply Hraise.
    + destruct Hloop as (stats & n' & Hrun). now apply (Hok stats n').
Qed.

Lemma numeric_not_bad_model (target_model : option string) (index : ModelIndex) :
  numeric_model_index index -> bad_model_index target_model index = false.
Proof.
  unfold numeric_model_index, bad_model_index.
  induction 1 as [|[model reqs] index Hreqs _ IH]; simpl; auto.
  rewrite IH, orb_false_r. simpl in Hreqs.
  destruct (aims target_model model); simpl; auto.
  induction Hreqs as [|req reqs Hreq _ IHr]; simpl; auto.
  rewrite IHr, orb_false_r. now destruct (mr_tstamp req).
Qed.

(** The statistic of the models on the data model: it returns, and it
    counts for every model that passes the target filter the events that are
    in the window at their own reading of the clock. *)
Lemma get_model_call_stats_run (self : Monitor) (target_model : option string)
  (most_recent_min : Z) (top_k : option Z) (n : nat) :
  (forall i, clock i <> S754_nan) ->
  overflows most_recent_min = false ->
  Dict.wf (model_call self) ->
  numeric_model_index (model_call self) ->
  let counts :=
    model_counts (in_window most_recent_min)
      (examine clock n (aimed target_model (model_call self))) in
  get_model_call_stats clock self target_model most_recent_min top_k n =
  (Ok (match top_k with
       | Some k => top_k_models counts k
       | None => counts
       end),
   n + length (events (aimed target_model (model_call self)))).
Proof.
  intros Hclock Hfits Hwf Hnum counts.
  pose proof (get_model_call_stats_outcome self target_model most_recent_min
                top_k n) as Hout.
  rewrite Hfits, andb_false_r, (numeric_not_bad_model _ _ Hnum) in Hout.
  destruct Hout as (stats & n' & Hrun). rewrite Hrun.
  unfold get_model_call_stats, bind in Hrun.
  destruct (count_model_calls clock (model_call self) target_model
              most_recent_min n) as [[raw|e] m] eqn:Eraw; [|discriminate].
  apply (count_model_calls_ok _ _ _ _ _ _ Hwf) in Eraw as [-> ->].
  assert (Hsame : model_counts (not_too_old most_recent_min)
                    (examine clock n (aimed target_model (model_call self))) =
                  counts).
  { apply model_counts_ext. intros p Hp.
    assert (Hi : exists i, fst p = clock i).
    { apply (in_map fst) in Hp. rewrite examine_readings in Hp.
      apply in_map_iff in Hp as (i & <- & _). now exists i. }
    destruct Hi as [i Hi].
    apply not_too_old_in_window; auto.
    - apply (numeric_model_events (aimed target_model (model_call self)));
        [now apply aimed_numeric|].
      rewrite <- (examine_events_snd clock n). now apply in_map.
    - rewrite Hi. apply Hclock. }
  rewrite Hsame in Hrun. destruct top_k; unfold ret in Hrun; now symmetry.
Qed.
(** The statistic of the models, when it returns. *)
Lemma get_model_call_stats_ok (self : Monitor) (target_model : option string)
  (most_recent_min : Z) (top_k : option Z) (n n' : nat) (res : Dict.t nat) :
  Dict.wf (model_call self) ->
  get_model_call_stats clock self target_model most_recent_min top_k n =
    (Ok res, n') ->
  let counts :=
    model_counts (not_too_old most_recent_min)
      (examine clock n (aimed target_model (model_call self))) in
  res = match top_k with
        | Some k => top_k_models counts k
        | None => counts
        end /\
  n' = n + length (events (aimed target_model (model_call self))).
Proof.
  intros Hwf. unfold get_model_call_stats, bind.
  destruct (count_model_calls clock (model_call self) target_model
              most_recent_min n) as [[raw|e] m] eqn:E; [|discriminate].
  apply (count_model_calls_ok _ _ _ _ _ _ Hwf) in E as [-> ->].
  intros Hrun. destruct top_k; unfold ret in Hrun; injection Hrun as <- <-; auto.
Qed.
End ModelStats.

(** ** The statistics of the users *)

Lemma user_stats_of_keys (win : float -> json -> bool)
  (target_model : option string) (timed : Dict.t (list (float * user_req)))
  (stats : Dict.t user_stat) :
  user_stats_of win target_model timed stats ->
  Dict.keys stats = Dict.keys (filter (active win target_model) timed).
Proof.
  unfold user_stats_of, Dict.keys.
  induction 1 as [|item entry l l' [Hk _] _ IH]; simpl; congruence.
Qed.


(** Every entry of the statistics is an active user of the index. *)
Lemma user_stats_of_In (win : float -> json -> bool)
  (target_model : option string) (timed : Dict.t (list (float * user_req)))
  (stats : Dict.t user_stat) (user_id : string) (st : user_stat) :
  user_stats_of win target_model timed stats ->
  In (user_id, st) stats ->
  exists reqs,
    In (user_id, reqs) timed /\
    user_stat_of (user_calls_in_window win target_model reqs) st /\
    0 < total_calls st.
Proof.
  unfold user_stats_of.
  remember (filter (active win target_model) timed) as l eqn:El.
  assert (Hl : forall item, In item l ->
                 In item timed /\ active win target_model item = true).
  { intros item Hin. subst l. now apply filter_In in Hin. }
  clear El. induction 1 as [|[u reqs] [u' st'] l l' [Hk Hst] _ IH]; simpl.
  - tauto.
  - simpl in Hk, Hst. subst u'. intros [[= -> ->]|Hin].
    + destruct (Hl (user_id, reqs) (or_introl eq_refl)) as [Hin Hact].
      exists reqs. repeat split; try apply Hst; auto.
      destruct Hst as [_ ->]. unfold active in Hact. simpl in Hact.
      now apply Nat.ltb_lt.
    + apply IH; auto. intros; apply Hl; now right.
Qed.

(** Two windows that agree on the events of an index give the same
    statistics. *)
Lemma user_stats_of_ext (win win' : float -> json -> bool)
  (target_model : option string) (timed : Dict.t (list (float * user_req)))
  (stats : Dict.t user_stat) :
  (forall p, In p (events timed) ->
     win (fst p) (ur_tstamp (snd p)) = win' (fst p) (ur_tstamp (snd p))) ->
  user_stats_of win target_model timed stats ->
  user_stats_of win' target_model timed stats.
Proof.
  unfold user_stats_of, events. revert stats.
  induction timed as [|[k reqs] timed IH]; intros stats Hext; simpl.
  { intros H. inversion H. constructor. }
  assert (Hreqs : user_calls_in_window win target_model reqs =
                  user_calls_in_window win' target_model reqs).
  { unfold user_calls_in_window. f_equal. apply filter_ext_in.
    intros p Hp. rewrite Hext; auto. simpl. apply in_or_app. now left. }
  assert (Hrest : forall p, In p (concat (map snd timed)) ->
            win (fst p) (ur_tstamp (snd p)) = win' (fst p) (ur_tstamp (snd p))).
  { intros p Hp. apply Hext. simpl. apply in_or_app. now right. }
  assert (Hact : active win' target_model (k, reqs) =
                 active win target_model (k, reqs))
    by (unfold active; simpl; now rewrite Hreqs).
  rewrite Hact. destruct (active win target_model (k, reqs)).
  - intros H. inversion H as [|item entry l l' Hhead Htail]; subst.
    constructor; [|now apply IH]. simpl in *. now rewrite <- Hreqs.
  - now apply IH.
Qed.

(** No result, ranked or not, holds a user without an event in the window. *)
Lemma user_stats_no_zero (win : float -> json -> bool)
  (target_model : option string) (timed : Dict.t (list (float * user_req)))
  (stats : Dict.t user_stat) (top_k : option Z) :
  Dict.wf timed ->
  user_stats_of win target_model timed stats ->
  let res := match top_k with
             | Some k => top_k_users stats k
             | None => stats
             end in
  (forall user_id st, In (user_id, st) res ->
     In (user_id, st) stats /\ 0 < total_calls st) /\
  (forall user_id reqs,
     In (user_id, reqs) timed ->
     user_calls_in_window win target_model reqs = [] ->
     Dict.get res user_id = None).
Proof.
  intros Hwf Hstats res.
  assert (Hsub : forall user_id st, In (user_id, st) res -> In (user_id, st) stats).
  { unfold res. destruct top_k as [k|]; auto.
    intros user_id st Hin. now apply top_k_users_In in Hin. }
  split.
  - intros user_id st Hin. apply Hsub in Hin. split; auto.
    now destruct (user_stats_of_In _ _ _ _ _ _ Hstats Hin) as (reqs & _ & _ & Hpos).
  - intros user_id reqs Hin Hnone.
    destruct (Dict.get res user_id) as [st|] eqn:E; auto.
    exfalso. apply get_In, Hsub in E.
    destruct (user_stats_of_In _ _ _ _ _ _ Hstats E)
      as (reqs' & Hin' & [_ Htot] & Hpos).
    assert (reqs' = reqs).
    { pose proof (@In_get _ _ _ _ Hwf Hin) as H1.
      pose proof (@In_get _ _ _ _ Hwf Hin') as H2. congruence. }
    subst reqs'. rewrite Hnone in Htot. simpl in Htot. lia.
Qed.

Lemma numeric_user_events (index : UserIndex) (req : user_req) :
  numeric_user_index index -> In req (events index) -> numeric (ur_tstamp req).
Proof.
  unfold numeric_user_index, events. rewrite Forall_forall. intros Hnum Hin.
  apply in_concat in Hin as (reqs & Hreqs & Hin).
  apply in_map_iff in Hreqs as (item & <- & Hitem).
  specialize (Hnum item Hitem). rewrite Forall_forall in Hnum. now apply Hnum.
Qed.

Lemma numeric_not_bad_user (index : UserIndex) :
  numeric_user_index index -> bad_user_index index = false.
Proof.
  unfold numeric_user_index, bad_user_index.
  induction 1 as [|[user_id reqs] index Hreqs _ IH]; simpl; auto.
  rewrite IH, orb_false_r. simpl in Hreqs.
  induction Hreqs as [|req reqs Hreq _ IHr]; simpl; auto.
  rewrite IHr, orb_false_r. now destruct (ur_tstamp req).
Qed.

Section UserStats.
Variable clock : nat -> float.

(** The inner loop, when it returns: the per-model counts of the events that
    the code keeps, each compared at its own reading. *)
Lemma count_user_calls_ok (reqs : list user_req) (target_model : option string)
  (most_recent_min : Z) (n n' : nat) (calls : Dict.t nat) :
  count_user_calls clock reqs target_model most_recent_min n = (Ok calls, n') ->
  call_dict_of
    (user_calls_in_window (not_too_old most_recent_min) target_model
       (read_along clock n reqs)) calls /\
  n' = n + length reqs.
Proof.
  unfold count_user_calls.
  match goal with |- context [for_each reqs ?b] => set (body := b) end.
  enough (H : forall seen acc n calls n',
             call_dict_of seen acc ->
             for_each reqs body acc n = (Ok calls, n') ->
             call_dict_of
               (seen ++ user_calls_in_window (not_too_old most_recent_min)
                          target_model (read_along clock n reqs)) calls /\
             n' = n + length reqs)
    by apply (H [] Dict.empty n calls n' call_dict_of_nil).
  clear n n' calls.
  induction reqs as [|req reqs IH]; intros seen acc n calls n' Hacc Hrun.
  - simpl in Hrun. unfold ret in Hrun. injection Hrun as <- <-.
    simpl. unfold user_calls_in_window. simpl.
    now rewrite app_nil_r, Nat.add_0_r.
  - apply for_each_cons_inv in Hrun as (acc1 & n1 & Hbody & Hrest).
    unfold body, bind in Hbody.
    destruct (too_old clock (ur_tstamp req) most_recent_min n)
      as [[old|e] m] eqn:Eold; [|discriminate].
    apply too_old_ok in Eold as [Hm Hold]. subst m old.
    rewrite other_model_aims in Hbody.
    unfold user_calls_in_window. simpl filter.
    fold (user_calls_in_window (not_too_old most_recent_min) target_model
            (read_along clock (S n) reqs)).
    destruct (not_too_old most_recent_min (clock n) (ur_tstamp req));
      simpl in Hbody.
    + destruct (aims target_model (ur_model req)); simpl in Hbody;
        unfold ret in Hbody; injection Hbody as <- <-.
      * destruct (IH (seen ++ [req]) _ _ _ _ (call_dict_of_snoc req Hacc) Hrest)
          as [Hcalls ->].
        simpl. rewrite <- app_assoc in Hcalls. split; [exact Hcalls | lia].
      * destruct (IH seen _ _ _ _ Hacc Hrest) as [Hcalls ->].
        simpl. split; [exact Hcalls | lia].
    + unfold ret in Hbody. injection Hbody as <- <-.
      destruct (IH seen _ _ _ _ Hacc Hrest) as [Hcalls ->].
      simpl. split; [exact Hcalls | lia].
Qed.

(** The outer loop, when it returns. *)
Lemma collect_user_stats_ok (index : UserIndex) (target_model : option string)
  (most_recent_min : Z) (n n' : nat) (stats : Dict.t user_stat) :
  Dict.wf index ->
  collect_user_stats clock index target_model most_recent_min n =
    (Ok stats, n') ->
  user_stats_of (not_too_old most_recent_min) target_model
    (examine clock n index) stats /\
  n' = n + length (events index).
Proof.
  intros Hwf. unfold collect_user_stats, Dict.items.
  match goal with |- context [for_each index ?b] => set (body := b) end.
  enough (H : forall acc n stats n',
             NoDup (Dict.keys acc ++ Dict.keys index) ->
             for_each index body acc n = (Ok stats, n') ->
             exists rest,
               stats = acc ++ rest /\
               user_stats_of (not_too_old most_recent_min) target_model
                 (examine clock n index) rest /\
               n' = n + length (events index)).
  { intros Hrun. destruct (H [] n stats n' Hwf Hrun) as (rest & -> & Hrest & Hn').
    now split. }
  clear n n' stats Hwf. unfold user_stats_of.
  induction index as [|[user_id reqs] index IH]; intros acc n stats n' Hnd Hrun.
  - simpl in Hrun. unfold ret in Hrun. injection Hrun as <- <-.
    exists []. simpl. rewrite app_nil_r, Nat.add_0_r. repeat split; auto.
  - apply for_each_cons_inv in Hrun as (acc1 & n1 & Hbody & Hrest).
    unfold body, bind in Hbody.
    destruct (count_user_calls clock reqs target_model most_recent_min n)
      as [[calls|e] m] eqn:Ecalls; [|discriminate].
    apply count_user_calls_ok in Ecalls as [Hcalls ->].
    simpl filter. simpl in Hnd.
    pose proof (NoDup_remove_2 _ _ _ Hnd) as Hout.
    assert (Hst : user_stat_of
                    (user_calls_in_window (not_too_old most_recent_min)
                       target_model (read_along clock n reqs))
                    {| call_dict := calls; total_calls := sum (Dict.values calls) |}).
    { destruct Hcalls as (Hwfc & Hget & Hsum). repeat split; auto. }
    unfold active at 1. simpl snd.
    destruct Hcalls as (_ & _ & Hsum). cbn [total_calls] in Hbody.
    rewrite <- Hsum. unfold events. simpl. rewrite length_app.
    fold (events index).
    destruct (0 <? sum (Dict.values calls));
      unfold ret in Hbody; injection Hbody as <- <-.
    + rewrite set_absent in Hrest
        by (apply get_None_iff; intros Hin; apply Hout, in_or_app; now left).
      assert (Hnd' : NoDup (Dict.keys (acc ++ [(user_id,
                 {| call_dict := calls;
                    total_calls := sum (Dict.values calls) |})]) ++
                            Dict.keys index)).
      { unfold Dict.keys. rewrite map_app. simpl.
        rewrite <- app_assoc. exact Hnd. }
      destruct (IH _ _ _ _ Hnd' Hrest) as (rest & -> & Hrest' & ->).
      eexists. split; [now rewrite <- app_assoc|]. split; [|lia].
      constructor; auto.
    + destruct (IH _ _ _ _ (NoDup_remove_1 _ _ _ Hnd) Hrest)
        as (rest & -> & Hrest' & ->).
      exists rest. repeat split; auto. lia.
Qed.

(** The three outcomes of the inner loop. *)
Lemma count_user_calls_outcome (reqs : list user_req)
  (target_model : option string) (most_recent_min : Z) (n : nat) :
  if match reqs with [] => false | _ :: _ => true end && overflows most_recent_min
  then exists n',
      count_user_calls clock reqs target_model most_recent_min n =
      (Raise OverflowError, n')
  else if existsb (fun req => not_a_number (ur_tstamp req)) reqs
       then exists n',
           count_user_calls clock reqs target_model most_recent_min n =
           (Raise TypeError, n')
       else exists calls n',
           count_user_calls clock reqs target_model most_recent_min n =
           (Ok calls, n').
Proof.
  unfold count_user_calls.
  match goal with |- context [for_each reqs ?b] => set (body := b) end.
  destruct (overflows most_recent_min) eqn:Eover.
  - rewrite andb_true_r. destruct reqs as [|req reqs].
    + simpl. now exists Dict.empty, n.
    + exists (S n). apply for_each_cons_raise. unfold body, bind.
      pose proof (too_old_outcome clock (ur_tstamp req) most_recent_min n) as H.
      rewrite Eover in H. now rewrite H.
  - rewrite andb_false_r.
    apply (for_each_bad (fun req => not_a_number (ur_tstamp req)) TypeError body).
    + intros acc req s Hreq. unfold body, bind.
      pose proof (too_old_outcome clock (ur_tstamp req) most_recent_min s) as H.
      rewrite Eover, Hreq in H. rewrite H. now eexists.
    + intros acc req s Hreq. unfold body, bind.
      pose proof (too_old_outcome clock (ur_tstamp req) most_recent_min s) as H.
      rewrite Eover, Hreq in H. destruct H as [old ->].
      destruct old; [|destruct (other_model target_model (ur_model req))];
        eexists; eexists; reflexivity.
Qed.

Lemma reads_user_index_false (index : UserIndex) :
  reads_user_index index = false -> bad_user_index index = false.
Proof.
  unfold reads_user_index, bad_user_index.
  induction index as [|[user_id reqs] index IH]; simpl; auto.
  intros H. apply orb_false_iff in H as [Hitem Hrest].
  rewrite (IH Hrest), orb_false_r. now destruct reqs.
Qed.

(** The three outcomes of the first loop of the statistic of the users. *)
Lemma collect_user_stats_outcome (index : UserIndex)
  (target_model : option string) (most_recent_min : Z) (n : nat) :
  if reads_user_index index && overflows most_recent_min
  then exists n',
      collect_user_stats clock index target_model most_recent_min n =
      (Raise OverflowError, n')
  else if bad_user_index index
       then exists n',
           collect_user_stats clock index target_model most_recent_min n =
           (Raise TypeError, n')
       else exists stats n',
           collect_user_stats clock index target_model most_recent_min n =
           (Ok stats, n').
Proof.
  unfold collect_user_stats, Dict.items.
  match goal with |- context [for_each index ?b] => set (body := b) end.
  assert (Hok : forall acc user_id reqs s calls s',
             count_user_calls clock reqs target_model most_recent_min s =
               (Ok calls, s') ->
             exists acc', body acc (user_id, reqs) s = (Ok acc', s')).
  { intros acc user_id reqs s calls s' Hrun. unfold body, bind. rewrite Hrun.
    simpl. destruct (0 <? sum (Dict.values calls)); eexists; reflexivity. }
  assert (Hraise : forall acc user_id reqs s e s',
             count_user_calls clock reqs target_model most_recent_min s =
               (Raise e, s') ->
             body acc (user_id, reqs) s = (Raise e, s')).
  { intros acc user_id reqs s e s' Hrun. unfold body, bind. now rewrite Hrun. }
  clearbody body.
  destruct (overflows most_recent_min) eqn:Eover.
  - rewrite andb_true_r.
    pose proof
      (for_each_bad
         (fun item : string * list user_req =>
            match snd item with [] => false | _ :: _ => true end)
         OverflowError body index) as Hloop.
    fold (reads_user_index index) in Hloop.
    assert (Hb : forall acc (item : string * list user_req) s,
               match snd item with [] => false | _ :: _ => true end = true ->
               exists s', body acc item s = (Raise OverflowError, s')).
    { intros acc [user_id reqs] s Hitem. simpl in Hitem.
      pose proof (count_user_calls_outcome reqs target_model most_recent_min s)
        as H.
      rewrite Eover, Hitem in H. destruct H as [s' H]. exists s'.
      now apply Hraise. }
    assert (Hg : forall acc (item : string * list user_req) s,
               match snd item with [] => false | _ :: _ => true end = false ->
               exists acc' s', body acc item s = (Ok acc', s')).
    { intros acc [user_id reqs] s Hitem. simpl in Hitem.
      pose proof (count_user_calls_outcome reqs target_model most_recent_min s)
        as H.
      destruct reqs; [|discriminate]. simpl in H. destruct H as (calls & s' & H).
      destruct (Hok acc user_id _ _ _ _ H) as [acc' Hacc]. now exists acc', s'. }
    specialize (Hloop Hb Hg Dict.empty n).
    pose proof (reads_user_index_false index) as Hbad.
    destruct (reads_user_index index); [exact Hloop|].
    now rewrite (Hbad eq_refl).
  - rewrite andb_false_r.
    apply (for_each_bad
             (fun item : string * list user_req =>
                existsb (fun req => not_a_number (ur_tstamp req)) (snd item))
             TypeError body index).
    + intros acc [user_id reqs] s Hitem. simpl in Hitem.
      pose proof (count_user_calls_outcome reqs target_model most_recent_min s)
        as H.
      rewrite Eover, andb_false_r, Hitem in H. destruct H as [s' H]. exists s'.
      now apply Hraise.
    + intros acc [user_id reqs] s Hitem. simpl in Hitem.
      pose proof (count_user_calls_outcome reqs target_model most_recent_min s)
        as H.
      rewrite Eover, andb_false_r, Hitem in H. destruct H as (calls & s' & H).
      destruct (Hok acc user_id _ _ _ _ H) as [acc' Hacc]. now exists acc', s'.
Qed.

(** The three outcomes of the statistic of the users. *)
Lemma get_user_call_stats_outcome (self : Monitor)
  (target_model : option string) (most_recent_min : Z) (top_k : option Z)
  (n : nat) :
  if reads_user_index (user_call self) && overflows most_recent_min
  then exists n',
      get_user_call_stats clock self target_model most_recent_min top_k n =
      (Raise OverflowError, n')
  else if bad_user_index (user_call self)
       then exists n',
           get_user_call_stats clock self target_model most_recent_min top_k n =
           (Raise TypeError, n')
       else exists stats n',
           get_user_call_stats clock self target_model most_recent_min top_k n =
           (Ok stats, n').
Proof.
  pose proof (collect_user_stats_outcome (user_call self) target_model
                most_recent_min n) as H.
  unfold get_user_call_stats, bind.
  destruct (reads_user_index (user_call self) && overflows most_recent_min).
  - destruct H as [n' ->]. now exists n'.
  - destruct (bad_user_index (user_call self)).
    + destruct H as [n' ->]. now exists n'.
    + destruct H as (stats & n' & ->).
      destruct top_k; eexists; eexists; reflexivity.
Qed.

(** The statistic of the users, when it returns. *)
Lemma get_user_call_stats_ok (self : Monitor) (target_model : option string)
  (most_recent_min : Z) (top_k : option Z) (n n' : nat)
  (res : Dict.t user_stat) :
  Dict.wf (user_call self) ->
  get_user_call_stats clock self target_model most_recent_min top_k n =
    (Ok res, n') ->
  exists stats,
    user_stats_of (not_too_old most_recent_min) target_model
      (examine clock n (user_call self)) stats /\
    res = match top_k with
          | Some k => top_k_users stats k
          | None => stats
          end /\
    n' = n + length (events (user_call self)).
Proof.
  intros Hwf. unfold get_user_call_stats, bind.
  destruct (collect_user_stats clock (user_call self) target_model
              most_recent_min n) as [[stats|e] m] eqn:E; [|discriminate].
  apply (collect_user_stats_ok _ _ _ _ _ _ Hwf) in E as [Hstats ->].
  intros Hrun. exists stats. split; auto.
  destruct top_k; unfold ret in Hrun; injection Hrun as <- <-; auto.
Qed.

(** The statistic of the users on the data model: it returns, and it holds
    for every user the events that are in the window at their own reading of
    the clock. *)
Lemma get_user_call_stats_run (self : Monitor) (target_model : option string)
  (most_recent_min : Z) (n : nat) :
  (forall i, clock i <> S754_nan) ->
  overflows most_recent_min = false ->
  Dict.wf (user_call self) ->
  numeric_user_index (user_call self) ->
  exists stats,
    user_stats_of (in_window most_recent_min) target_model
      (examine clock n (user_call self)) stats /\
    forall top_k,
      get_user_call_stats clock self target_model most_recent_min top_k n =
      (Ok (match top_k with
           | Some k => top_k_users stats k
           | None => stats
           end),
       n + length (events (user_call self))).
Proof.
  intros Hclock Hfits Hwf Hnum.
  pose proof (get_user_call_stats_outcome self target_model most_recent_min
                None n) as Hout.
  rewrite Hfits, andb_false_r, (numeric_not_bad_user _ Hnum) in Hout.
  destruct Hout as (stats & n' & Hrun).
  destruct (get_user_call_stats_ok _ _ _ _ _ _ _ Hwf Hrun)
    as (stats' & Hstats & -> & ->).
  exists stats'. split.
  - apply (user_stats_of_ext (not_too_old most_recent_min)); auto.
    intros p Hp.
    assert (Hi : exists i, fst p = clock i).
    { apply (in_map fst) in Hp. rewrite examine_readings in Hp.
      apply in_map_iff in Hp as (i & <- & _). now exists i. }
    destruct Hi as [i Hi].
    apply not_too_old_in_window; auto.
    + apply (numeric_user_events (user_call self)); auto.
      rewrite <- (examine_events_snd clock n). now apply in_map.
    + rewrite Hi. apply Hclock.
  - intros top_k. unfold get_user_call_stats, bind in *.
    destruct (collect_user_stats clock (user_call self) target_model
                most_recent_min n) as [[raw|e] m]; [|discriminate].
    unfold ret in Hrun. injection Hrun as -> ->. now destruct top_k.
Qed.
End UserStats.

(** ** Model statistics over a window (C5) *)

Lemma aimed_None (index : ModelIndex) : aimed None index = index.
Proof.
  unfold aimed. induction index as [|item index IH]; simpl; auto.
  now f_equal.
Qed.

Lemma abc_clock_reads (i : nat) : abc_clock i <> S754_nan.
Proof. unfold abc_clock. apply float_of_Z_not_nan. Qed.

Lemma ticking_clock_reads (i : nat) : ticking_clock i <> S754_nan.
Proof. discriminate. Qed.

Lemma ago_numeric (secs : Z) : numeric (ago secs).
Proof. apply float_of_Z_not_nan. Qed.




(** ** User statistics over a window (C6) *)

Lemma abc_user_call_wf : Dict.wf abc_user_call.
Proof.
  unfold Dict.wf. simpl. repeat constructor; simpl; intuition discriminate.
Qed.

Lemma abc_user_call_numeric : numeric_user_index abc_user_call.
Proof. repeat constructor; apply ago_numeric. Qed.





(** ** Zero counts in the two statistics (C10) *)

Lemma two_models_wf : Dict.wf two_models.
Proof.
  unfold Dict.wf. simpl. repeat constructor; simpl; intuition discriminate.
Qed.

Lemma two_models_numeric : numeric_model_index two_models.
Proof. repeat constructor; apply ago_numeric. Qed.

(** Against C10 as it is stated. With [top_k = 1] the model "b" of the index,
    whose count over the last hour is 0, has no entry in the result: the
    statement that every model of the index has an entry whenever no target
    model is given fails there.  Nor has it an entry when the statistic
    raises: over a window of 10^400 minutes it raises [OverflowError], and
    on an index with a time stamp written as text [TypeError]. *)
Lemma get_model_call_stats_top_k_cuts_model :
  let self := set_model_call two_models monitor in
  Dict.mem (model_call self) "b" = true /\
  fst (get_model_call_stats abc_clock self None 60 (Some 1%Z) 0)
    = Ok [("a", 1)] /\
  ~ (forall (clock : nat -> float) (self : Monitor) (most_recent_min : Z)
            (top_k : option Z) (n : nat) (model : string),
       Dict.mem (model_call self) model = true ->
       exists stats,
         fst (get_model_call_stats clock self None most_recent_min top_k n)
           = Ok stats /\
         Dict.mem stats model = true) /\
  get_model_call_stats abc_clock self None endless_window None 0
    = (Raise OverflowError, 1) /\
  get_model_call_stats abc_clock
    (set_model_call
       [("b", [ {| mr_tstamp := JStr "1700000000.0"; mr_user_id := "u" |} ])]
       monitor) None 60 None 0
    = (Raise TypeError, 1).
Proof.
  intros self. split; [reflexivity|].
  assert (Hrun : fst (get_model_call_stats abc_clock self None 60 (Some 1%Z) 0)
                 = Ok [("a", 1)]) by (vm_compute; reflexivity).
  split; [exact Hrun|]. split; [|split; vm_compute; reflexivity].
  intros H.
  destruct (H abc_clock self 60%Z (Some 1%Z) 0 "b" eq_refl)
    as (stats & Hrun' & Hmem).
  rewrite Hrun in Hrun'. injection Hrun' as <-. discriminate Hmem.
Qed.

(** C10, as the code has it.  When every reading of the clock is a number,
    the number of seconds of the window has a float, the keys of the two
    indices are distinct and their time stamps are numbers: with no target
    model and no [top_k], or a [top_k] that is at least the number of
    models, [get_model_call_stats] returns an entry for every model of the
    index, holding the number of the model's events that are in the window
    at their reading of the clock, 0 when there is none;
    [get_user_call_stats], whatever its arguments, returns no entry for a
    user none of whose events is in the window at its reading and goes to
    the target model. *)
Theorem zero_counts_kept_for_models_dropped_for_users :
  forall (clock : nat -> float) (self : Monitor) (most_recent_min : Z) (n : nat),
    (forall i, clock i <> S754_nan) ->
    overflows most_recent_min = false ->
    Dict.wf (model_call self) -> numeric_model_index (model_call self) ->
    Dict.wf (user_call self) -> numeric_user_index (user_call self) ->
    (forall top_k : option Z,
       match top_k with
       | Some k => (Z.of_nat (length (model_call self)) <= k)%Z
       | None => True
       end ->
       exists stats,
         get_model_call_stats clock self None most_recent_min top_k n
           = (Ok stats, n + length (events (model_call self))) /\
         (forall model,
            Dict.mem (model_call self) model = true ->
            Dict.mem stats model = true) /\
         (forall model reqs,
            In (model, reqs) (examine clock n (model_call self)) ->
            Dict.get stats model =
              Some (length (calls_in_window (in_window most_recent_min) reqs)) /\
            (calls_in_window (in_window most_recent_min) reqs = [] ->
             Dict.get stats model = Some 0))) /\
    (forall (target_model : option string) (top_k : option Z),
       exists stats,
         get_user_call_stats clock self target_model most_recent_min top_k n
           = (Ok stats, n + length (events (user_call self))) /\
         (forall user_id st, In (user_id, st) stats -> 0 < total_calls st) /\
         (forall user_id reqs,
            In (user_id, reqs) (examine clock n (user_call self)) ->
            user_calls_in_window (in_window most_recent_min) target_model
              reqs = [] ->
            Dict.get stats user_id = None)).
Proof.
  intros clock self most_recent_min n Hclock Hfits Hwfm Hnumm Hwfu Hnumu. split.
  - intros top_k Hk.
    pose proof (get_model_call_stats_run clock self None most_recent_min
                  top_k n Hclock Hfits Hwfm Hnumm) as Hrun.
    simpl in Hrun. rewrite aimed_None in Hrun.
    set (timed := examine clock n (model_call self)) in *.
    set (counts := model_counts (in_window most_recent_min) timed) in *.
    assert (Hwft : Dict.wf timed) by now apply examine_wf.
    assert (Hwfc : Dict.wf counts) by now apply model_counts_wf.
    eexists. split; [exact Hrun|].
    assert (Hget : forall model,
               Dict.get (match top_k with
                         | Some k => top_k_models counts k
                         | None => counts
                         end) model = Dict.get counts model).
    { intros model. destruct top_k as [k|]; auto.
      rewrite top_k_models_top_items; auto; [|lia].
      apply top_items_all; auto.
      unfold counts. rewrite model_counts_length. unfold timed.
      rewrite examine_length. lia. }
    split.
    + intros model Hmem. unfold Dict.mem in *. rewrite Hget.
      destruct (Dict.get (model_call self) model) as [reqs|] eqn:E;
        [|discriminate].
      destruct (Dict.get counts model) eqn:Ec; auto.
      apply get_None_iff in Ec. exfalso. apply Ec.
      unfold counts. rewrite model_counts_keys. unfold timed.
      rewrite examine_keys. apply get_In in E.
      now apply (in_map fst) in E.
    + intros model reqs Hin. rewrite Hget.
      pose proof (model_counts_get (in_window most_recent_min) timed model reqs
                    Hwft Hin) as Hc.
      split; [exact Hc|]. intros Hnone. rewrite Hnone in Hc. exact Hc.
  - intros target_model top_k.
    destruct (get_user_call_stats_run clock self target_model most_recent_min n
                Hclock Hfits Hwfu Hnumu) as (stats & Hstats & Hrun).
    assert (Hwft : Dict.wf (examine clock n (user_call self)))
      by now apply examine_wf.
    eexists. split; [exact (Hrun top_k)|].
    destruct (user_stats_no_zero _ _ _ _ top_k Hwft Hstats) as [Hpos Hnone].
    split; [|exact Hnone].
    intros user_id st Hin. now apply Hpos in Hin.
Qed.

Set Implicit Arguments.

(** ** A malformed line (C7) *)

Lemma ingest_line_malformed {S : Type} (indices : ModelIndex * UserIndex)
  (l : line) (s : S) :
  malformed l = true -> exists e, ingest_line indices l s = (Raise e, s).
Proof.
  destruct indices as [mc uc].
  unfold malformed, ingest_line, bind, json_loads, getitem, ret, raise.
  destruct l as [| |[[type|] [model|] [tstamp|] [ip|]]]; simpl;
    try (intros _; eexists; reflexivity);
    destruct (String.eqb type "chat"); simpl;
    try discriminate; intros _; eexists; reflexivity.
Qed.

(** A loop whose body raises on one of the elements, whatever the state of
    the loop, raises. *)
Lemma for_each_raises {S A Acc : Type} (body : Acc -> A -> M S Acc) (l : list A)
  (x : A) :
  (forall acc y s, snd (body acc y s) = s) ->
  (forall acc s, exists e, body acc x s = (Raise e, s)) ->
  In x l ->
  forall acc s, exists e, for_each l body acc s = (Raise e, s).
Proof.
  intros Hstate Hraise. induction l as [|y l IH]; simpl; [tauto|].
  intros Hin acc s. unfold bind.
  destruct Hin as [->|Hin].
  - destruct (Hraise acc s) as [e ->]. now exists e.
  - pose proof (Hstate acc y s) as Hs.
    destruct (body acc y s) as [[acc'|e] s']; simpl in Hs; subst s'.
    + now apply IH.
    + now exists e.
Qed.

Lemma ingest_files_malformed {S : Type} (json_files : list (list line))
  (json_file : list line) (l : line) (s : S) :
  In json_file json_files -> In l json_file -> malformed l = true ->
  exists e, ingest_files json_files s = (Raise e, s).
Proof.
  intros Hfile Hline Hbad. unfold ingest_files.
  apply for_each_raises with (x := json_file); auto.
  - intros acc y s'. apply for_each_state. intros; apply ingest_line_state.
  - intros acc s'. apply for_each_raises with (x := l); auto.
    + intros; apply ingest_line_state.
    + intros acc' s''. now apply ingest_line_malformed.
Qed.

(** A refresh cycle that meets a malformed line raises; it assigns nothing,
    the refresh task ends, and no later wake-up changes the monitor. *)
Lemma malformed_line_ends_task (clock : nat -> float) (json_files : list (list line))
  (json_file : list line) (l : line) (s : Server) :
  In json_file json_files -> In l json_file -> malformed l = true ->
  task_error s = None ->
  exists e,
    step clock (Wake json_files) s =
      (None, {| self_of := self_of s; readings := readings s;
                task_error := Some e |}) /\
    forall later,
      step clock (Wake later)
        {| self_of := self_of s; readings := readings s; task_error := Some e |} =
      (None, {| self_of := self_of s; readings := readings s;
                task_error := Some e |}).
Proof.
  intros Hfile Hline Hbad Halive.
  destruct (@ingest_files_malformed World json_files json_file l
              (self_of s, readings s) Hfile Hline Hbad) as [e He].
  exists e. split; [|reflexivity].
  simpl. rewrite Halive, update_stats_cycle_eq, He. reflexivity.
Qed.

(** C7, as the code has it. A line that is not JSON in a file of the first
    refresh cycle makes [update_stats] raise: the lines and files after it are
    not read, no index and no view is assigned (the monitor stays as
    [__init__] left it), the task has ended with [JSONDecodeError], and a
    later wake-up over healthy files does nothing, so that the views are
    never there for the queries; a chat record without its ["ip"] field does
    the same with [KeyError].  Without the bad line the same files are
    published. *)
Theorem malformed_line_aborts_refresh_for_good :
  forall clock : nat -> float,
    let crashed :=
      {| self_of := monitor; readings := 0; task_error := Some JSONDecodeError |} in
    step clock (Wake files_with_garbage) startup = (None, crashed) /\
    step clock (Wake files_without_garbage) crashed = (None, crashed) /\
    fst (serve clock GetNumUsersHr crashed) =
      ServerError (AttributeError "user_call_stats_hour") /\
    step clock
      (Wake [[ Object {| rec_type := Some "chat"; rec_model := Some "m1";
                         rec_tstamp := Some (JFloat abc_now); rec_ip := None |} ]])
      startup =
    (None, {| self_of := monitor; readings := 0;
              task_error := Some (KeyError "ip") |}) /\
    (let published :=
       snd (step (fun _ => abc_now) (Wake files_without_garbage) startup) in
     task_error published = None /\
     model_call_stats_hour (self_of published) = Some [("m1", 2); ("m2", 1)]).
Proof.
  intros clock crashed. repeat split.
Qed.

(** ** Cycles that complete *)

(** A loop over elements that satisfy [P] whose body returns and keeps the
    invariant [I] returns and keeps [I]. *)
Lemma for_each_total {S A Acc : Type} (I : Acc -> Prop) (P : A -> Prop)
  (body : Acc -> A -> M S Acc) (l : list A) :
  (forall acc x s, I acc -> P x ->
     exists acc' s', body acc x s = (Ok acc', s') /\ I acc') ->
  Forall P l ->
  forall acc s, I acc ->
    exists acc' s', for_each l body acc s = (Ok acc', s') /\ I acc'.
Proof.
  intros Hbody. induction 1 as [|x l Hx Hl IH]; intros acc s Hacc.
  - exists acc, s. split; auto.
  - destruct (Hbody acc x s Hacc Hx) as (acc1 & s1 & Hrun & Hacc1).
    rewrite (for_each_cons_ok body x l acc s Hrun). now apply IH.
Qed.

(** The windows of the refresh cycle have their floats, and a statistic over
    such a window returns when the time stamps are numbers. *)
Lemma get_model_call_stats_total (clock : nat -> float) (self : Monitor)
  (target_model : option string) (most_recent_min : Z) (top_k : option Z) (n : nat) :
  overflows most_recent_min = false ->
  numeric_model_index (model_call self) ->
  exists stats n',
    get_model_call_stats clock self target_model most_recent_min top_k n =
    (Ok stats, n').
Proof.
  intros Hfits Hnum.
  pose proof (get_model_call_stats_outcome clock self target_model
                most_recent_min top_k n) as H.
  now rewrite Hfits, andb_false_r, (numeric_not_bad_model _ _ Hnum) in H.
Qed.

Lemma get_user_call_stats_total (clock : nat -> float) (self : Monitor)
  (target_model : option string) (most_recent_min : Z) (top_k : option Z) (n : nat) :
  overflows most_recent_min = false ->
  numeric_user_index (user_call self) ->
  exists stats n',
    get_user_call_stats clock self target_model most_recent_min top_k n =
    (Ok stats, n').
Proof.
  intros Hfits Hnum.
  pose proof (get_user_call_stats_outcome clock self target_model
                most_recent_min top_k n) as H.
  now rewrite Hfits, andb_false_r, (numeric_not_bad_user _ Hnum) in H.
Qed.

Lemma Forall_set {V : Type} (P : string * V -> Prop) (d : Dict.t V) (k : string)
  (v : V) :
  Forall P d -> P (k, v) -> Forall P (Dict.set d k v).
Proof.
  intros Hd Hv. induction Hd as [|[k' v'] d Hx Hd IH]; simpl.
  - now constructor.
  - destruct (String.eqb_spec k' k) as [->|Hne]; constructor; auto.
Qed.

Lemma Forall_reqs_of {A : Type} (P : A -> Prop) (d : Dict.t (list A)) (k : string) :
  Forall (fun item => Forall P (snd item)) d -> Forall P (reqs_of d k).
Proof.
  intros Hd. unfold reqs_of. destruct (Dict.get d k) as [l|] eqn:E; [|constructor].
  apply get_In in E. rewrite Forall_forall in Hd. exact (Hd _ E).
Qed.

(** The two statements that record a request under a key. *)
Lemma Forall_record {A : Type} (P : A -> Prop) (d : Dict.t (list A)) (k : string)
  (x : A) :
  Forall (fun item => Forall P (snd item)) d -> P x ->
  let d1 := if Dict.mem d k then d else Dict.set d k [] in
  Forall (fun item => Forall P (snd item)) (Dict.set d1 k (reqs_of d1 k ++ [x])).
Proof.
  intros Hd Hx d1.
  assert (Hd1 : Forall (fun item => Forall P (snd item)) d1).
  { unfold d1. destruct (Dict.mem d k); auto. apply Forall_set; auto. }
  apply Forall_set; auto. simpl. apply Forall_app. split.
  - now apply Forall_reqs_of.
  - now constructor.
Qed.

Lemma wf_record {A : Type} (d : Dict.t (list A)) (k : string) (x : A) :
  Dict.wf d ->
  let d1 := if Dict.mem d k then d else Dict.set d k [] in
  Dict.wf (Dict.set d1 k (reqs_of d1 k ++ [x])).
Proof.
  intros Hwf d1. apply wf_set. unfold d1.
  destruct (Dict.mem d k); auto. now apply wf_set.
Qed.

Lemma ingest_line_healthy {S : Type} (indices : ModelIndex * UserIndex)
  (l : line) (s : S) :
  healthy l -> good_indices indices ->
  exists indices', ingest_line indices l s = (Ok indices', s) /\ good_indices indices'.
Proof.
  destruct indices as [mc uc]. intros [Hwell Hnum] (Hwm & Hnm & Hwu & Hnu).
  simpl in Hwm, Hnm, Hwu, Hnu.
  unfold malformed in Hwell. unfold ingest_line, bind, json_loads, getitem, ret, raise.
  destruct l as [| |[[type|] model tstamp ip]]; try discriminate. simpl in *.
  destruct (String.eqb_spec type "chat") as [->|Hne]; simpl in *.
  - destruct model as [model|], tstamp as [tstamp|], ip as [ip|]; try discriminate.
    eexists. split; [reflexivity|].
    assert (Hts : numeric tstamp) by (eapply Hnum; reflexivity).
    repeat split; simpl.
    + now apply wf_record.
    + apply (@Forall_record _ (fun req => numeric (mr_tstamp req))); auto.
    + now apply wf_record.
    + apply (@Forall_record _ (fun req => numeric (ur_tstamp req))); auto.
  - eexists. split; [reflexivity|]. repeat split; auto.
Qed.

Lemma ingest_files_healthy {S : Type} (json_files : list (list line)) (s : S) :
  Forall (Forall healthy) json_files ->
  exists indices,
    ingest_files json_files s = (Ok indices, s) /\ good_indices indices.
Proof.
  intros Hfiles. unfold ingest_files.
  destruct (@for_each_total S _ _ good_indices (Forall healthy)
              (fun indices json_file => for_each json_file ingest_line indices)
              json_files) with (acc := (@Dict.empty (list model_req),
                                        @Dict.empty (list user_req))) (s := s)
    as (indices & s' & Hrun & Hgood); auto.
  - intros acc json_file s0 Hacc Hfile.
    apply (@for_each_total S _ _ good_indices healthy); auto.
    intros acc' l s1 Hacc' Hl.
    destruct (ingest_line_healthy s1 Hl Hacc') as (indices' & Hrun & Hgood).
    now exists indices', s1.
  - repeat split; constructor.
  - pose proof (ingest_files_state json_files s) as Hs.
    unfold ingest_files in Hs. rewrite Hrun in Hs. simpl in Hs. subst s'.
    now exists indices.
Qed.

(** ** Publication of a snapshot (C8) *)

Lemma for_each_any_state {S T A Acc : Type} (body : Acc -> A -> M S Acc)
  (body' : Acc -> A -> M T Acc) (l : list A) :
  (forall acc x s, snd (body acc x s) = s) ->
  (forall acc x t, snd (body' acc x t) = t) ->
  (forall acc x s t, fst (body acc x s) = fst (body' acc x t)) ->
  forall acc s t, fst (for_each l body acc s) = fst (for_each l body' acc t).
Proof.
  intros Hs Ht Heq. induction l as [|x l IH]; intros acc s t; simpl; auto.
  unfold bind. specialize (Hs acc x s). specialize (Ht acc x t).
  specialize (Heq acc x s t).
  destruct (body acc x s) as [r s'], (body' acc x t) as [r' t'].
  simpl in *. subst. destruct r'; auto.
Qed.

Lemma ingest_line_any_state {S T : Type} (indices : ModelIndex * UserIndex)
  (l : line) (s : S) (t : T) :
  fst (ingest_line indices l s) = fst (ingest_line indices l t).
Proof.
  destruct indices as [mc uc].
  unfold ingest_line, bind, json_loads, getitem, ret, raise.
  destruct l as [| |[[ty|] [m|] [ts|] [ip|]]]; simpl; auto;
    destruct (negb (String.eqb ty "chat")); reflexivity.
Qed.

Lemma ingest_files_any_state {S T : Type} (json_files : list (list line))
  (s : S) (t : T) :
  fst (ingest_files json_files s) = fst (ingest_files json_files t).
Proof.
  unfold ingest_files. apply for_each_any_state.
  - intros. apply for_each_state. intros; apply ingest_line_state.
  - intros. apply for_each_state. intros; apply ingest_line_state.
  - intros. apply for_each_any_state.
    + intros; apply ingest_line_state.
    + intros; apply ingest_line_state.
    + intros; apply ingest_line_any_state.
Qed.

Lemma update_stats_cycle_ok (clock : nat -> float) (json_files : list (list line))
  (self self' : Monitor) (n n' : nat) :
  update_stats_cycle clock json_files (self, n) = (Ok tt, (self', n')) ->
  snapshot_of clock json_files self' /\
  model_call_limit_global self' = model_call_limit_global self /\
  model_call_day_limit_per_user self' = model_call_day_limit_per_user self.
Proof.
  rewrite update_stats_cycle_eq.
  rewrite (@ingest_files_any_state World unit json_files (self, n) tt).
  destruct (fst (ingest_files json_files tt)) as [[mc uc]|e] eqn:Hing;
    [|discriminate].
  cbv zeta. simpl fst. simpl snd.
  destruct (get_model_call_stats clock _ None 60 None n) as [[hour|e] n1] eqn:H1;
    [|discriminate].
  destruct (get_model_call_stats clock _ None (24 * 60) None n1)
    as [[day|e] n2] eqn:H2; [|discriminate].
  destruct (get_user_call_stats clock _ None 60 None n2) as [[uhour|e] n3] eqn:H3;
    [|discriminate].
  destruct (get_user_call_stats clock _ None (24 * 60) None n3)
    as [[uday|e] n4] eqn:H4; [|discriminate].
  intros [= <- <-]. split; [|split; reflexivity].
  split; [simpl; exact Hing|]. exists n, n1, n2, n3. simpl.
  unfold get_model_call_stats, get_user_call_stats in *. simpl in *.
  now rewrite H1, H2, H3, H4.
Qed.

Lemma update_stats_cycle_healthy (clock : nat -> float) (json_files : list (list line))
  (self : Monitor) (n : nat) :
  Forall (Forall healthy) json_files ->
  exists self' n', update_stats_cycle clock json_files (self, n) = (Ok tt, (self', n')).
Proof.
  intros Hfiles. rewrite update_stats_cycle_eq.
  destruct (@ingest_files_healthy World json_files (self, n) Hfiles)
    as ([mc uc] & -> & (Hwm & Hnm & Hwu & Hnu)).
  simpl in Hwm, Hnm, Hwu, Hnu. simpl.
  repeat match goal with
  | |- context [get_model_call_stats clock ?s None ?w None ?m] =>
      destruct (@get_model_call_stats_total clock s None w None m eq_refl Hnm)
        as (? & ? & ->)
  | |- context [get_user_call_stats clock ?s None ?w None ?m] =>
      destruct (@get_user_call_stats_total clock s None w None m eq_refl Hnu)
        as (? & ? & ->)
  end.
  eexists. eexists. reflexivity.
Qed.

(** C8, where the code fails it.  After a healthy cycle and then a cycle
    whose chat record has its time stamp written as text, the monitor holds
    the ModelIndex of the second cycle next to the UserIndex and the cached
    views of the first: [self.model_call] was assigned, the hourly statistic
    then raised [TypeError], and the task ended.  The six fields are the
    snapshot of no cycle, and every later reader sees them. *)
Lemma publication_field_by_field_leaves_mixture :
  let clock := fun _ : nat => abc_now in
  let s := snd (run clock [Wake files_without_garbage; Wake cycle_with_text_tstamp]
                  startup) in
  task_error s = Some TypeError /\
  model_call (self_of s) =
    [("m9", [{| mr_tstamp := JStr "1700000000.0"; mr_user_id := "u9" |}])] /\
  model_call_stats_hour (self_of s) = Some [("m1", 2); ("m2", 1)] /\
  Dict.keys (user_call (self_of s)) = ["u1"; "u2"] /\
  fst (serve clock (GetModelCallStats None 60 None) s) = ServerError TypeError /\
  ~ (exists json_files, snapshot_of clock json_files (self_of s)).
Proof.
  intros clock s. repeat split; try (vm_compute; reflexivity).
  intros (json_files & _ & n1 & _ & _ & _ & Hhour & _).
  vm_compute in Hhour. discriminate Hhour.
Qed.

Lemma for_each_raise_or_keep {S A Acc : Type} (I : Acc -> Prop) (P : A -> Prop)
  (body : Acc -> A -> M S Acc) (l : list A) :
  (forall acc x s, I acc -> P x ->
     (exists e, body acc x s = (Raise e, s)) \/
     (exists acc', body acc x s = (Ok acc', s) /\ I acc')) ->
  Forall P l ->
  forall acc s, I acc ->
    (exists e, for_each l body acc s = (Raise e, s)) \/
    (exists acc', for_each l body acc s = (Ok acc', s) /\ I acc').
Proof.
  intros Hbody. induction 1 as [|x l Hx Hl IH]; intros acc s Hacc.
  - right. now exists acc.
  - destruct (Hbody acc x s Hacc Hx) as [[e Hrun]|(acc1 & Hrun & Hacc1)].
    + left. exists e. now apply for_each_cons_raise.
    + rewrite (for_each_cons_ok body x l acc s Hrun). now apply IH.
Qed.

Lemma ingest_files_typed {S : Type} (json_files : list (list line)) (s : S) :
  Forall (Forall typed) json_files ->
  (exists e, ingest_files json_files s = (Raise e, s)) \/
  (exists indices, ingest_files json_files s = (Ok indices, s) /\
                   good_indices indices).
Proof.
  intros Hfiles. unfold ingest_files.
  apply (@for_each_raise_or_keep S _ _ good_indices (Forall typed)); auto.
  - intros acc json_file s0 Hacc Hfile.
    apply (@for_each_raise_or_keep S _ _ good_indices typed); auto.
    intros acc' l s1 Hacc' Hl.
    destruct (malformed l) eqn:Hbad.
    + left. now apply ingest_line_malformed.
    + right. apply ingest_line_healthy; auto. split; auto.
      intros obj tstamp Hobj _. now apply Hl.
  - repeat split; constructor.
Qed.

(** Once the files are read and the time stamps are numbers the cycle runs
    to its end. *)
Lemma update_stats_cycle_numeric (clock : nat -> float) (json_files : list (list line))
  (self : Monitor) (n : nat) (indices : ModelIndex * UserIndex) :
  ingest_files (S:=World) json_files (self, n) = (Ok indices, (self, n)) ->
  good_indices indices ->
  exists self' n', update_stats_cycle clock json_files (self, n) = (Ok tt, (self', n')).
Proof.
  intros Hing (Hwm & Hnm & Hwu & Hnu). rewrite update_stats_cycle_eq.
  rewrite Hing. destruct indices as [mc uc]. simpl in Hwm, Hnm, Hwu, Hnu. simpl.
  repeat match goal with
  | |- context [get_model_call_stats clock ?s None ?w None ?m] =>
      destruct (@get_model_call_stats_total clock s None w None m eq_refl Hnm)
        as (? & ? & ->)
  | |- context [get_user_call_stats clock ?s None ?w None ?m] =>
      destruct (@get_user_call_stats_total clock s None w None m eq_refl Hnu)
        as (? & ? & ->)
  end.
  eexists. eexists. reflexivity.
Qed.

Lemma update_model_call_limit_consistent (clock : nat -> float) (self : Monitor)
  (model : string) (limit : Z) :
  consistent clock self ->
  consistent clock (snd (App.update_model_call_limit self model limit)).
Proof.
  intros Hs. unfold App.update_model_call_limit, update_model_call_limit.
  destruct (Dict.mem (model_call_limit_global self) model); simpl; exact Hs.
Qed.

Lemma serve_consistent (clock : nat -> float) (r : request) (s : Server) :
  consistent clock (self_of s) -> consistent clock (self_of (snd (serve clock r s))).
Proof.
  intros Hs. destruct r; simpl; auto.
  - pose proof (@update_model_call_limit_consistent clock (self_of s) model limit
                  Hs) as H.
    now destruct (App.update_model_call_limit (self_of s) model limit).
  - now destruct (App.get_user_call_stats _ _ _ _ _ _).
  - now destruct (App.get_model_call_stats _ _ _ _ _ _).
Qed.

Lemma step_consistent (clock : nat -> float) (ev : event) (s : Server) :
  typed_event ev ->
  consistent clock (self_of s) -> consistent clock (self_of (snd (step clock ev s))).
Proof.
  intros Hev Hs. destruct ev as [json_files|r].
  - unfold step. destruct (task_error s); auto. simpl in Hev.
    destruct (@ingest_files_typed World json_files (self_of s, readings s) Hev)
      as [[e Hing]|(indices & Hing & Hgood)].
    + rewrite update_stats_cycle_eq.
      rewrite Hing. exact Hs.
    + destruct (@update_stats_cycle_numeric clock json_files (self_of s)
                  (readings s) indices Hing Hgood)
        as (self' & n' & Hrun).
      rewrite Hrun. simpl. right. exists json_files.
      now destruct (@update_stats_cycle_ok clock json_files (self_of s) self'
                      (readings s) n' Hrun).
  - simpl. pose proof (@serve_consistent clock r s Hs) as H.
    now destruct (serve clock r s).
Qed.

Lemma run_consistent (clock : nat -> float) (evs : list event) (s : Server) :
  Forall typed_event evs ->
  consistent clock (self_of s) -> consistent clock (self_of (snd (run clock evs s))).
Proof.
  intros Hevs. revert s. induction Hevs as [|ev evs Hev Hevs IH]; intros s Hs;
    simpl; auto.
  pose proof (@step_consistent clock ev s Hev Hs) as Hstep.
  destruct (step clock ev s) as [rep s']. specialize (IH s' Hstep).
  now destruct (run clock evs s').
Qed.

Lemma startup_consistent (clock : nat -> float) : consistent clock (self_of startup).
Proof. left. repeat split. Qed.

(** X16. A refresh cycle over healthy files (every line accepted, every
    time stamp a number) completes; a cycle that completes leaves the
    ModelIndex, the UserIndex and the four cached views all derived from the
    files of that cycle, and the limit tables as they were; a cycle that
    raises while it reads the files assigns nothing.  As long as the time
    stamps of the log records are numbers, what a request finds after any
    sequence of wake-ups and requests is the monitor as constructed or the
    snapshot of one cycle. *)
Theorem update_stats_cycle_publishes :
  forall (clock : nat -> float) (json_files : list (list line)) (self : Monitor)
         (n : nat),
    (Forall (Forall healthy) json_files ->
     exists self' n',
       update_stats_cycle clock json_files (self, n) = (Ok tt, (self', n'))) /\
    (forall self' n',
       update_stats_cycle clock json_files (self, n) = (Ok tt, (self', n')) ->
       snapshot_of clock json_files self' /\
       model_call_limit_global self' = model_call_limit_global self /\
       model_call_day_limit_per_user self' = model_call_day_limit_per_user self) /\
    (forall e,
       fst (ingest_files json_files tt) = Raise e ->
       update_stats_cycle clock json_files (self, n) = (Raise e, (self, n))) /\
    (forall evs,
       Forall typed_event evs ->
       consistent clock (self_of (snd (run clock evs startup)))).
Proof.
  intros clock json_files self n. split; [|split; [|split]].
  - now apply update_stats_cycle_healthy.
  - intros self' n'. apply update_stats_cycle_ok.
  - intros e He. rewrite update_stats_cycle_eq.
    now rewrite (@ingest_files_any_state World unit json_files (self, n) tt), He.
  - intros evs Hevs. apply run_consistent; auto. apply startup_consistent.
Qed.

(** ** The monitor before the first refresh (C9) *)

Lemma top_k_models_empty (k : Z) : top_k_models Dict.empty k = Dict.empty.
Proof.
  unfold top_k_models, slice_to. simpl.
  destruct (k <? 0)%Z; [reflexivity|]. now destruct (Z.to_nat k).
Qed.

Lemma top_k_users_empty (k : Z) : top_k_users Dict.empty k = Dict.empty.
Proof.
  unfold top_k_users, slice_to. simpl.
  destruct (k <? 0)%Z; [reflexivity|]. now destruct (Z.to_nat k).
Qed.

(** C9, as the code has it. [__init__] assigns the two indices and the two
    limit tables but none of the four cached views, so on the monitor as it
    is before the first refresh cycle [/is_limit_reached] raises
    [AttributeError] for every model of the global limit table, and so do
    [/get_num_users_hr] and [/get_num_users_day]; the queries that read only
    the indices and the limit tables answer as for an empty snapshot. *)
Theorem queries_before_first_refresh :
  forall (clock : nat -> float) (user_id : string),
    App.is_limit_reached monitor "gpt-4-1106-preview" user_id =
      Raise (AttributeError "model_call_stats_hour") /\
    Forall (fun model =>
              App.is_limit_reached monitor model user_id =
              Raise (AttributeError "model_call_stats_hour"))
      (Dict.keys static_model_call_limit_global) /\
    App.get_num_users monitor = Raise (AttributeError "user_call_stats_hour") /\
    App.get_num_users_day monitor = Raise (AttributeError "user_call_stats_day") /\
    fst (serve clock (IsLimitReached "gpt-4-1106-preview" user_id) startup) =
      ServerError (AttributeError "model_call_stats_hour") /\
    App.is_limit_reached monitor "not-configured" user_id =
      Ok {| App.reached := false; App.reason := None |} /\
    App.get_model_call_limit monitor "gpt-4-1106-preview" = 100%Z /\
    (forall model most_recent_min top_k n,
       fst (App.get_model_call_stats clock monitor model most_recent_min top_k n)
         = Ok Dict.empty /\
       fst (App.get_user_call_stats clock monitor model most_recent_min top_k n)
         = Ok Dict.empty).
Proof.
  intros clock user_id. repeat split; try reflexivity.
  - repeat constructor.
  - unfold App.get_model_call_stats, get_model_call_stats. simpl.
    destruct top_k as [k|]; simpl; auto. now rewrite top_k_models_empty.
  - unfold App.get_user_call_stats, get_user_call_stats. simpl.
    destruct top_k as [k|]; simpl; auto. now rewrite top_k_users_empty.
Qed.

(** * Worked runs *)

Example five_calls_reach_limit_of_five :
  is_model_limit_reached (self_of throttled) "gpt-4-1106-preview" = Ok true /\
  is_model_limit_reached (self_of not_throttled) "gpt-4-1106-preview" = Ok false.
Proof. split; reflexivity. Qed.

Example end_to_end_scenario :
  let files :=
    [ [ chat "m1" "u1" (abc_epoch - 10);
        Object {| rec_type := Some "vote"; rec_model := None;
                  rec_tstamp := None; rec_ip := None |} ];
      [] ] in
  fst (run abc_clock
         [ Wake files; Request (GetModelCallStats None 60 None);
           Request GetNumUsersHr ] startup) =
  [ ModelCallStats [("m1", 1)]; NumUsers 1 ].
Proof. vm_compute. reflexivity. Qed.

Example unknown_model_update_rejected :
  fst (run abc_clock
         [ Request (UpdateModelCallLimit "nonexistent-model" 10);
           Request (GetModelCallLimit "nonexistent-model") ] startup) =
  [ Success false; ModelCallLimit (-1) ].
Proof. reflexivity. Qed.

Lemma healthy_chat (model user_id : string) (tstamp : Z) :
  healthy (chat model user_id tstamp).
Proof.
  split; [reflexivity|]. intros obj ts [= <-] _ [= <-].
  apply float_of_Z_not_nan.
Qed.

(** ** Instances of the theorems *)

(** C1 on the throttled server: five calls against a limit of five. *)
Lemma is_model_limit_reached_inclusive_witness :
  model_call_stats_hour (self_of throttled) = Some [("gpt-4-1106-preview", 5)] /\
  is_model_limit_reached (self_of throttled) "gpt-4-1106-preview" = Ok true.
Proof.
  split; [reflexivity|].
  destruct (is_model_limit_reached_inclusive (self_of throttled)
              "gpt-4-1106-preview" (stats_hour := [("gpt-4-1106-preview", 5)])
              eq_refl) as (b & Hb & _ & _ & _ & Hthreshold).
  rewrite Hb. f_equal.
  now apply (Hthreshold 5%Z 5).
Defined.

(** C2 on the throttled server, where the user "u1" has also reached the
    daily limit of the model. *)
Lemma is_limit_reached_precedence_witness :
  is_model_limit_reached (self_of throttled) "gpt-4-1106-preview" = Ok true /\
  is_user_limit_reached (self_of throttled) "gpt-4-1106-preview" "u1" = Ok true /\
  App.is_limit_reached (self_of throttled) "gpt-4-1106-preview" "u1" =
  Ok {| App.reached := true;
        App.reason := Some "MODEL_HOURLY_LIMIT (gpt-4-1106-preview): 5" |}.
Proof.
  split; [reflexivity|]. split; [reflexivity|].
  destruct (is_limit_reached_precedence (self_of throttled)
              "gpt-4-1106-preview" "u1" eq_refl eq_refl)
    as (why & Hreply & -> & _).
  exact Hreply.
Defined.

(** C3 on the throttled server, for a user without calls and for "u1". *)
Lemma is_user_limit_reached_spec_witness :
  user_call_stats_day (self_of throttled) =
    Some [("u1", {| call_dict := [("gpt-4-1106-preview", 5)]; total_calls := 5 |})] /\
  is_user_limit_reached (self_of throttled) "gpt-4-1106-preview" "u2" = Ok false /\
  exists b,
    is_user_limit_reached (self_of throttled) "gpt-4-1106-preview" "u1" = Ok b /\
    (b = true <-> (Z.of_nat 5 >= 5)%Z).
Proof.
  assert (Hday : user_call_stats_day (self_of throttled) =
                 Some [("u1", {| call_dict := [("gpt-4-1106-preview", 5)];
                                 total_calls := 5 |})]) by reflexivity.
  split; [exact Hday|].
  destruct (is_user_limit_reached_spec (self_of throttled) "gpt-4-1106-preview" "u2"
              Hday) as (_ & Hnouser & _).
  split; [now apply Hnouser|].
  destruct (is_user_limit_reached_spec (self_of throttled) "gpt-4-1106-preview" "u1"
              Hday) as (_ & _ & _ & Hcount).
  now apply (Hcount 5%Z
               {| call_dict := [("gpt-4-1106-preview", 5)]; total_calls := 5 |} 5).
Defined.

(** C4 on the monitor as constructed, for a model of the table and for a
    model that is not in it. *)
Lemma update_model_call_limit_closed_world_witness :
  Dict.mem (model_call_limit_global monitor) "yi-large" = true /\
  Dict.mem (model_call_limit_global monitor) "nonexistent-model" = false /\
  fst (update_model_call_limit monitor "yi-large" 10) = true /\
  update_model_call_limit monitor "nonexistent-model" 10 = (false, monitor) /\
  get_model_call_limit monitor "nonexistent-model" = (-1)%Z.
Proof.
  split; [reflexivity|]. split; [reflexivity|].
  destruct (update_model_call_limit_closed_world monitor "yi-large" 10)
    as (Hknown & _ & _).
  destruct (update_model_call_limit_closed_world monitor "nonexistent-model" 10)
    as (_ & Hunknown & _).
  destruct (Hknown eq_refl) as (self' & -> & _).
  split; [reflexivity|]. now apply Hunknown.
Defined.



(** C10 on the model "b" and the user "B", both without an event in the
    last hour. *)
Lemma zero_counts_kept_for_models_dropped_for_users_witness :
  let self := set_user_call abc_user_call (set_model_call two_models monitor) in
  (forall i, ticking_clock i <> S754_nan) /\
  overflows 60 = false /\
  Dict.wf (model_call self) /\ numeric_model_index (model_call self) /\
  Dict.wf (user_call self) /\ numeric_user_index (user_call self) /\
  (exists stats,
     get_model_call_stats ticking_clock self None 60 None 0 = (Ok stats, 2) /\
     Dict.get stats "b" = Some 0) /\
  (exists stats,
     get_user_call_stats ticking_clock self None 60 None 0 = (Ok stats, 11) /\
     Dict.get stats "B" = None).
Proof.
  intros self.
  split; [exact ticking_clock_reads|]. split; [reflexivity|].
  split; [exact two_models_wf|].
  split; [exact two_models_numeric|]. split; [exact abc_user_call_wf|].
  split; [exact abc_user_call_numeric|].
  destruct (@zero_counts_kept_for_models_dropped_for_users ticking_clock
              self 60 0 ticking_clock_reads eq_refl two_models_wf
              two_models_numeric abc_user_call_wf abc_user_call_numeric)
    as (Hmodels & Husers).
  split.
  - destruct (Hmodels None I) as (stats & Hrun & _ & Hget).
    exists stats. split; [exact Hrun|].
    destruct (Hget "b"
                [ (ticking_clock 1,
                   {| mr_tstamp := ago 7200; mr_user_id := "u" |}) ])
      as [_ Hzero].
    + simpl. auto.
    + now apply Hzero.
  - destruct (Husers None None) as (stats & Hrun & _ & Hnone).
    exists stats. split; [exact Hrun|].
    apply (Hnone "B"
             [ (ticking_clock 3,
                {| ur_tstamp := ago 7200; ur_model := "m" |}) ]).
    + simpl. auto.
    + reflexivity.
Defined.

(** X16 on a cycle over healthy files. *)
Lemma update_stats_cycle_publishes_witness :
  Forall (Forall healthy) files_without_garbage /\
  exists self' n',
    update_stats_cycle abc_clock files_without_garbage (monitor, 0) =
      (Ok tt, (self', n')) /\
    snapshot_of abc_clock files_without_garbage self'.
Proof.
  assert (Hfiles : Forall (Forall healthy) files_without_garbage).
  { repeat constructor; apply healthy_chat. }
  split; [exact Hfiles|].
  destruct (update_stats_cycle_publishes abc_clock files_without_garbage monitor 0)
    as (Hcompletes & Hsnapshot & _).
  destruct (Hcompletes Hfiles) as (self' & n' & Hrun).
  exists self', n'. split; [exact Hrun|]. now apply (Hsnapshot self' n').
Defined.

(** * Further properties of the monitor *)

Unset Implicit Arguments.

(** ** The choice of the files *)

Section SortReverseFacts.
Variable A : Type.
Variable key : A -> Q.




End SortReverseFacts.

Lemma latest_files_flat_map (glob_json : string -> list log_file)
  (log_dir_list : list string) (num_file : Z) :
  latest_files glob_json log_dir_list num_file =
  flat_map (fun log_dir => slice_to (sort_reverse ctime (glob_json log_dir)) num_file)
    log_dir_list.
Proof.
  unfold latest_files.
  enough (H : forall acc,
             fold_left
               (fun json_files log_dir =>
                  let json_files_per_server :=
                    sort_reverse ctime (glob_json log_dir) in
                  json_files ++ slice_to json_files_per_server num_file)
               log_dir_list acc =
             acc ++ flat_map
                      (fun log_dir =>
                         slice_to (sort_reverse ctime (glob_json log_dir)) num_file)
                      log_dir_list) by apply (H []).
  induction log_dir_list as [|d l IH]; intros acc; simpl.
  - now rewrite app_nil_r.
  - now rewrite IH, app_assoc.
Qed.





(** ** What a cycle reads into the indices *)

Lemma first_seen_In (l : list string) (k : string) :
  In k (first_seen l) <-> In k l.
Proof.
  induction l as [|a l IH]; simpl; [tauto|].
  rewrite filter_In, IH.
  destruct (String.eqb_spec k a) as [->|Hne]; simpl.
  - tauto.
  - split; [tauto|]. intros [Ha|Hl]; [congruence|auto].
Qed.

Lemma first_seen_NoDup (l : list string) : NoDup (first_seen l).
Proof.
  induction l as [|a l IH]; simpl; constructor.
  - rewrite filter_In. intros [_ H]. now rewrite String.eqb_refl in H.
  - now apply NoDup_filter.
Qed.

Lemma first_seen_snoc (l : list string) (k : string) :
  first_seen (l ++ [k]) =
  if existsb (String.eqb k) l then first_seen l else first_seen l ++ [k].
Proof.
  induction l as [|a l IH]; simpl; auto.
  rewrite IH. destruct (String.eqb_spec k a) as [->|Hne]; simpl.
  - destruct (existsb (String.eqb a) l); auto.
    rewrite filter_app. simpl. rewrite String.eqb_refl. simpl.
    now rewrite app_nil_r.
  - destruct (existsb (String.eqb k) l); auto.
    rewrite filter_app. simpl.
    destruct (String.eqb_spec k a); [congruence|]. reflexivity.
Qed.

Lemma existsb_eqb_In (l : list string) (k : string) :
  existsb (String.eqb k) l = true <-> In k l.
Proof.
  rewrite existsb_exists. split.
  - intros (x & Hin & Heq). apply String.eqb_eq in Heq. now subst.
  - intros Hin. exists k. split; auto. apply String.eqb_refl.
Qed.

(** Two dictionaries with the same keys in the same order and the same value
    under each key are the same. *)
Lemma dict_ext {V : Type} (d1 d2 : Dict.t V) :
  Dict.wf d1 -> Dict.keys d1 = Dict.keys d2 ->
  (forall k, Dict.get d1 k = Dict.get d2 k) -> d1 = d2.
Proof.
  revert d2. induction d1 as [|[k1 v1] d1 IH]; intros [|[k2 v2] d2] Hwf Hkeys Hget;
    simpl in Hkeys; try discriminate; auto.
  injection Hkeys as -> Hkeys.
  unfold Dict.wf in Hwf. simpl in Hwf. inversion Hwf as [|? ? Hout Hwf']; subst.
  pose proof (Hget k2) as Hk. simpl in Hk. rewrite String.eqb_refl in Hk.
  injection Hk as ->. f_equal. apply IH; auto.
  intros k. specialize (Hget k). simpl in Hget.
  destruct (String.eqb_spec k2 k) as [->|Hne]; auto.
  transitivity (@None V).
  - now apply get_None_iff.
  - symmetry. apply get_None_iff. unfold Dict.keys in *. now rewrite <- Hkeys.
Qed.

Section Grouping.
Variables R A : Type.
Variable key_of : R -> string.
Variable item_of : R -> A.

Lemma index_of_keys (records : list R) :
  Dict.keys (index_of key_of item_of records) = first_seen (map key_of records).
Proof. unfold index_of, Dict.keys. rewrite map_map. simpl. apply map_id. Qed.

Lemma index_of_wf (records : list R) : Dict.wf (index_of key_of item_of records).
Proof. unfold Dict.wf. rewrite index_of_keys. apply first_seen_NoDup. Qed.

Lemma group_absent (k : string) (records : list R) :
  ~ In k (map key_of records) -> group key_of item_of k records = [].
Proof.
  intros Hout. unfold group.
  induction records as [|r records IH]; simpl in *; auto.
  destruct (String.eqb_spec (key_of r) k) as [Heq|Hne]; [tauto|].
  apply IH. tauto.
Qed.

Lemma index_of_get (records : list R) (k : string) :
  Dict.get (index_of key_of item_of records) k =
  if existsb (String.eqb k) (map key_of records) then Some (group key_of item_of k records)
  else None.
Proof.
  destruct (existsb (String.eqb k) (map key_of records)) eqn:E.
  - apply existsb_eqb_In, first_seen_In in E.
    apply In_get; [apply index_of_wf|]. unfold index_of.
    change (k, group key_of item_of k records) with ((fun k => (k, group key_of item_of k records)) k).
    now apply in_map.
  - apply get_None_iff. rewrite index_of_keys, first_seen_In.
    intros Hin. apply existsb_eqb_In in Hin. congruence.
Qed.

Lemma index_of_reqs (records : list R) (k : string) :
  reqs_of (index_of key_of item_of records) k = group key_of item_of k records.
Proof.
  unfold reqs_of. rewrite index_of_get.
  destruct (existsb (String.eqb k) (map key_of records)) eqn:E; auto.
  symmetry. apply group_absent. intros Hin.
  apply existsb_eqb_In in Hin. congruence.
Qed.

Lemma group_snoc (k : string) (records : list R) (r : R) :
  group key_of item_of k (records ++ [r]) =
  group key_of item_of k records ++ (if String.eqb (key_of r) k then [item_of r] else []).
Proof.
  unfold group. rewrite filter_app, map_app. simpl.
  now destruct (String.eqb (key_of r) k).
Qed.

(** The two statements that file a record under its key keep the index that
    of the records read so far. *)
Lemma index_of_snoc (records : list R) (r : R) :
  let d := index_of key_of item_of records in
  let d1 := if Dict.mem d (key_of r) then d else Dict.set d (key_of r) [] in
  Dict.set d1 (key_of r) (reqs_of d1 (key_of r) ++ [item_of r]) =
  index_of key_of item_of (records ++ [r]).
Proof.
  set (k := key_of r). intros d d1.
  assert (Hmem : Dict.mem d k = existsb (String.eqb k) (map key_of records)).
  { unfold Dict.mem, d. rewrite index_of_get.
    now destruct (existsb (String.eqb k) (map key_of records)). }
  assert (Hwf1 : Dict.wf d1).
  { unfold d1. destruct (Dict.mem d k); [apply index_of_wf|].
    apply wf_set, index_of_wf. }
  assert (Hkeys1 : Dict.keys d1 = first_seen (map key_of (records ++ [r]))).
  { rewrite map_app. simpl. rewrite first_seen_snoc. fold k. rewrite <- Hmem.
    unfold d1. destruct (Dict.mem d k) eqn:E; [apply index_of_keys|].
    rewrite set_absent.
    - unfold Dict.keys. rewrite map_app. simpl. f_equal. apply index_of_keys.
    - unfold Dict.mem in E. now destruct (Dict.get d k). }
  assert (Hreqs1 : reqs_of d1 k = group key_of item_of k records).
  { unfold d1. destruct (Dict.mem d k) eqn:E; [apply index_of_reqs|].
    unfold reqs_of. rewrite get_set_same. symmetry. apply group_absent.
    intros Hin. apply existsb_eqb_In in Hin. congruence. }
  assert (Hget1 : forall k', k' <> k ->
             Dict.get d1 k' = Dict.get (index_of key_of item_of (records ++ [r])) k').
  { intros k' Hne. rewrite index_of_get, map_app, existsb_app. simpl.
    fold k. destruct (String.eqb_spec k' k) as [|_]; [congruence|].
    rewrite !orb_false_r, group_snoc. fold k.
    destruct (String.eqb_spec k k') as [|_]; [congruence|]. rewrite app_nil_r.
    unfold d1. destruct (Dict.mem d k).
    - apply index_of_get.
    - rewrite get_set_other by congruence. apply index_of_get. }
  apply dict_ext.
  - now apply wf_set.
  - rewrite keys_set_present; [|].
    + rewrite Hkeys1. symmetry. apply index_of_keys.
    + apply mem_true_iff. rewrite Hkeys1. apply first_seen_In.
      rewrite map_app. apply in_or_app. right. now left.
  - intros k'. destruct (String.eqb_spec k k') as [<-|Hne].
    + rewrite get_set_same, index_of_get, Hreqs1, group_snoc. fold k.
      rewrite String.eqb_refl.
      assert (Hin : existsb (String.eqb k) (map key_of (records ++ [r])) = true).
      { apply existsb_eqb_In. rewrite map_app. apply in_or_app. right. now left. }
      now rewrite Hin.
    + rewrite get_set_other by exact Hne. apply Hget1. congruence.
Qed.
End Grouping.

Lemma ingest_line_chat {S : Type} (mc : ModelIndex) (uc : UserIndex) (l : line)
  (r : chat_record) (s : S) :
  chat_record_of l = Some r ->
  ingest_line (mc, uc) l s =
  (Ok (let mc1 := if Dict.mem mc (cr_model r) then mc
                  else Dict.set mc (cr_model r) [] in
       Dict.set mc1 (cr_model r) (reqs_of mc1 (cr_model r) ++ [model_req_of r]),
       let uc1 := if Dict.mem uc (cr_ip r) then uc
                  else Dict.set uc (cr_ip r) [] in
       Dict.set uc1 (cr_ip r) (reqs_of uc1 (cr_ip r) ++ [user_req_of r])), s).
Proof.
  unfold chat_record_of, ingest_line, bind, json_loads, getitem, ret, raise.
  destruct l as [| |[[type|] [model|] [tstamp|] [ip|]]]; simpl; try discriminate.
  destruct (String.eqb type "chat"); simpl; [|discriminate].
  intros [= <-]. reflexivity.
Qed.

Lemma ingest_line_no_chat {S : Type} (indices : ModelIndex * UserIndex) (l : line)
  (s : S) :
  malformed l = false -> chat_record_of l = None ->
  ingest_line indices l s = (Ok indices, s).
Proof.
  destruct indices as [mc uc].
  unfold malformed, chat_record_of, ingest_line, bind, json_loads, getitem, ret,
    raise.
  destruct l as [| |[[type|] [model|] [tstamp|] [ip|]]]; simpl; try discriminate;
    destruct (String.eqb type "chat"); simpl; try discriminate; reflexivity.
Qed.

Lemma ingest_line_other_type {S : Type} (indices : ModelIndex * UserIndex)
  (l : line) (s : S) :
  other_type l = true -> ingest_line indices l s = (Ok indices, s).
Proof.
  destruct indices as [mc uc].
  unfold other_type, ingest_line, bind, json_loads, getitem, ret, raise.
  destruct l as [| |[[type|] model tstamp ip]]; simpl; try discriminate.
  intros ->. reflexivity.
Qed.

Lemma ingest_line_chat_index {S : Type} (records : list chat_record) (l : line)
  (r : chat_record) (s : S) :
  chat_record_of l = Some r ->
  ingest_line (model_index_of records, user_index_of records) l s =
  (Ok (model_index_of (records ++ [r]), user_index_of (records ++ [r])), s).
Proof.
  intros E. rewrite (ingest_line_chat _ _ l r s E). cbv zeta.
  f_equal. f_equal. f_equal.
  - exact (index_of_snoc _ _ cr_model model_req_of records r).
  - exact (index_of_snoc _ _ cr_ip user_req_of records r).
Qed.

(** The chat records of some lines. *)
Lemma chat_records_app (files1 files2 : list (list line)) :
  chat_records (files1 ++ files2) = chat_records files1 ++ chat_records files2.
Proof. unfold chat_records. now rewrite concat_app, flat_map_app. Qed.

Lemma ingest_lines_index {S : Type} (lines : list line) (records : list chat_record)
  (s : S) :
  Forall (fun l => malformed l = false) lines ->
  for_each lines ingest_line (model_index_of records, user_index_of records) s =
  (Ok (model_index_of (records ++ chat_records [lines]),
       user_index_of (records ++ chat_records [lines])), s).
Proof.
  intros Hlines. revert records.
  induction Hlines as [|l lines Hl Hlines IH]; intros records.
  - simpl. unfold ret, chat_records. simpl. now rewrite app_nil_r.
  - assert (Hrecs : chat_records [l :: lines] =
                    match chat_record_of l with Some r => [r] | None => [] end
                    ++ chat_records [lines]).
    { unfold chat_records. simpl. now rewrite !app_nil_r. }
    rewrite Hrecs. destruct (chat_record_of l) as [r|] eqn:E.
    + erewrite for_each_cons_ok; [|now apply (ingest_line_chat_index records l r)].
      rewrite IH. simpl. now rewrite <- !app_assoc.
    + erewrite for_each_cons_ok; [|now apply ingest_line_no_chat].
      apply IH.
Qed.

Lemma ingest_files_index {S : Type} (json_files : list (list line)) (s : S) :
  Forall (Forall (fun l => malformed l = false)) json_files ->
  ingest_files json_files s =
  (Ok (model_index_of (chat_records json_files),
       user_index_of (chat_records json_files)), s).
Proof.
  intros Hfiles. unfold ingest_files.
  enough (H : forall records,
             for_each json_files
               (fun indices json_file => for_each json_file ingest_line indices)
               (model_index_of records, user_index_of records) s =
             (Ok (model_index_of (records ++ chat_records json_files),
                  user_index_of (records ++ chat_records json_files)), s))
    by apply (H []).
  induction Hfiles as [|lines json_files Hlines Hfiles IH]; intros records.
  - simpl. unfold ret, chat_records. simpl. now rewrite app_nil_r.
  - erewrite for_each_cons_ok; [|now apply ingest_lines_index].
    rewrite IH. rewrite <- app_assoc.
    change (lines :: json_files) with ([lines] ++ json_files).
    now rewrite (chat_records_app [lines] json_files).
Qed.

(** A cycle that reads its files has met no malformed line. *)
Lemma ingest_files_ok_wellformed {S : Type} (json_files : list (list line))
  (indices : ModelIndex * UserIndex) (s s' : S) :
  ingest_files json_files s = (Ok indices, s') ->
  Forall (Forall (fun l => malformed l = false)) json_files.
Proof.
  intros Hrun. rewrite Forall_forall. intros json_file Hfile.
  rewrite Forall_forall. intros l Hl.
  destruct (malformed l) eqn:Hbad; auto.
  destruct (ingest_files_malformed json_files json_file l s Hfile Hl Hbad) as [e He].
  congruence.
Qed.

(** X2. A cycle whose files hold no malformed line files the chat records,
    in the order in which it reads them, into the two indices:
    [model_call] has a key for each model that a chat record names, in the
    order in which the models first come, and under it the time stamp and the
    user of each of its records in their order; [user_call] likewise by user.
    Records of another type leave no trace. *)
Theorem ingest_files_groups :
  forall (S : Type) (json_files : list (list line)) (s : S),
    Forall (Forall (fun l => malformed l = false)) json_files ->
    let records := chat_records json_files in
    exists (mc : ModelIndex) (uc : UserIndex),
      ingest_files json_files s = (Ok (mc, uc), s) /\
      Dict.keys mc = first_seen (map cr_model records) /\
      Dict.keys uc = first_seen (map cr_ip records) /\
      (forall model,
         reqs_of mc model =
         map model_req_of
           (filter (fun r => String.eqb (cr_model r) model) records)) /\
      (forall user_id,
         reqs_of uc user_id =
         map user_req_of
           (filter (fun r => String.eqb (cr_ip r) user_id) records)) /\
      (forall model, Dict.mem mc model = true <-> In model (map cr_model records)) /\
      (forall user_id, Dict.mem uc user_id = true <-> In user_id (map cr_ip records)).
Proof.
  intros S json_files s Hfiles records.
  exists (model_index_of records), (user_index_of records).
  split; [now apply ingest_files_index|].
  split; [apply index_of_keys|]. split; [apply index_of_keys|].
  split; [intros model; apply index_of_reqs|].
  split; [intros user_id; apply index_of_reqs|].
  split; intros k; rewrite mem_true_iff; unfold model_index_of, user_index_of;
    rewrite index_of_keys; apply first_seen_In.
Qed.

Lemma files_without_garbage_wellformed :
  Forall (Forall (fun l => malformed l = false)) files_without_garbage.
Proof. repeat constructor. Defined.

(** X2 on the two healthy files of the runs. *)
Lemma ingest_files_groups_witness :
  Forall (Forall (fun l => malformed l = false)) files_without_garbage /\
  exists mc uc,
    ingest_files files_without_garbage tt = (Ok (mc, uc), tt) /\
    Dict.keys mc = ["m1"; "m2"] /\ Dict.keys uc = ["u1"; "u2"].
Proof.
  split; [exact files_without_garbage_wellformed|].
  destruct (ingest_files_groups unit files_without_garbage tt
              files_without_garbage_wellformed)
    as (mc & uc & Hrun & Hmc & Huc & _).
  exists mc, uc. split; [exact Hrun|]. split; [exact Hmc | exact Huc].
Defined.

Lemma for_each_skip {S A Acc : Type} (skip : A -> bool) (body : Acc -> A -> M S Acc)
  (l : list A) :
  (forall acc x s, skip x = true -> body acc x s = (Ok acc, s)) ->
  forall acc s,
    for_each (filter (fun x => negb (skip x)) l) body acc s = for_each l body acc s.
Proof.
  intros Hskip. induction l as [|x l IH]; intros acc s; simpl; auto.
  destruct (skip x) eqn:E; simpl.
  - unfold bind. rewrite (Hskip acc x s E). apply IH.
  - unfold bind. destruct (body acc x s) as [[acc'|e] s']; auto.
Qed.

Lemma for_each_ext {S A Acc : Type} (body body' : Acc -> A -> M S Acc) (l : list A) :
  (forall acc x s, body acc x s = body' acc x s) ->
  forall acc s, for_each l body acc s = for_each l body' acc s.
Proof.
  intros Hext. induction l as [|x l IH]; intros acc s; simpl; auto.
  unfold bind. rewrite Hext. destruct (body' acc x s) as [[acc'|e] s']; auto.
Qed.

(** X3. The records of a type other than "chat" do not count, whatever else
    they hold or lack: a cycle over the files without these lines builds the
    same indices, or raises the same exception, as the cycle over the files
    as they are. *)
Theorem ingest_files_ignores_other_types :
  forall (S : Type) (json_files : list (list line)) (s : S),
    ingest_files (map (filter (fun l => negb (other_type l))) json_files) s =
    ingest_files json_files s.
Proof.
  intros S json_files s. unfold ingest_files.
  generalize (@Dict.empty (list model_req), @Dict.empty (list user_req)).
  revert s. induction json_files as [|lines json_files IH]; intros s acc; simpl; auto.
  unfold bind.
  rewrite (for_each_skip other_type ingest_line lines
             (fun acc x s => ingest_line_other_type acc x s)).
  destruct (for_each lines ingest_line acc s) as [[acc'|e] s']; auto.
Qed.

(** X4. The two indices of a cycle hold the same calls: for a model and a
    user, the calls filed under the model that the user made and the calls
    filed under the user that went to the model carry the same time stamps in
    the same order. *)
Theorem indices_hold_the_same_calls :
  forall (S : Type) (json_files : list (list line)) (s s' : S)
         (mc : ModelIndex) (uc : UserIndex),
    ingest_files json_files s = (Ok (mc, uc), s') ->
    forall model user_id,
      map mr_tstamp
        (filter (fun q => String.eqb (mr_user_id q) user_id) (reqs_of mc model)) =
      map ur_tstamp
        (filter (fun q => String.eqb (ur_model q) model) (reqs_of uc user_id)).
Proof.
  intros S json_files s s' mc uc Hrun model user_id.
  pose proof (ingest_files_ok_wellformed json_files (mc, uc) s s' Hrun) as Hfiles.
  rewrite (ingest_files_index json_files s Hfiles) in Hrun.
  injection Hrun as <- <- _.
  unfold model_index_of, user_index_of. rewrite !index_of_reqs. unfold group.
  induction (chat_records json_files) as [|r records IH]; simpl; auto.
  destruct (String.eqb (cr_model r) model) eqn:Em,
           (String.eqb (cr_ip r) user_id) eqn:Eu; simpl;
    rewrite ?Em, ?Eu; simpl; now rewrite IH.
Qed.

(** X4 on the two healthy files of the runs. *)
Lemma indices_hold_the_same_calls_witness :
  ingest_files files_without_garbage tt =
    (Ok (model_index_of (chat_records files_without_garbage),
         user_index_of (chat_records files_without_garbage)), tt) /\
  map mr_tstamp
    (filter (fun q => String.eqb (mr_user_id q) "u1")
       (reqs_of (model_index_of (chat_records files_without_garbage)) "m1")) =
  map ur_tstamp
    (filter (fun q => String.eqb (ur_model q) "m1")
       (reqs_of (user_index_of (chat_records files_without_garbage)) "u1")).
Proof.
  split; [reflexivity|].
  exact (indices_hold_the_same_calls unit files_without_garbage tt tt _ _ eq_refl
           "m1" "u1").
Defined.

(** ** From one cycle to the next *)

Lemma ingest_files_ok_index {S : Type} (json_files : list (list line))
  (mc : ModelIndex) (uc : UserIndex) (s s' : S) :
  ingest_files json_files s = (Ok (mc, uc), s') ->
  mc = model_index_of (chat_records json_files) /\
  uc = user_index_of (chat_records json_files).
Proof.
  intros Hrun.
  pose proof (ingest_files_ok_wellformed json_files (mc, uc) s s' Hrun) as Hfiles.
  rewrite (ingest_files_index json_files s Hfiles) in Hrun.
  injection Hrun as <- <- _. now split.
Qed.

(** The indices of a snapshot are those of its files. *)
Lemma snapshot_of_indices (clock : nat -> float) (json_files : list (list line))
  (self : Monitor) :
  snapshot_of clock json_files self ->
  model_call self = model_index_of (chat_records json_files) /\
  user_call self = user_index_of (chat_records json_files).
Proof.
  intros [Hing _].
  pose proof (ingest_files_state json_files tt) as Hs.
  destruct (ingest_files json_files tt) as [r []] eqn:E. simpl in Hing. subst r.
  exact (ingest_files_ok_index json_files _ _ tt tt E).
Qed.

Lemma update_stats_cycle_log_dir_list (clock : nat -> float)
  (json_files : list (list line)) (w : World) :
  log_dir_list (fst (snd (update_stats_cycle clock json_files w))) =
  log_dir_list (fst w).
Proof.
  destruct w as [self n]. rewrite update_stats_cycle_eq.
  destruct (fst (ingest_files (S:=World) json_files (self, n))) as [indices|e];
    simpl; auto.
  repeat match goal with
         | |- context [match ?m with (_, _) => _ end] =>
             destruct m as [[?|?] ?]; simpl
         end; auto.
Qed.

(** The loop reaches its last turn only through turns that completed, and
    these left the configuration alone. *)
Lemma update_stats_snoc (clock : nat -> float) (cycles : list (list (list line)))
  (json_files : list (list line)) (w w' : World) :
  update_stats clock (cycles ++ [json_files]) w = (Ok tt, w') ->
  exists w1,
    update_stats_cycle clock json_files w1 = (Ok tt, w') /\
    log_dir_list (fst w1) = log_dir_list (fst w) /\
    model_call_limit_global (fst w1) = model_call_limit_global (fst w) /\
    model_call_day_limit_per_user (fst w1) = model_call_day_limit_per_user (fst w).
Proof.
  revert w. induction cycles as [|cycle cycles IH]; intros w; simpl; unfold bind.
  - destruct (update_stats_cycle clock json_files w) as [[[]|e] w1] eqn:E;
      [|discriminate].
    unfold ret. intros [= <-]. exists w. now rewrite E.
  - pose proof (update_stats_cycle_limits clock cycle w) as [Hg Hd].
    pose proof (update_stats_cycle_log_dir_list clock cycle w) as Hl.
    destruct (update_stats_cycle clock cycle w) as [[[]|e] w1]; [|discriminate].
    simpl in Hg, Hd, Hl. intros Hrun.
    destruct (IH w1 Hrun) as (w2 & Hlast & Hl2 & Hg2 & Hd2).
    exists w2. repeat split; congruence.
Qed.

(** X5. Every turn of [update_stats] starts from empty indices: when the loop
    has run some turns and then a turn over [json_files], all of them to
    their end, the two indices hold the chat records of [json_files] and of no
    earlier turn, the four views are computed from these indices, and the
    directories and the two limit tables are as they were before the first
    turn. *)
Theorem update_stats_keeps_last_cycle :
  forall (clock : nat -> float) (cycles : list (list (list line)))
         (json_files : list (list line)) (self self' : Monitor) (n n' : nat),
    update_stats clock (cycles ++ [json_files]) (self, n) = (Ok tt, (self', n')) ->
    model_call self' = model_index_of (chat_records json_files) /\
    user_call self' = user_index_of (chat_records json_files) /\
    snapshot_of clock json_files self' /\
    log_dir_list self' = log_dir_list self /\
    model_call_limit_global self' = model_call_limit_global self /\
    model_call_day_limit_per_user self' = model_call_day_limit_per_user self.
Proof.
  intros clock cycles json_files self self' n n' Hrun.
  destruct (update_stats_snoc clock cycles json_files (self, n) (self', n') Hrun)
    as ([self1 n1] & Hlast & Hl & Hg & Hd). simpl in Hl, Hg, Hd.
  pose proof (update_stats_cycle_log_dir_list clock json_files (self1, n1)) as Hl'.
  rewrite Hlast in Hl'. simpl in Hl'.
  destruct (@update_stats_cycle_ok clock json_files self1 self' n1 n' Hlast)
    as (Hsnap & Hg' & Hd').
  destruct (snapshot_of_indices clock json_files self' Hsnap) as [Hmc Huc].
  repeat split; try assumption; try apply Hsnap; congruence.
Qed.

(** X5 on a turn over the five calls followed by a turn over two other
    files. *)
Lemma update_stats_keeps_last_cycle_witness :
  exists self' n',
    update_stats abc_clock ([five_calls] ++ [files_without_garbage]) (monitor, 0) =
      (Ok tt, (self', n')) /\
    Dict.keys (model_call self') = ["m1"; "m2"] /\
    Dict.get (model_call self') "gpt-4-1106-preview" = None.
Proof.
  destruct (update_stats abc_clock ([five_calls] ++ [files_without_garbage])
              (monitor, 0)) as [[[]|e] [self' n']] eqn:Hrun;
    [|vm_compute in Hrun; discriminate Hrun].
  exists self', n'. split; [reflexivity|].
  destruct (update_stats_keeps_last_cycle abc_clock [five_calls]
              files_without_garbage monitor self' 0 n' Hrun) as (Hmc & _).
  rewrite Hmc. split; reflexivity.
Defined.

(** ** The replies of [/is_limit_reached] *)

(** X6. [/is_limit_reached] raises nothing but the [AttributeError] of a view
    that is not assigned yet, and no [KeyError] for the model in particular:
    the daily limit that the user-level reason prints is there whenever the
    user-level check fires.  With the hourly view of the models and the daily
    view of the users assigned it answers for every model and user: the flag
    is set exactly when one of the two checks fires, and the reason comes
    with the flag. *)
Theorem is_limit_reached_answers :
  forall (self : Monitor) (model user_id : string),
    (forall e,
       App.is_limit_reached self model user_id = Raise e ->
       (e = AttributeError "model_call_stats_hour" /\
        model_call_stats_hour self = None) \/
       (e = AttributeError "user_call_stats_day" /\
        user_call_stats_day self = None)) /\
    (forall stats_hour stats_day,
       model_call_stats_hour self = Some stats_hour ->
       user_call_stats_day self = Some stats_day ->
       exists r,
         App.is_limit_reached self model user_id = Ok r /\
         (App.reached r = true <->
          is_model_limit_reached self model = Ok true \/
          is_user_limit_reached self model user_id = Ok true) /\
         (App.reason r = None <-> App.reached r = false)).
Proof.
  intros self model user_id.
  unfold App.is_limit_reached, is_model_limit_reached, is_user_limit_reached,
    getattr.
  destruct (Dict.get (model_call_limit_global self) model) as [gl|];
    destruct (model_call_stats_hour self) as [hour|];
    destruct (Dict.get (model_call_day_limit_per_user self) model) as [dl|];
    destruct (user_call_stats_day self) as [day|];
    try destruct (Dict.get hour model) as [c|];
    try destruct (Z.of_nat c >=? gl)%Z;
    try destruct (Dict.get day user_id) as [st|];
    try destruct (Dict.get (call_dict st) model) as [c'|];
    try destruct (Z.of_nat c' >=? dl)%Z;
    (split;
     [ intros e He; try discriminate He; injection He as <-; auto
     | intros stats_hour stats_day Hh Hd;
       first
         [ discriminate Hh
         | discriminate Hd
         | eexists; split; [reflexivity|]; simpl;
           split; split; try discriminate; auto;
           intros [H|H]; discriminate H ] ]).
Qed.

(** X6 on the server that found four calls against limits of five. *)
Lemma is_limit_reached_answers_witness :
  model_call_stats_hour (self_of not_throttled) = Some [("gpt-4-1106-preview", 4)] /\
  exists r,
    App.is_limit_reached (self_of not_throttled) "gpt-4-1106-preview" "u1" = Ok r /\
    (App.reason r = None <-> App.reached r = false).
Proof.
  assert (Hhour : model_call_stats_hour (self_of not_throttled) =
                  Some [("gpt-4-1106-preview", 4)]) by reflexivity.
  assert (Hday : user_call_stats_day (self_of not_throttled) =
                 Some [("u1", {| call_dict := [("gpt-4-1106-preview", 4)];
                                 total_calls := 4 |})]) by reflexivity.
  split; [exact Hhour|].
  destruct (is_limit_reached_answers (self_of not_throttled)
              "gpt-4-1106-preview" "u1") as [_ Hanswers].
  destruct (Hanswers _ _ Hhour Hday) as (r & Hr & _ & Hreason).
  exists r. split; [exact Hr | exact Hreason].
Defined.

(** ** What the events change *)

Lemma serve_config (clock : nat -> float) (r : request) (s : Server) :
  log_dir_list (self_of (snd (serve clock r s))) = log_dir_list (self_of s) /\
  model_call_day_limit_per_user (self_of (snd (serve clock r s))) =
  model_call_day_limit_per_user (self_of s).
Proof.
  destruct r; simpl; auto.
  - unfold App.update_model_call_limit, update_model_call_limit.
    destruct (Dict.mem (model_call_limit_global (self_of s)) model); simpl; auto.
  - now destruct (App.get_user_call_stats _ _ _ _ _ _).
  - now destruct (App.get_model_call_stats _ _ _ _ _ _).
Qed.

Lemma step_config (clock : nat -> float) (ev : event) (s : Server) :
  log_dir_list (self_of (snd (step clock ev s))) = log_dir_list (self_of s) /\
  model_call_day_limit_per_user (self_of (snd (step clock ev s))) =
  model_call_day_limit_per_user (self_of s).
Proof.
  destruct ev as [json_files|r]; simpl.
  - destruct (task_error s); simpl; auto.
    pose proof (update_stats_cycle_limits clock json_files (self_of s, readings s))
      as [_ Hd].
    pose proof (update_stats_cycle_log_dir_list clock json_files
                  (self_of s, readings s)) as Hl.
    destruct (update_stats_cycle clock json_files (self_of s, readings s))
      as [[[]|e] [self' n]]; simpl in *; auto.
  - pose proof (serve_config clock r s) as H.
    now destruct (serve clock r s).
Qed.

(** The limit of a model of the table after one event. *)
Lemma step_limit (clock : nat -> float) (ev : event) (s : Server) (model : string) :
  Dict.mem (model_call_limit_global (self_of s)) model = true ->
  get_model_call_limit (self_of (snd (step clock ev s))) model =
  last_limit model [ev] (get_model_call_limit (self_of s) model).
Proof.
  intros Hmem. destruct ev as [json_files|r]; simpl.
  - destruct (task_error s); simpl; auto.
    pose proof (update_stats_cycle_limits clock json_files (self_of s, readings s))
      as [Hg _].
    unfold get_model_call_limit.
    destruct (update_stats_cycle clock json_files (self_of s, readings s))
      as [[[]|e] [self' n]]; simpl in *; now rewrite Hg.
  - destruct r; simpl; auto.
    + unfold App.update_model_call_limit, update_model_call_limit.
      destruct (String.eqb_spec model0 model) as [->|Hne].
      * rewrite Hmem. simpl. unfold get_model_call_limit. simpl.
        now rewrite get_set_same.
      * destruct (Dict.mem (model_call_limit_global (self_of s)) model0); simpl; auto.
        unfold get_model_call_limit. simpl. now rewrite get_set_other.
    + now destruct (App.get_user_call_stats _ _ _ _ _ _).
    + now destruct (App.get_model_call_stats _ _ _ _ _ _).
Qed.

Lemma step_limit_mem (clock : nat -> float) (ev : event) (s : Server) (model : string) :
  Dict.mem (model_call_limit_global (self_of (snd (step clock ev s)))) model =
  Dict.mem (model_call_limit_global (self_of s)) model.
Proof.
  apply eq_iff_eq_true. rewrite !mem_true_iff. now rewrite step_limit_keys.
Qed.

(** X7. The limits over a run of the server, refresh cycles and requests
    alike: the hourly limit of a model of the global table is the limit of
    the last update that was asked for this model, and the limit before the
    run when there was none; a model that is not in the table stays without a
    limit, whatever updates were asked for it; the daily limits per user and
    the list of directories never change. *)
Theorem limits_over_a_run :
  forall (clock : nat -> float) (evs : list event) (s : Server) (model : string),
    let s' := snd (run clock evs s) in
    (Dict.mem (model_call_limit_global (self_of s)) model = true ->
     get_model_call_limit (self_of s') model =
     last_limit model evs (get_model_call_limit (self_of s) model)) /\
    (Dict.mem (model_call_limit_global (self_of s)) model = false ->
     get_model_call_limit (self_of s') model = (-1)%Z) /\
    model_call_day_limit_per_user (self_of s') =
    model_call_day_limit_per_user (self_of s) /\
    log_dir_list (self_of s') = log_dir_list (self_of s).
Proof.
  intros clock evs. induction evs as [|ev evs IH]; intros s model; simpl.
  - repeat split; auto. intros Hmem. unfold get_model_call_limit.
    unfold Dict.mem in Hmem.
    now destruct (Dict.get (model_call_limit_global (self_of s)) model).
  - pose proof (step_limit clock ev s model) as Hlimit.
    pose proof (step_limit_mem clock ev s model) as Hmem.
    pose proof (step_config clock ev s) as [Hl Hd].
    destruct (step clock ev s) as [rep s1]. simpl in Hlimit, Hmem, Hl, Hd.
    specialize (IH s1 model). simpl in IH.
    destruct (run clock evs s1) as [reps s2]. simpl in *.
    destruct IH as (IHin & IHout & IHd & IHl).
    split; [|split; [|split]].
    + intros Hin. rewrite IHin by congruence. now rewrite Hlimit.
    + intros Hout. apply IHout. congruence.
    + congruence.
    + congruence.
Qed.

(** X7 on two updates of one model with a refresh cycle between them. *)
Lemma limits_over_a_run_witness :
  Dict.mem (model_call_limit_global (self_of startup)) "yi-large" = true /\
  get_model_call_limit
    (self_of (snd (run abc_clock
                     [ Request (UpdateModelCallLimit "yi-large" 10);
                       Wake five_calls;
                       Request (UpdateModelCallLimit "yi-large" 20);
                       Request (UpdateModelCallLimit "gpt2-chatbot" 30) ] startup)))
    "yi-large" = 20%Z.
Proof.
  split; [reflexivity|].
  destruct (limits_over_a_run abc_clock
              [ Request (UpdateModelCallLimit "yi-large" 10);
                Wake five_calls;
                Request (UpdateModelCallLimit "yi-large" 20);
                Request (UpdateModelCallLimit "gpt2-chatbot" 30) ] startup "yi-large")
    as (Hin & _).
  rewrite (Hin eq_refl). reflexivity.
Defined.

Lemma serve_published (clock : nat -> float) (r : request) (s : Server) :
  published (self_of (snd (serve clock r s))) = published (self_of s) /\
  task_error (snd (serve clock r s)) = task_error s.
Proof.
  destruct r; simpl; auto.
  - unfold App.update_model_call_limit, update_model_call_limit.
    destruct (Dict.mem (model_call_limit_global (self_of s)) model); simpl; auto.
  - now destruct (App.get_user_call_stats _ _ _ _ _ _).
  - now destruct (App.get_model_call_stats _ _ _ _ _ _).
Qed.

(** X8. Only a turn of the refresh task writes the indices and the views: a
    run of requests, whatever they are, leaves the six fields as they were,
    and so does every run of events once the task has ended with an
    exception, the wake-ups of that run included.  The task does not come
    back. *)
Theorem requests_leave_the_snapshot :
  forall (clock : nat -> float) (evs : list event) (s : Server),
    Forall is_request evs \/ task_error s <> None ->
    published (self_of (snd (run clock evs s))) = published (self_of s) /\
    task_error (snd (run clock evs s)) = task_error s.
Proof.
  intros clock evs. induction evs as [|ev evs IH]; intros s Hquiet; simpl; auto.
  assert (Hstep : published (self_of (snd (step clock ev s))) = published (self_of s)
                  /\ task_error (snd (step clock ev s)) = task_error s).
  { destruct ev as [json_files|r].
    - destruct Hquiet as [Hreqs|Hended].
      + inversion Hreqs as [|? ? Hreq _]. destruct Hreq.
      + simpl. destruct (task_error s) eqn:E; [|congruence].
        simpl. split; [reflexivity | exact E].
    - simpl. pose proof (serve_published clock r s) as H.
      now destruct (serve clock r s). }
  destruct (step clock ev s) as [rep s1]. simpl in Hstep. destruct Hstep as [Hp He].
  assert (Hquiet1 : Forall is_request evs \/ task_error s1 <> None).
  { destruct Hquiet as [Hreqs|Hended].
    - left. now inversion Hreqs.
    - right. congruence. }
  specialize (IH s1 Hquiet1). destruct (run clock evs s1) as [reps s2].
  simpl in *. destruct IH as [IHp IHe]. split; congruence.
Qed.

(** X8 on the server whose task met a time stamp written as text. *)
Lemma requests_leave_the_snapshot_witness :
  let s := snd (run abc_clock [Wake files_without_garbage;
                               Wake cycle_with_text_tstamp] startup) in
  task_error s <> None /\
  model_call_stats_hour
    (self_of (snd (run abc_clock [Wake five_calls; Request GetNumUsersHr] s))) =
  model_call_stats_hour (self_of s).
Proof.
  intros s.
  assert (Hended : task_error s <> None) by (vm_compute; discriminate).
  split; [exact Hended|].
  destruct (requests_leave_the_snapshot abc_clock
              [Wake five_calls; Request GetNumUsersHr] s (or_intror Hended))
    as [Hp _].
  exact (f_equal (fun p => snd (fst (fst (fst p)))) Hp).
Defined.

(** ** The exceptions of the two statistics *)

(** X9. The two statistics raise two exceptions, and the two differ in when
    they raise them.  [get_model_call_stats] reads the time stamps of the
    models that pass the target filter, and of no other model.  When one of
    these models has an event and the number of seconds of the window is
    past the floats, it raises [OverflowError]; otherwise, when a time stamp
    filed under one of these models is not a number (it is text or null),
    it raises [TypeError]; otherwise it returns.  [get_user_call_stats]
    compares the time stamp before it looks at the model, so the same holds
    of it with the events of all users, whatever the target model.  [top_k]
    plays no part. *)
Theorem statistics_raise_on_text_tstamp :
  forall (clock : nat -> float) (self : Monitor) (target_model : option string)
         (most_recent_min : Z) (top_k : option Z) (n : nat),
    (if reads_model_index target_model (model_call self) &&
        overflows most_recent_min
     then exists n',
         get_model_call_stats clock self target_model most_recent_min top_k n =
         (Raise OverflowError, n')
     else if bad_model_index target_model (model_call self)
          then exists n',
              get_model_call_stats clock self target_model most_recent_min
                top_k n = (Raise TypeError, n')
          else exists stats n',
              get_model_call_stats clock self target_model most_recent_min
                top_k n = (Ok stats, n')) /\
    (if reads_user_index (user_call self) && overflows most_recent_min
     then exists n',
         get_user_call_stats clock self target_model most_recent_min top_k n =
         (Raise OverflowError, n')
     else if bad_user_index (user_call self)
          then exists n',
              get_user_call_stats clock self target_model most_recent_min
                top_k n = (Raise TypeError, n')
          else exists stats n',
              get_user_call_stats clock self target_model most_recent_min
                top_k n = (Ok stats, n')).
Proof.
  intros clock self target_model most_recent_min top_k n. split.
  - apply get_model_call_stats_outcome.
  - apply get_user_call_stats_outcome.
Qed.

(** X9 on the monitor that holds the record with a time stamp written as
    text: the statistics of the model "m1" answer, those of the users with
    the same target do not, and over a window of 10^400 minutes neither
    does. *)
Lemma statistics_raise_on_text_tstamp_witness :
  let s := snd (run abc_clock [Wake files_without_garbage] startup) in
  let self :=
    set_user_call (user_index_of (chat_records cycle_with_text_tstamp))
      (set_model_call (model_index_of (chat_records cycle_with_text_tstamp))
         (self_of s)) in
  (exists stats n',
     get_model_call_stats abc_clock self (Some "m1") 60 None 0 = (Ok stats, n')) /\
  (exists n',
     get_user_call_stats abc_clock self (Some "m1") 60 None 0 =
     (Raise TypeError, n')) /\
  (exists stats n',
     get_model_call_stats abc_clock self (Some "m1") endless_window None 0 =
     (Ok stats, n')) /\
  (exists n',
     get_model_call_stats abc_clock self (Some "m9") endless_window None 0 =
     (Raise OverflowError, n')) /\
  (exists n',
     get_user_call_stats abc_clock self (Some "m1") endless_window None 0 =
     (Raise OverflowError, n')).
Proof.
  intros s self.
  assert (Hm1 : reads_model_index (Some "m1") (model_call self) = false)
    by (vm_compute; reflexivity).
  assert (Hb1 : bad_model_index (Some "m1") (model_call self) = false)
    by (vm_compute; reflexivity).
  assert (Hm9 : reads_model_index (Some "m9") (model_call self) = true)
    by (vm_compute; reflexivity).
  assert (Hu : reads_user_index (user_call self) = true)
    by (vm_compute; reflexivity).
  assert (Hbu : bad_user_index (user_call self) = true)
    by (vm_compute; reflexivity).
  assert (H60 : overflows 60 = false) by (vm_compute; reflexivity).
  assert (Hend : overflows endless_window = true) by (vm_compute; reflexivity).
  destruct (statistics_raise_on_text_tstamp abc_clock self (Some "m1") 60 None 0)
    as [Hmodel Huser].
  rewrite H60, andb_false_r in Hmodel, Huser. rewrite Hb1 in Hmodel.
  rewrite Hbu in Huser.
  split; [exact Hmodel|]. split; [exact Huser|].
  destruct (statistics_raise_on_text_tstamp abc_clock self (Some "m1")
              endless_window None 0) as [Hmodel' Huser'].
  rewrite Hm1, Hb1 in Hmodel'. simpl in Hmodel'.
  rewrite Hu, Hend in Huser'. simpl in Huser'.
  split; [exact Hmodel'|].
  destruct (statistics_raise_on_text_tstamp abc_clock self (Some "m9")
              endless_window None 0) as [Hmodel'' _].
  rewrite Hm9, Hend in Hmodel''. simpl in Hmodel''.
  split; [exact Hmodel'' | exact Huser'].
Defined.

(** ** A time stamp that is NaN *)



(** ** The views of a cycle, in terms of its chat records *)

Lemma option_map_Ok {A : Type} (o : option A) (r : result A) :
  option_map Ok o = Some r -> exists a, o = Some a /\ r = Ok a.
Proof. destruct o as [a|]; simpl; [|discriminate]. intros [= <-]. now exists a. Qed.

Lemma index_of_numeric_model (records : list chat_record) :
  Forall (fun r => numeric (cr_tstamp r)) records ->
  numeric_model_index (model_index_of records).
Proof.
  intros Hnum. unfold numeric_model_index, model_index_of, index_of.
  rewrite Forall_forall. intros item Hin.
  apply in_map_iff in Hin as (k & <- & _). simpl. unfold group.
  rewrite Forall_forall. intros req Hreq.
  apply in_map_iff in Hreq as (r & <- & Hr). apply filter_In in Hr as [Hr _].
  rewrite Forall_forall in Hnum. exact (Hnum r Hr).
Qed.

Lemma index_of_numeric_user (records : list chat_record) :
  Forall (fun r => numeric (cr_tstamp r)) records ->
  numeric_user_index (user_index_of records).
Proof.
  intros Hnum. unfold numeric_user_index, user_index_of, index_of.
  rewrite Forall_forall. intros item Hin.
  apply in_map_iff in Hin as (k & <- & _). simpl. unfold group.
  rewrite Forall_forall. intros req Hreq.
  apply in_map_iff in Hreq as (r & <- & Hr). apply filter_In in Hr as [Hr _].
  rewrite Forall_forall in Hnum. exact (Hnum r Hr).
Qed.

(** The four views of a snapshot taken while the clock reads the number
    [now], over records whose time stamps are numbers. *)
Lemma snapshot_of_steady (clock : nat -> float) (now : float)
  (json_files : list (list line)) (self : Monitor) :
  (forall i, clock i = now) ->
  now <> S754_nan ->
  Forall (fun r => numeric (cr_tstamp r)) (chat_records json_files) ->
  snapshot_of clock json_files self ->
  let records := chat_records json_files in
  let at_now (A : Type) (index : Dict.t (list A)) :=
    map (fun item => (fst item, map (pair now) (snd item))) index in
  model_call self = model_index_of records /\
  user_call self = user_index_of records /\
  model_call_stats_hour self =
    Some (model_counts (in_window 60) (at_now _ (model_index_of records))) /\
  model_call_stats_day self =
    Some (model_counts (in_window (24 * 60))
            (at_now _ (model_index_of records))) /\
  (exists stats,
     user_call_stats_hour self = Some stats /\
     user_stats_of (in_window 60) None (at_now _ (user_index_of records))
       stats) /\
  (exists stats,
     user_call_stats_day self = Some stats /\
     user_stats_of (in_window (24 * 60)) None
       (at_now _ (user_index_of records)) stats).
Proof.
  intros steady Hnow Hrecords Hsnap records at_now.
  destruct (snapshot_of_indices clock json_files self Hsnap) as [Hmc Huc].
  destruct Hsnap as (_ & n1 & n2 & n3 & n4 & H1 & H2 & H3 & H4).
  apply option_map_Ok in H1 as (hour & Hhour & H1).
  apply option_map_Ok in H2 as (day & Hday & H2).
  apply option_map_Ok in H3 as (uhour & Huhour & H3).
  apply option_map_Ok in H4 as (uday & Huday & H4).
  assert (Hclock : forall i, clock i <> S754_nan)
    by (intros i; now rewrite steady).
  assert (Hwfm : Dict.wf (model_call self))
    by (rewrite Hmc; apply index_of_wf).
  assert (Hwfu : Dict.wf (user_call self))
    by (rewrite Huc; apply index_of_wf).
  assert (Hnm : numeric_model_index (model_call self))
    by (rewrite Hmc; now apply index_of_numeric_model).
  assert (Hnu : numeric_user_index (user_call self))
    by (rewrite Huc; now apply index_of_numeric_user).
  rewrite (get_model_call_stats_run clock self None 60 None n1
             Hclock eq_refl Hwfm Hnm) in H1.
  rewrite (get_model_call_stats_run clock self None (24 * 60) None n2
             Hclock eq_refl Hwfm Hnm) in H2.
  destruct (get_user_call_stats_run clock self None 60 n3
              Hclock eq_refl Hwfu Hnu) as (sh & Hsh & Hrh).
  destruct (get_user_call_stats_run clock self None (24 * 60) n4
              Hclock eq_refl Hwfu Hnu) as (sd & Hsd & Hrd).
  rewrite (Hrh None) in H3. rewrite (Hrd None) in H4.
  simpl fst in H1, H2, H3, H4.
  injection H1 as H1. injection H2 as H2. injection H3 as H3. injection H4 as H4.
  subst hour day uhour uday.
  rewrite aimed_None, (examine_steady clock now _ _ steady) in Hhour.
  rewrite aimed_None, (examine_steady clock now _ _ steady) in Hday.
  rewrite (examine_steady clock now _ _ steady) in Hsh.
  rewrite (examine_steady clock now _ _ steady) in Hsd.
  fold records in Hmc, Huc.
  rewrite Hmc in *. rewrite Huc in *.
  split; [reflexivity|]. split; [reflexivity|].
  split; [exact Hhour|]. split; [exact Hday|].
  split; [now exists sh | now exists sd].
Qed.

Lemma get_map_values {V W : Type} (f : V -> W) (d : Dict.t V) (k : string) :
  Dict.get (map (fun item => (fst item, f (snd item))) d) k =
  option_map f (Dict.get d k).
Proof.
  induction d as [|[k' v] d IH]; simpl; auto.
  now destruct (String.eqb k' k).
Qed.

Lemma model_calls_group (now : float) (most_recent_min : Z) (model : string)
  (records : list chat_record) :
  length (calls_in_window (in_window most_recent_min)
            (map (pair now) (group cr_model model_req_of model records))) =
  model_calls now most_recent_min model records.
Proof.
  unfold calls_in_window, group, model_calls.
  induction records as [|r records IH]; simpl; auto.
  destruct (String.eqb (cr_model r) model); simpl; auto.
  destruct (in_window most_recent_min now (cr_tstamp r)); simpl; auto.
Qed.

(** The count of a model in a view: the number of its chat records in the
    window, for a model that the files name. *)
Lemma model_counts_index_get (now : float) (most_recent_min : Z)
  (records : list chat_record) (model : string) :
  Dict.get
    (model_counts (in_window most_recent_min)
       (map (fun item => (fst item, map (pair now) (snd item)))
          (model_index_of records))) model =
  if existsb (String.eqb model) (map cr_model records)
  then Some (model_calls now most_recent_min model records)
  else None.
Proof.
  unfold model_counts. rewrite map_map. simpl.
  rewrite (get_map_values
             (fun reqs => length (calls_in_window (in_window most_recent_min)
                                    (map (pair now) reqs)))).
  unfold model_index_of. rewrite index_of_get.
  destruct (existsb (String.eqb model) (map cr_model records)); simpl; auto.
  now rewrite model_calls_group.
Qed.

Lemma user_model_calls_group (now : float) (most_recent_min : Z)
  (user_id model : string) (records : list chat_record) :
  calls_to model
    (user_calls_in_window (in_window most_recent_min) None
       (map (pair now) (group cr_ip user_req_of user_id records))) =
  user_model_calls now most_recent_min user_id model records.
Proof.
  unfold calls_to, user_calls_in_window, group, user_model_calls.
  induction records as [|r records IH]; simpl; auto.
  destruct (String.eqb (cr_ip r) user_id); simpl; auto.
  rewrite andb_true_r.
  destruct (in_window most_recent_min now (cr_tstamp r)); simpl.
  - destruct (String.eqb (cr_model r) model); simpl; auto.
  - rewrite andb_false_r. auto.
Qed.

(** What the statistics hold for a user, and when they hold nothing. *)
Lemma user_stats_of_get (win : float -> json -> bool)
  (target_model : option string) (timed : Dict.t (list (float * user_req)))
  (stats : Dict.t user_stat) (user_id : string) :
  Dict.wf timed ->
  user_stats_of win target_model timed stats ->
  match Dict.get stats user_id with
  | Some st =>
      user_stat_of
        (user_calls_in_window win target_model (reqs_of timed user_id)) st /\
      0 < total_calls st
  | None =>
      user_calls_in_window win target_model (reqs_of timed user_id) = []
  end.
Proof.
  intros Hwf Hstats. destruct (Dict.get stats user_id) as [st|] eqn:E.
  - apply get_In in E.
    destruct (user_stats_of_In _ _ _ _ _ _ Hstats E) as (reqs & Hin & Hst & Hpos).
    unfold reqs_of. now rewrite (@In_get _ _ _ _ Hwf Hin).
  - unfold reqs_of. destruct (Dict.get timed user_id) as [reqs|] eqn:Ei; auto.
    destruct (user_calls_in_window win target_model reqs) as [|req l] eqn:Ew;
      auto.
    exfalso. apply get_None_iff in E. apply E.
    rewrite (user_stats_of_keys _ _ _ _ Hstats). unfold Dict.keys.
    change user_id with (fst (user_id, reqs)). apply in_map, filter_In.
    split; [now apply get_In|]. unfold active. simpl. now rewrite Ew.
Qed.

Lemma at_now_wf {A : Type} (now : float) (index : Dict.t (list A)) :
  Dict.wf index ->
  Dict.wf (map (fun item => (fst item, map (pair now) (snd item))) index).
Proof. unfold Dict.wf, Dict.keys. now rewrite map_map. Qed.

Lemma at_now_reqs_of {A : Type} (now : float) (index : Dict.t (list A))
  (k : string) :
  reqs_of (map (fun item => (fst item, map (pair now) (snd item))) index) k =
  map (pair now) (reqs_of index k).
Proof.
  unfold reqs_of. rewrite (get_map_values (map (pair now))).
  now destruct (Dict.get index k).
Qed.

(** ** The quota checks after a cycle *)

(** X10. After a turn of [update_stats] that ran to its end while the clock
    read the number [now], over files whose chat records have numbers as
    time stamps, the model-level check answers for every model, and it fires
    exactly when the model has a global limit, a chat record of the files of
    that turn names the model, and the number of the model's chat records
    with [tstamp >= now - 3600], the difference being the one of floats, is
    at least the limit.  A model that the files name has an entry also when
    none of its records is in the window, so a limit of 0 or less blocks it;
    a model that the files do not name is never blocked, whatever its
    limit. *)
Theorem is_model_limit_reached_after_cycle :
  forall (clock : nat -> float) (now : float) (json_files : list (list line))
         (self self' : Monitor) (n n' : nat) (model : string),
    (forall i, clock i = now) ->
    now <> S754_nan ->
    Forall (fun r => numeric (cr_tstamp r)) (chat_records json_files) ->
    update_stats_cycle clock json_files (self, n) = (Ok tt, (self', n')) ->
    let records := chat_records json_files in
    is_model_limit_reached self' model =
    Ok (match Dict.get (model_call_limit_global self) model with
        | Some limit =>
            existsb (String.eqb model) (map cr_model records) &&
            (limit <=? Z.of_nat (model_calls now 60 model records))%Z
        | None => false
        end).
Proof.
  intros clock now json_files self self' n n' model steady Hnow Hnum Hrun
         records.
  destruct (@update_stats_cycle_ok clock json_files self self' n n' Hrun)
    as (Hsnap & Hg & _).
  destruct (snapshot_of_steady clock now json_files self' steady Hnow Hnum Hsnap)
    as (_ & _ & Hhour & _).
  unfold is_model_limit_reached. rewrite Hg, Hhour. simpl getattr. cbv iota.
  destruct (Dict.get (model_call_limit_global self) model) as [limit|]; auto.
  rewrite model_counts_index_get. fold records.
  destruct (existsb (String.eqb model) (map cr_model records)); simpl; auto.
  rewrite Z.geb_leb.
  now destruct (limit <=? Z.of_nat (model_calls now 60 model records))%Z.
Qed.

Lemma five_calls_numeric :
  Forall (fun r => numeric (cr_tstamp r)) (chat_records five_calls).
Proof. repeat constructor; apply float_of_Z_not_nan. Qed.


(** X10 on a turn over the five calls, against the limit of 100. *)
Lemma is_model_limit_reached_after_cycle_witness :
  (forall i, abc_clock i = abc_now) /\
  abc_now <> S754_nan /\
  Forall (fun r => numeric (cr_tstamp r)) (chat_records five_calls) /\
  exists self' n',
    update_stats_cycle abc_clock five_calls (monitor, 0) = (Ok tt, (self', n')) /\
    is_model_limit_reached self' "gpt-4-1106-preview" = Ok false.
Proof.
  split; [reflexivity|]. split; [exact (abc_clock_reads 0)|].
  split; [exact five_calls_numeric|].
  destruct (update_stats_cycle abc_clock five_calls (monitor, 0))
    as [[[]|e] [self' n']] eqn:Hrun; [|vm_compute in Hrun; discriminate Hrun].
  exists self', n'. split; [reflexivity|].
  rewrite (is_model_limit_reached_after_cycle abc_clock abc_now five_calls monitor
             self' 0 n' "gpt-4-1106-preview" (fun _ => eq_refl)
             (abc_clock_reads 0) five_calls_numeric Hrun).
  vm_compute. reflexivity.
Defined.

(** X11. After such a turn the user-level check answers for every model and
    user, and it fires exactly when the model has a daily limit per user and
    the number of chat records of this user for this model with
    [tstamp >= now - 86400], the difference being the one of floats, is
    positive and at least the limit.  A user without such a record is never
    blocked, not even by a limit of 0: the two checks treat a count of zero
    differently. *)
Theorem is_user_limit_reached_after_cycle :
  forall (clock : nat -> float) (now : float) (json_files : list (list line))
         (self self' : Monitor) (n n' : nat) (model user_id : string),
    (forall i, clock i = now) ->
    now <> S754_nan ->
    Forall (fun r => numeric (cr_tstamp r)) (chat_records json_files) ->
    update_stats_cycle clock json_files (self, n) = (Ok tt, (self', n')) ->
    let calls :=
      user_model_calls now (24 * 60) user_id model (chat_records json_files) in
    is_user_limit_reached self' model user_id =
    Ok (match Dict.get (model_call_day_limit_per_user self) model with
        | Some limit => (0 <? calls) && (limit <=? Z.of_nat calls)%Z
        | None => false
        end).
Proof.
  intros clock now json_files self self' n n' model user_id steady Hnow Hnum
         Hrun calls.
  destruct (@update_stats_cycle_ok clock json_files self self' n n' Hrun)
    as (Hsnap & _ & Hd).
  destruct (snapshot_of_steady clock now json_files self' steady Hnow Hnum Hsnap)
    as (_ & _ & _ & _ & _ & stats & Hday & Hstats).
  unfold is_user_limit_reached. rewrite Hd, Hday. simpl getattr. cbv iota.
  destruct (Dict.get (model_call_day_limit_per_user self) model) as [limit|]; auto.
  pose proof (user_stats_of_get (in_window (24 * 60)) None _ stats user_id
                (at_now_wf now _ (index_of_wf _ _ cr_ip user_req_of _)) Hstats)
    as Hget.
  rewrite at_now_reqs_of in Hget.
  unfold user_index_of in Hget. rewrite index_of_reqs in Hget.
  pose proof (user_model_calls_group now (24 * 60) user_id model
                (chat_records json_files)) as Hcalls.
  fold calls in Hcalls.
  destruct (Dict.get stats user_id) as [st|].
  - destruct Hget as [[(_ & Hdict & _) _] _].
    rewrite (Hdict model), Hcalls.
    destruct (0 <? calls); simpl; auto.
    rewrite Z.geb_leb. now destruct (limit <=? Z.of_nat calls)%Z.
  - rewrite Hget in Hcalls. unfold calls_to in Hcalls. simpl in Hcalls.
    now rewrite <- Hcalls.
Qed.

(** X11 on a turn over the five calls of "u1", against the daily limit
    of 5. *)
Lemma is_user_limit_reached_after_cycle_witness :
  (forall i, abc_clock i = abc_now) /\
  abc_now <> S754_nan /\
  Forall (fun r => numeric (cr_tstamp r)) (chat_records five_calls) /\
  exists self' n',
    update_stats_cycle abc_clock five_calls (monitor, 0) = (Ok tt, (self', n')) /\
    is_user_limit_reached self' "gpt-4-1106-preview" "u1" = Ok true /\
    is_user_limit_reached self' "gpt-4-1106-preview" "u2" = Ok false.
Proof.
  split; [reflexivity|]. split; [exact (abc_clock_reads 0)|].
  split; [exact five_calls_numeric|].
  destruct (update_stats_cycle abc_clock five_calls (monitor, 0))
    as [[[]|e] [self' n']] eqn:Hrun; [|vm_compute in Hrun; discriminate Hrun].
  exists self', n'. split; [reflexivity|].
  rewrite (is_user_limit_reached_after_cycle abc_clock abc_now five_calls monitor
             self' 0 n' "gpt-4-1106-preview" "u1" (fun _ => eq_refl)
             (abc_clock_reads 0) five_calls_numeric Hrun).
  rewrite (is_user_limit_reached_after_cycle abc_clock abc_now five_calls monitor
             self' 0 n' "gpt-4-1106-preview" "u2" (fun _ => eq_refl)
             (abc_clock_reads 0) five_calls_numeric Hrun).
  split; vm_compute; reflexivity.
Defined.

(** ** The number of users *)






(** ** A negative [top_k] *)

Lemma count_model_calls_wf (clock : nat -> float) (index : ModelIndex)
  (target_model : option string) (most_recent_min : Z) (n n' : nat)
  (stats : Dict.t nat) :
  count_model_calls clock index target_model most_recent_min n = (Ok stats, n') ->
  Dict.wf stats.
Proof.
  unfold count_model_calls. apply for_each_invariant; [|constructor].
  intros acc [model reqs] s acc' s' Hacc. unfold bind.
  destruct (other_model target_model model).
  - unfold ret. now intros [= <- _].
  - destruct (recent_tstamps clock reqs most_recent_min s) as [[tstamps|e] s1];
      [|discriminate].
    unfold ret. intros [= <- _]. now apply wf_set.
Qed.

Lemma collect_user_stats_wf (clock : nat -> float) (index : UserIndex)
  (target_model : option string) (most_recent_min : Z) (n n' : nat)
  (stats : Dict.t user_stat) :
  collect_user_stats clock index target_model most_recent_min n = (Ok stats, n') ->
  Dict.wf stats.
Proof.
  unfold collect_user_stats. apply for_each_invariant; [|constructor].
  intros acc [user_id reqs] s acc' s' Hacc. unfold bind.
  destruct (count_user_calls clock reqs target_model most_recent_min s)
    as [[calls|e] s1]; [|discriminate].
  match goal with |- context [if ?b then _ else _] => destruct b end;
    unfold ret; intros [= <- _]; auto.
  now apply wf_set.
Qed.

(** [l[:k]] for a negative [k] is [l[:len(l) + k]]. *)
Lemma slice_to_negative {A : Type} (l : list A) (k : Z) :
  (k < 0)%Z ->
  slice_to l k = slice_to l (Z.of_nat (length l - Z.to_nat (- k))).
Proof.
  intros Hk. unfold slice_to at 1. destruct (Z.ltb_spec k 0); [|lia].
  rewrite slice_to_nonneg by lia. now rewrite Nat2Z.id.
Qed.

Lemma top_k_models_negative (stats : Dict.t nat) (k : Z) :
  Dict.wf stats -> (k < 0)%Z ->
  top_k_models stats k =
  top_items (fun c => c) stats (length stats - Z.to_nat (- k)).
Proof.
  intros Hwf Hk.
  rewrite <- (Nat2Z.id (length stats - Z.to_nat (- k))).
  rewrite <- top_k_models_top_items by (auto; lia).
  unfold top_k_models. rewrite slice_to_negative by exact Hk.
  rewrite sorted_desc_length. unfold Dict.keys. now rewrite length_map.
Qed.

Lemma top_k_users_negative (stats : Dict.t user_stat) (k : Z) :
  Dict.wf stats -> (k < 0)%Z ->
  top_k_users stats k =
  top_items total_calls stats (length stats - Z.to_nat (- k)).
Proof.
  intros Hwf Hk.
  rewrite <- (Nat2Z.id (length stats - Z.to_nat (- k))).
  rewrite <- top_k_users_top_items by (auto; lia).
  unfold top_k_users. rewrite slice_to_negative by exact Hk.
  rewrite sorted_desc_length. unfold Dict.keys. now rewrite length_map.
Qed.

(** X13. A negative [top_k] is not an error and does not mean "no limit":
    the slice [[:top_k]] then drops the last [-top_k] names of the ranking.
    Whenever a statistic answers without [top_k], it answers with a negative
    [top_k] too, after the same clock readings, and the result is the top
    [len - (-top_k)] of the unranked result ([len] its number of entries):
    the entries that rank last are left out, all of them when [-top_k] is
    [len] or more. *)
Theorem negative_top_k_drops_the_last :
  forall (clock : nat -> float) (self : Monitor) (target_model : option string)
         (most_recent_min : Z) (top_k : Z) (n : nat),
    (top_k < 0)%Z ->
    (forall counts n',
       get_model_call_stats clock self target_model most_recent_min None n =
         (Ok counts, n') ->
       exists kept,
         get_model_call_stats clock self target_model most_recent_min
           (Some top_k) n = (Ok kept, n') /\
         is_top_k (fun c => c) (length counts - Z.to_nat (- top_k)) counts kept) /\
    (forall stats n',
       get_user_call_stats clock self target_model most_recent_min None n =
         (Ok stats, n') ->
       exists kept,
         get_user_call_stats clock self target_model most_recent_min
           (Some top_k) n = (Ok kept, n') /\
         is_top_k total_calls (length stats - Z.to_nat (- top_k)) stats kept).
Proof.
  intros clock self target_model most_recent_min top_k n Hk. split.
  - intros counts n'. unfold get_model_call_stats, bind.
    destruct (count_model_calls clock (model_call self) target_model
                most_recent_min n) as [[counts'|e] n1] eqn:E; [|discriminate].
    unfold ret. intros [= -> ->].
    pose proof (count_model_calls_wf _ _ _ _ _ _ _ E) as Hwf.
    eexists. split; [reflexivity|].
    rewrite top_k_models_negative by assumption.
    now apply top_items_is_top_k.
  - intros stats n'. unfold get_user_call_stats, bind.
    destruct (collect_user_stats clock (user_call self) target_model
                most_recent_min n) as [[stats'|e] n1] eqn:E; [|discriminate].
    unfold ret. intros [= -> ->].
    pose proof (collect_user_stats_wf _ _ _ _ _ _ _ E) as Hwf.
    eexists. split; [reflexivity|].
    rewrite top_k_users_negative by assumption.
    now apply top_items_is_top_k.
Qed.

(** X13 on the users A, B and C: with [top_k = -1] of the two active users
    the one that ranks first is left. *)
Lemma negative_top_k_drops_the_last_witness :
  ((-1) < 0)%Z /\
  exists kept,
    get_user_call_stats abc_clock abc_monitor None 60 (Some (-1)%Z) 0 =
      (Ok kept, 11) /\
    length kept = 1.
Proof.
  split; [reflexivity|].
  destruct (negative_top_k_drops_the_last abc_clock abc_monitor None 60 (-1) 0
              eq_refl) as [_ Husers].
  destruct (Husers [("A", {| call_dict := [("m", 3)]; total_calls := 3 |});
                    ("C", {| call_dict := [("m", 7)]; total_calls := 7 |})] 11)
    as (kept & Hrun & Hlen & _).
  - vm_compute. reflexivity.
  - exists kept. split; [exact Hrun | exact Hlen].
Defined.

(** ** A turn that finds no file *)

Lemma latest_files_none (glob_json : string -> list log_file)
  (log_dir_list : list string) (num_file : Z) :
  num_file = 0%Z \/
  (forall log_dir, In log_dir log_dir_list -> glob_json log_dir = []) ->
  latest_files glob_json log_dir_list num_file = [].
Proof.
  intros Hnone. rewrite latest_files_flat_map.
  induction log_dir_list as [|log_dir l IH]; simpl; auto.
  rewrite IH.
  - rewrite app_nil_r. destruct Hnone as [-> | Hempty].
    + reflexivity.
    + rewrite (Hempty log_dir) by now left.
      unfold slice_to. simpl. destruct (num_file <? 0)%Z; [reflexivity|].
      now destruct (Z.to_nat num_file).
  - destruct Hnone as [Hz | Hempty]; [now left | right].
    intros d Hd. apply Hempty. now right.
Qed.

(** X14. A turn of [update_stats] with [num_file = 0], or at a time when no
    directory of [log_dir_list] holds a [.json] file, is not an error: it
    runs to its end without reading the clock and publishes empty indices
    and four empty views.  From then on [/is_limit_reached] answers that no
    limit is reached, for every model and user and whatever the limits are,
    and both user counts are 0. *)
Theorem update_stats_turn_without_files :
  forall (clock : nat -> float) (glob_json : string -> list log_file) (num_file : Z)
         (self : Monitor) (n : nat),
    num_file = 0%Z \/
    (forall log_dir, In log_dir (log_dir_list self) -> glob_json log_dir = []) ->
    exists self',
      update_stats_turn clock glob_json num_file (self, n) = (Ok tt, (self', n)) /\
      published self' =
        (Dict.empty, Dict.empty, Some Dict.empty, Some Dict.empty,
         Some Dict.empty, Some Dict.empty) /\
      model_call_limit_global self' = model_call_limit_global self /\
      model_call_day_limit_per_user self' = model_call_day_limit_per_user self /\
      (forall model user_id,
         App.is_limit_reached self' model user_id =
         Ok {| App.reached := false; App.reason := None |}) /\
      App.get_num_users self' = Ok 0 /\
      App.get_num_users_day self' = Ok 0.
Proof.
  intros clock glob_json num_file self n Hnone.
  unfold update_stats_turn. simpl fst.
  rewrite (latest_files_none glob_json (log_dir_list self) num_file Hnone).
  eexists. split; [reflexivity|]. simpl.
  split; [reflexivity|]. split; [reflexivity|]. split; [reflexivity|].
  split; [|split; reflexivity].
  intros model user_id.
  unfold App.is_limit_reached, is_model_limit_reached, is_user_limit_reached.
  simpl.
  destruct (Dict.get (model_call_limit_global self) model);
    destruct (Dict.get (model_call_day_limit_per_user self) model); reflexivity.
Qed.

(** X14 on the monitor as constructed, when the eighteen directories are
    empty. *)
Lemma update_stats_turn_without_files_witness :
  (forall log_dir, In log_dir (log_dir_list monitor) ->
     (fun _ : string => @nil log_file) log_dir = []) /\
  exists self',
    update_stats_turn abc_clock (fun _ => []) 2 (monitor, 0) = (Ok tt, (self', 0)) /\
    App.is_limit_reached self' "gpt-4-1106-preview" "u1" =
    Ok {| App.reached := false; App.reason := None |}.
Proof.
  split; [reflexivity|].
  destruct (update_stats_turn_without_files abc_clock (fun _ => []) 2 monitor 0
              (or_intror (fun _ _ => eq_refl)))
    as (self' & Hrun & _ & _ & _ & Hlimit & _).
  exists self'. split; [exact Hrun | apply Hlimit].
Defined.

(** ** The target model of a statistic *)

Lemma filter_key_absent {V : Type} (d : Dict.t V) (k : string) :
  ~ In k (Dict.keys d) -> filter (fun item => String.eqb (fst item) k) d = [].
Proof.
  induction d as [|[k' v] d IH]; simpl; auto.
  intros Hout. destruct (String.eqb_spec k' k) as [->|Hne]; [tauto|].
  apply IH. tauto.
Qed.

Lemma filter_key {V : Type} (d : Dict.t V) (k : string) :
  Dict.wf d ->
  filter (fun item => String.eqb (fst item) k) d =
  match Dict.get d k with Some v => [(k, v)] | None => [] end.
Proof.
  unfold Dict.wf. induction d as [|[k' v] d IH]; simpl; auto.
  intros Hnd. inversion Hnd as [|? ? Hout Hnd']; subst.
  destruct (String.eqb_spec k' k) as [->|Hne]; auto.
  now rewrite filter_key_absent.
Qed.

(** A dictionary with one key. *)
Lemma single_key {V : Type} (d : Dict.t V) (a : string) (v : V) :
  Dict.wf d ->
  (forall k, Dict.get d k = if String.eqb k a then Some v else None) ->
  d = [(a, v)].
Proof.
  intros Hwf Hget. apply dict_ext; auto.
  - destruct d as [|[k1 v1] d].
    + specialize (Hget a). rewrite String.eqb_refl in Hget. discriminate Hget.
    + pose proof (Hget k1) as H1. simpl in H1. rewrite String.eqb_refl in H1.
      destruct (String.eqb_spec k1 a) as [->|Hne]; [|discriminate].
      simpl. f_equal. destruct d as [|[k2 v2] d]; auto. exfalso.
      inversion Hwf as [|? ? Hout _]; subst. simpl in Hout.
      pose proof (Hget k2) as H2. simpl in H2.
      destruct (String.eqb_spec a k2) as [->|Hne]; [tauto|].
      rewrite String.eqb_refl in H2.
      destruct (String.eqb_spec k2 a) as [->|Hne']; [tauto | discriminate].
  - intros k. rewrite Hget. simpl. rewrite (String.eqb_sym a k).
    reflexivity.
Qed.

Lemma user_calls_in_window_target (win : float -> json -> bool)
  (target : string) (reqs : list (float * user_req)) :
  user_calls_in_window win (Some target) reqs =
  filter (fun req => String.eqb (ur_model req) target)
    (user_calls_in_window win None reqs).
Proof.
  unfold user_calls_in_window. induction reqs as [|p reqs IH]; auto.
  simpl in IH |- *.
  destruct (win (fst p) (ur_tstamp (snd p))); simpl; auto.
  destruct (String.eqb (ur_model (snd p)) target); simpl; now f_equal.
Qed.

Lemma calls_to_filter (model target : string) (reqs : list user_req) :
  calls_to model (filter (fun req => String.eqb (ur_model req) target) reqs) =
  if String.eqb model target then calls_to target reqs else 0.
Proof.
  unfold calls_to. induction reqs as [|req reqs IH]; simpl.
  - now destruct (String.eqb model target).
  - destruct (String.eqb_spec (ur_model req) target) as [Ht|Ht]; simpl.
    + rewrite Ht. destruct (String.eqb_spec target model) as [<-|Hm]; simpl.
      * rewrite String.eqb_refl in *. simpl. now rewrite IH.
      * rewrite IH. destruct (String.eqb_spec model target); congruence.
    + exact IH.
Qed.

(** The models that a target leaves are models of the index. *)
Lemma reads_model_index_target (target : string) (index : ModelIndex) :
  reads_model_index (Some target) index = true ->
  reads_model_index None index = true.
Proof.
  unfold reads_model_index. rewrite !existsb_exists.
  intros (item & Hin & Hitem). exists item. split; auto.
  apply andb_true_iff in Hitem as [_ Hreqs]. exact Hreqs.
Qed.

Lemma bad_model_index_target (target : string) (index : ModelIndex) :
  bad_model_index (Some target) index = true ->
  bad_model_index None index = true.
Proof.
  unfold bad_model_index. rewrite !existsb_exists.
  intros (item & Hin & Hitem). exists item. split; auto.
  apply andb_true_iff in Hitem as [_ Hreqs]. exact Hreqs.
Qed.

(** A statistic of the models that returns with a target returns without. *)
Lemma get_model_call_stats_target_returns (clock : nat -> float)
  (self : Monitor) (target : string) (most_recent_min : Z) (n m : nat)
  (counts : Dict.t nat) (n' : nat) :
  get_model_call_stats clock self None most_recent_min None n =
    (Ok counts, n') ->
  exists narrowed m',
    get_model_call_stats clock self (Some target) most_recent_min None m =
    (Ok narrowed, m').
Proof.
  intros Hrun.
  pose proof (get_model_call_stats_outcome clock self None most_recent_min
                None n) as Hall.
  pose proof (get_model_call_stats_outcome clock self (Some target)
                most_recent_min None m) as Hone.
  rewrite Hrun in Hall.
  destruct (reads_model_index (Some target) (model_call self)) eqn:Er.
  - rewrite (reads_model_index_target _ _ Er) in Hall.
    destruct (overflows most_recent_min).
    + simpl in Hall. destruct Hall as [? Habs]. discriminate Habs.
    + simpl in Hall, Hone.
      destruct (bad_model_index (Some target) (model_call self)) eqn:Eb; auto.
      rewrite (bad_model_index_target _ _ Eb) in Hall.
      destruct Hall as [? Habs]. discriminate Habs.
  - simpl in Hone.
    now rewrite (reads_model_index_false _ _ Er) in Hone.
Qed.

(** The statistics of the users return with a target when they return
    without. *)
Lemma get_user_call_stats_target_returns (clock : nat -> float)
  (self : Monitor) (target : string) (most_recent_min : Z) (n m : nat)
  (stats : Dict.t user_stat) (n' : nat) :
  get_user_call_stats clock self None most_recent_min None n =
    (Ok stats, n') ->
  exists narrowed m',
    get_user_call_stats clock self (Some target) most_recent_min None m =
    (Ok narrowed, m').
Proof.
  intros Hrun.
  pose proof (get_user_call_stats_outcome clock self None most_recent_min
                None n) as Hall.
  pose proof (get_user_call_stats_outcome clock self (Some target)
                most_recent_min None m) as Hone.
  rewrite Hrun in Hall.
  destruct (reads_user_index (user_call self) && overflows most_recent_min).
  - destruct Hall as [? Habs]. discriminate Habs.
  - destruct (bad_user_index (user_call self)); auto.
    destruct Hall as [? Habs]. discriminate Habs.
Qed.

(** X15. What a target model does to the two statistics, while the clock
    reads [now].  The model statistics with the target [target] are the
    entry of [target] in the statistics without target, alone, and they are
    empty when the index does not hold the model.  The user statistics with
    the target are the statistics without target cut down to this model:
    a user has an entry exactly when the user's [call_dict] without target
    has one for the model, its [call_dict] holds this model and count and
    nothing else, and its [total_calls] is this count, not the total of the
    user. *)
Theorem target_model_narrows :
  forall (clock : nat -> float) (now : float) (self : Monitor) (target : string)
         (most_recent_min : Z) (n m : nat),
    (forall i, clock i = now) ->
    Dict.wf (model_call self) -> Dict.wf (user_call self) ->
    (forall counts,
       fst (get_model_call_stats clock self None most_recent_min None n) =
         Ok counts ->
       fst (get_model_call_stats clock self (Some target) most_recent_min None m) =
       Ok (match Dict.get counts target with
           | Some calls => [(target, calls)]
           | None => []
           end)) /\
    (forall stats,
       fst (get_user_call_stats clock self None most_recent_min None n) =
         Ok stats ->
       exists narrowed,
         fst (get_user_call_stats clock self (Some target) most_recent_min None m) =
           Ok narrowed /\
         forall user_id,
           Dict.get narrowed user_id =
           match Dict.get stats user_id with
           | Some st =>
               match Dict.get (call_dict st) target with
               | Some calls =>
                   Some {| call_dict := [(target, calls)]; total_calls := calls |}
               | None => None
               end
           | None => None
           end).
Proof.
  intros clock now self target most_recent_min n m steady Hwfm Hwfu. split.
  - intros counts Hrun.
    destruct (get_model_call_stats clock self None most_recent_min None n)
      as [r n'] eqn:Eall. simpl in Hrun. subst r.
    destruct (get_model_call_stats_target_returns clock self target
                most_recent_min n m counts n' Eall) as (narrowed & m' & Eone).
    rewrite Eone. simpl. f_equal.
    destruct (get_model_call_stats_ok clock self None most_recent_min None
                n n' counts Hwfm Eall) as [-> _].
    destruct (get_model_call_stats_ok clock self (Some target) most_recent_min
                None m m' narrowed Hwfm Eone) as [-> _].
    rewrite aimed_None, !(examine_steady clock now _ _ steady).
    unfold model_counts, aimed. rewrite !map_map. simpl.
    rewrite (get_map_values
               (fun reqs => length (calls_in_window (not_too_old most_recent_min)
                                      (map (pair now) reqs)))).
    rewrite (filter_key _ _ Hwfm).
    now destruct (Dict.get (model_call self) target).
  - intros stats Hrun.
    destruct (get_user_call_stats clock self None most_recent_min None n)
      as [r n'] eqn:Eall. simpl in Hrun. subst r.
    destruct (get_user_call_stats_target_returns clock self target
                most_recent_min n m stats n' Eall) as (narrowed & m' & Eone).
    exists narrowed. split; [now rewrite Eone|].
    destruct (get_user_call_stats_ok clock self None most_recent_min None
                n n' stats Hwfu Eall) as (stats' & Hstats & -> & _).
    destruct (get_user_call_stats_ok clock self (Some target) most_recent_min
                None m m' narrowed Hwfu Eone) as (narrowed' & Hnarrowed & -> & _).
    rewrite (examine_steady clock now _ _ steady) in Hstats.
    rewrite (examine_steady clock now _ _ steady) in Hnarrowed.
    intros user_id.
    pose proof (user_stats_of_get (not_too_old most_recent_min) None _
                  stats' user_id (at_now_wf now _ Hwfu) Hstats) as Hget.
    pose proof (user_stats_of_get (not_too_old most_recent_min) (Some target) _
                  narrowed' user_id (at_now_wf now _ Hwfu) Hnarrowed) as Hget'.
    rewrite user_calls_in_window_target in Hget'.
    set (window := user_calls_in_window (not_too_old most_recent_min) None
                     (reqs_of
                        (map (fun item => (fst item, map (pair now) (snd item)))
                           (user_call self)) user_id)) in *.
    assert (Hlen : length (filter (fun req => String.eqb (ur_model req) target)
                             window) = calls_to target window) by reflexivity.
    destruct (Dict.get narrowed' user_id) as [st'|].
    + destruct Hget' as [[(Hwf' & Hdict' & _) Htotal'] Hpos].
      rewrite Hlen in Htotal'.
      destruct (Dict.get stats' user_id) as [st|].
      * destruct Hget as [[(_ & Hdict & _) _] _]. rewrite (Hdict target).
        destruct (Nat.ltb_spec 0 (calls_to target window)) as [_|Hzero]; [|lia].
        f_equal. destruct st' as [calls' total']. simpl in *. subst total'.
        f_equal. apply single_key; auto.
        intros k. rewrite Hdict', calls_to_filter.
        destruct (String.eqb k target); auto.
        destruct (Nat.ltb_spec 0 (calls_to target window)); auto. lia.
      * exfalso. rewrite Hget in Htotal'. unfold calls_to in Htotal'.
        simpl in Htotal'. lia.
    + destruct (Dict.get stats' user_id) as [st|]; auto.
      destruct Hget as [[(_ & Hdict & _) _] _]. rewrite (Hdict target).
      rewrite <- Hlen, Hget'. reflexivity.
Qed.

(** X15 on the users A, B and C, whose calls all go to the model "m". *)
Lemma target_model_narrows_witness :
  (forall i, abc_clock i = abc_now) /\
  Dict.wf (model_call abc_monitor) /\ Dict.wf (user_call abc_monitor) /\
  exists narrowed,
    fst (get_user_call_stats abc_clock abc_monitor (Some "m") 60 None 0) =
      Ok narrowed /\
    Dict.get narrowed "A" =
      Some {| call_dict := [("m", 3)]; total_calls := 3 |}.
Proof.
  assert (Hwfm : Dict.wf (model_call abc_monitor)) by constructor.
  split; [reflexivity|]. split; [exact Hwfm|].
  split; [exact abc_user_call_wf|].
  destruct (target_model_narrows abc_clock abc_now abc_monitor "m" 60 0 0
              (fun _ => eq_refl) Hwfm abc_user_call_wf) as [_ Husers].
  destruct (Husers [("A", {| call_dict := [("m", 3)]; total_calls := 3 |});
                    ("C", {| call_dict := [("m", 7)]; total_calls := 7 |})])
    as (narrowed & Hrun & Hget).
  - vm_compute. reflexivity.
  - exists narrowed. split; [exact Hrun|]. rewrite (Hget "A"). reflexivity.
Defined.
